(** * space-bandits: wide and deep contextual bandits with Bayesian linear
      regression and Thompson sampling

    A shallow embedding of [wide_deep_bandits/wide_deep_bandits_BLR_TS.py]:
    the contextual data buffer ([ContextualDataset]), the user index
    registry, the per-action posterior bank and the action-selection and
    learning-rate bookkeeping of [Wide_Deep_Bandits].

    Conventions of the embedding.
    - Python integers are [Z]; sizes that the constructors of torch and numpy
      reject when negative ([num_actions], [context_dim], [batch_size]) are
      [nat].
    - Floating-point scalars are an abstract type [R] with the operations of
      the class [Scalar]; no algebraic law is assumed of them, so every
      theorem holds of any arithmetic, and [Q] is the instance used to run
      the definitions.  Rounding between float32 and float64 tensors is not
      represented.
    - A 2-d tensor is the list of its rows, a 1-d tensor a list.
    - A Python exception is a value of [exn]; code that can raise returns an
      [outcome]; code that mutates an object and can raise half-way is a
      function from the state to an outcome and the state reached.
    - torch, numpy and scipy primitives that the repository only calls (the
      networks, the random generators, [np.linalg.inv], mean and standard
      deviation) are variables of the section that uses them. *)

From Stdlib Require Import ZArith QArith List Bool String Lia.
From stdpp Require Import base option list gmap.
Import ListNotations.

Local Open Scope string_scope.
Local Open Scope Z_scope.
Local Open Scope list_scope.

(** ** Python exceptions and outcomes *)

Inductive exn : Type :=
| NameError (name : string)
| TypeError (msg : string)
| IndexError
| AttributeError (attr : string)
| ValueError (msg : string)
| RuntimeError (msg : string)
| AssertionError (msg : string)
| ZeroDivisionError
| KeyError
| LinAlgError
| Exception (msg : string).

Inductive outcome (A : Type) : Type :=
| Ok (a : A)
| Raise (e : exn).
Arguments Ok {A} a.
Arguments Raise {A} e.

Definition obind {A B : Type} (m : outcome A) (k : A -> outcome B) : outcome B :=
  match m with
  | Ok a => k a
  | Raise e => Raise e
  end.

Notation "'do' x <- m ; k" := (obind m (fun x => k))
  (at level 10, x pattern, m at level 100, k at level 200).

(** A method of an object of state [S]: the outcome and the state the
    object is left in (also when the method raises). *)
Definition py (S A : Type) : Type := S -> outcome A * S.

Definition pret {S A : Type} (a : A) : py S A := fun s => (Ok a, s).
Definition praise {S A : Type} (e : exn) : py S A := fun s => (Raise e, s).
Definition pbind {S A B : Type} (m : py S A) (k : A -> py S B) : py S B :=
  fun s => match m s with
           | (Ok a, s') => k a s'
           | (Raise e, s') => (Raise e, s')
           end.
Definition pget {S : Type} : py S S := fun s => (Ok s, s).
Definition pmodify {S : Type} (f : S -> S) : py S unit := fun s => (Ok tt, f s).
Definition plift {S A : Type} (m : outcome A) : py S A := fun s => (m, s).

Notation "'run' x <- m ; k" := (pbind m (fun x => k))
  (at level 10, x pattern, m at level 100, k at level 200).
Notation "'run_' m ; k" := (pbind m (fun _ => k))
  (at level 10, m at level 100, k at level 200).

(** ** Scalars *)

Class Scalar (R : Type) : Type := {
  s_zero : R;
  s_one : R;
  s_add : R -> R -> R;
  s_sub : R -> R -> R;
  s_mul : R -> R -> R;
  s_div : R -> R -> R;
  s_lit : Q -> R;          (* a decimal literal of the source, such as 0.5 *)
  s_of_nat : nat -> R;     (* an int used where a float is expected *)
  s_eqb : R -> R -> bool;  (* == on floats *)
  s_ltb : R -> R -> bool   (* < on floats *)
}.

#[export] Instance Scalar_Q : Scalar Q := {
  s_zero := 0%Q;
  s_one := 1%Q;
  s_add := Qplus;
  s_sub := Qminus;
  s_mul := Qmult;
  s_div := Qdiv;
  s_lit := fun q => q;
  s_of_nat := fun n => inject_Z (Z.of_nat n);
  s_eqb := Qeq_bool;
  s_ltb := fun x y => negb (Qle_bool y x)
}.

(** ** Sequence indexing as Python does it *)

(** [l[i]] for a Python int [i]: a negative index counts from the end. *)
Definition py_index (n : nat) (i : Z) : outcome nat :=
  if (0 <=? i) && (i <? Z.of_nat n) then Ok (Z.to_nat i)
  else if (- Z.of_nat n <=? i) && (i <? 0) then Ok (Z.to_nat (i + Z.of_nat n))
  else Raise IndexError.

Definition py_getitem {A : Type} (l : list A) (i : Z) : outcome A :=
  do j <- py_index (length l) i;
  match l !! j with
  | Some x => Ok x
  | None => Raise IndexError
  end.

Definition py_setitem {A : Type} (l : list A) (i : Z) (x : A) : outcome (list A) :=
  do j <- py_index (length l) i;
  Ok (<[j := x]> l).

(** Fancy indexing [t[ind]] with an integer array. *)
Fixpoint gather {A : Type} (l : list A) (ind : list Z) : outcome (list A) :=
  match ind with
  | [] => Ok []
  | i :: ind' =>
      do x <- py_getitem l i;
      do xs <- gather l ind';
      Ok (x :: xs)
  end.

(** ** Tensors *)

Section Tensors.
Context {R : Type} `{Scalar R}.

(** [t.reshape((1, d))] of a flat tensor. *)
Definition reshape_row (c : list R) (d : nat) : outcome (list R) :=
  if (length c =? d)%nat then Ok c
  else Raise (RuntimeError "shape is invalid for input of this size").

(** [t.reshape(-1, d)]: the rows of width [d] of a flat tensor. *)
Fixpoint chunk (n d : nat) (l : list R) : list (list R) :=
  match n with
  | O => []
  | S n' => take d l :: chunk n' d (drop d l)
  end.

Definition reshape_rows (l : list R) (d : nat) : outcome (list (list R)) :=
  match d with
  | O => Raise (RuntimeError "cannot reshape into an unspecified number of empty rows")
  | S _ =>
      if (length l mod d =? 0)%nat then Ok (chunk (length l / d) d l)
      else Raise (RuntimeError "shape is invalid for input of this size")
  end.

(** [torch.cat((a, b))] along the rows: the widths must agree (a list
    without rows carries no width). *)
Definition torch_cat (a b : list (list R)) : outcome (list (list R)) :=
  match a, b with
  | ra :: _, rb :: _ =>
      if (length ra =? length rb)%nat then Ok (a ++ b)
      else Raise (RuntimeError "sizes of tensors must match except in dimension 0")
  | _, _ => Ok (a ++ b)
  end.

(** [t[:, k]] for a Python int [k]. *)
Fixpoint column (m : list (list R)) (k : Z) : outcome (list R) :=
  match m with
  | [] => Ok []
  | r :: m' =>
      do x <- py_getitem r k;
      do xs <- column m' k;
      Ok (x :: xs)
  end.

Definition zeros (n : nat) : list R := replicate n s_zero.

End Tensors.

(** ** The contextual data buffer *)

Record ContextualDataset (R : Type) : Type := mkContextualDataset {
  _context_dim : nat;
  _num_actions : nat;
  contexts : option (list (list R));          (* [None] until the first row *)
  scaled_contexts : option (list (list R));
  rewards : option (list (list R));
  user_ids : list Z;
  actions : list Z;
  memory_size : Z;
  intercept : bool
}.
Arguments mkContextualDataset {R}.
Arguments _context_dim {R}.
Arguments _num_actions {R}.
Arguments contexts {R}.
Arguments scaled_contexts {R}.
Arguments rewards {R}.
Arguments user_ids {R}.
Arguments actions {R}.
Arguments memory_size {R}.
Arguments intercept {R}.

(** Names of the module that the file uses without importing or defining
    them: [pd] (pandas) is looked up in [_ingest_data].  Whether the name is
    bound when the method runs is a parameter of the model. *)
Class Globals : Type := { pd_bound : bool }.

Section Dataset.
Context {R : Type} `{Scalar R}.

Definition set_contexts (v : option (list (list R))) (d : ContextualDataset R) :=
  mkContextualDataset (_context_dim d) (_num_actions d) v (scaled_contexts d)
    (rewards d) (user_ids d) (actions d) (memory_size d) (intercept d).
Definition set_scaled_contexts (v : option (list (list R))) (d : ContextualDataset R) :=
  mkContextualDataset (_context_dim d) (_num_actions d) (contexts d) v
    (rewards d) (user_ids d) (actions d) (memory_size d) (intercept d).
Definition set_rewards (v : option (list (list R))) (d : ContextualDataset R) :=
  mkContextualDataset (_context_dim d) (_num_actions d) (contexts d) (scaled_contexts d)
    v (user_ids d) (actions d) (memory_size d) (intercept d).
Definition set_user_ids (v : list Z) (d : ContextualDataset R) :=
  mkContextualDataset (_context_dim d) (_num_actions d) (contexts d) (scaled_contexts d)
    (rewards d) v (actions d) (memory_size d) (intercept d).
Definition set_actions (v : list Z) (d : ContextualDataset R) :=
  mkContextualDataset (_context_dim d) (_num_actions d) (contexts d) (scaled_contexts d)
    (rewards d) (user_ids d) v (memory_size d) (intercept d).

(** [ContextualDataset.__init__] *)
Definition ContextualDataset_init (context_dim num_actions : nat)
    (memory_size : Z) (intercept : bool) : ContextualDataset R :=
  mkContextualDataset context_dim num_actions None None None [] [] memory_size intercept.

(** [len(t)] of a tensor attribute that may still be [None]. *)
Definition py_len (t : option (list (list R))) : outcome Z :=
  match t with
  | Some m => Ok (Z.of_nat (length m))
  | None => Raise (TypeError "object of type 'NoneType' has no len()")
  end.

(** [t.shape] of a tensor attribute that may still be [None]. *)
Definition py_shape0 (t : option (list (list R))) : outcome nat :=
  match t with
  | Some m => Ok (length m)
  | None => Raise (AttributeError "shape")
  end.

Definition py_assert (b : bool) (msg : string) : outcome unit :=
  if b then Ok tt else Raise (AssertionError msg).

(** The row [r] that [add] builds: [r = zeros((1, k)); r[0, action] = reward]. *)
Definition reward_row (num_actions : nat) (action : Z) (reward : R) : outcome (list R) :=
  py_setitem (zeros num_actions) action reward.

(** [self.x = c if self.x is None else torch.cat((self.x, c))] *)
Definition append_rows (t : option (list (list R))) (c : list (list R))
    : outcome (list (list R)) :=
  match t with
  | None => Ok c
  | Some m => torch_cat m c
  end.

(** Lines 278-283: drop the oldest example. *)
Definition drop_oldest (d : ContextualDataset R) : ContextualDataset R :=
  set_user_ids (drop 1 (user_ids d))
    (set_actions (drop 1 (actions d))
       (set_rewards (drop 1 <$> rewards d)
          (set_contexts (drop 1 <$> contexts d) d))).

(** [ContextualDataset.add]; [context] is the flattened context tensor
    (lines 242-245). *)
Definition add (user_id : Z) (context : list R) (action : Z) (reward : R)
    : py (ContextualDataset R) unit :=
  run d0 <- pget;
  run c <- plift (if intercept d0
                  then reshape_row (context ++ [s_lit 1]) (_context_dim d0 + 1)
                  else reshape_row context (_context_dim d0));
  run ctxs <- plift (append_rows (contexts d0) [c]);
  run_ pmodify (set_contexts (Some ctxs));
  run r <- plift (reward_row (_num_actions d0) action reward);
  run rws <- plift (append_rows (rewards d0) [r]);
  run_ pmodify (set_rewards (Some rws));
  run_ pmodify (fun d => set_actions (actions d ++ [action]) d);
  run_ pmodify (fun d => set_user_ids (user_ids d ++ [user_id]) d);
  run d1 <- pget;
  if memory_size d1 =? -1 then pret tt
  else
    run n <- plift (py_shape0 (contexts d1));
    run_ (if Z.of_nat n >? memory_size d1 then pmodify drop_oldest else pret tt);
    run d2 <- pget;
    run lr <- plift (py_len (rewards d2));
    run_ plift (py_assert (Z.of_nat (length (actions d2)) =? lr) EmptyString);
    run lc <- plift (py_len (contexts d2));
    run_ plift (py_assert (Z.of_nat (length (actions d2)) =? lc) EmptyString);
    plift (py_assert (length (actions d2) =? length (user_ids d2))%nat EmptyString).

(** [ContextualDataset._replace_data] *)
Definition _replace_data (new_user_ids : option (list Z))
    (new_contexts : option (list (list R))) (new_actions : option (list Z))
    (new_rewards : option (list (list R))) (d : ContextualDataset R)
    : ContextualDataset R :=
  let d := match new_contexts with Some c => set_contexts (Some c) d | None => d end in
  let d := match new_actions with Some a => set_actions a d | None => d end in
  let d := match new_rewards with Some r => set_rewards (Some r) d | None => d end in
  match new_user_ids with Some u => set_user_ids u d | None => d end.
End Dataset.

(** ** External primitives *)

(** Column statistics of torch ([t.mean(dim=0)], [t.std(dim=0)]) and the
    matrix inverse of numpy ([np.linalg.inv], which raises [LinAlgError] on a
    singular matrix). *)
Class Numeric (R : Type) : Type := {
  torch_mean : list R -> R;
  torch_std : list R -> R;
  np_linalg_inv : list (list R) -> outcome (list (list R))
}.

(** The random generators, threading the generator state [G]:
    [np.random.choice(range(lo, hi), size)], [scipy.stats.invgamma.rvs(a)]
    and [np.random.multivariate_normal(mean, cov)]. *)
Class Random (G R : Type) : Type := {
  np_random_choice : G -> Z -> Z -> nat -> outcome (list Z) * G;
  invgamma_rvs : G -> list R -> list R * G;
  np_random_multivariate_normal : G -> list R -> list (list R) -> outcome (list R) * G
}.

Section DatasetQueries.
Context {R : Type} `{Scalar R} `{Numeric R} {G : Type} `{Random G R} {E : Globals}.

(** [coo_matrix((rewards, (np.arange(n), actions))).toarray()]: the shape
    is inferred from the largest index, so the result has
    [max(actions) + 1] columns. *)
Definition coo_toarray (rws : list R) (acts : list Z) : outcome (list (list R)) :=
  if negb (length rws =? length acts)%nat
  then Raise (ValueError "row, column, and data array must all be the same length")
  else match acts with
  | [] => Raise (ValueError "cannot infer dimensions from zero sized index arrays")
  | a0 :: acts' =>
      if existsb (fun a => a <? 0) acts
      then Raise (ValueError "negative column index found")
      else
        let ncols := Z.to_nat (foldr Z.max a0 acts' + 1) in
        Ok (zip_with (fun r a => <[Z.to_nat a := r]> (zeros ncols)) rws acts)
  end.

(** [ContextualDataset._ingest_data] on arrays: [new_contexts] is the
    2-d array of contexts, the others are 1-d. *)
Definition _ingest_data (new_user_ids : list Z) (new_contexts : list (list R))
    (new_actions : list Z) (new_rewards : list R) : py (ContextualDataset R) unit :=
  run_ plift (if pd_bound then Ok tt else Raise (NameError "pd"));
  run d0 <- pget;
  let data_length := length new_rewards in
  run_ (if memory_size d0 =? -1 then pret tt
        else
          run lr <- plift (py_len (rewards d0));
          if Z.of_nat data_length + lr >? memory_size d0
          then praise (Exception "Too many examples for specified memory_size.")
          else pret tt);
  run ctx <- plift (match reshape_rows (concat new_contexts) (_context_dim d0) with
                    | Ok m => Ok m
                    | Raise _ => Raise (Exception "Expected: ({}, {})")
                    end);
  run ctx <- plift (if intercept d0
                    then if (length ctx =? data_length)%nat
                         then Ok (map (fun r => r ++ [s_one]) ctx)
                         else Raise (RuntimeError "sizes of tensors must match except in dimension 1")
                    else Ok ctx);
  run_ plift (if (length ctx =? data_length)%nat && (length new_actions =? data_length)%nat
              then Ok tt else Raise (AssertionError "Data lengths inconsistent."));
  run ctxs <- plift (append_rows (contexts d0) ctx);
  run_ pmodify (set_contexts (Some ctxs));
  run rewards_array <- plift (coo_toarray new_rewards new_actions);
  run rws <- plift (append_rows (rewards d0) rewards_array);
  run_ pmodify (set_rewards (Some rws));
  run_ pmodify (fun d => set_actions (actions d ++ new_actions) d);
  pmodify (fun d => set_user_ids (user_ids d ++ new_user_ids) d).

(** [np.argwhere(np.array(self.actions) == action).reshape(-1)]: the
    positions of [action] in [acts], counted from [i]. *)
Fixpoint argwhere_from (i : nat) (acts : list Z) (action : Z) : list Z :=
  match acts with
  | [] => []
  | k :: acts' =>
      if k =? action then Z.of_nat i :: argwhere_from (S i) acts' action
      else argwhere_from (S i) acts' action
  end.

Definition argwhere_eq (acts : list Z) (action : Z) : list Z :=
  argwhere_from 0 acts action.

(** [ContextualDataset.get_data] *)
Definition get_data (action : Z) (d : ContextualDataset R)
    : outcome (list Z * list (list R) * list R) :=
  do _ <- py_shape0 (contexts d);
  let ind := argwhere_eq (actions d) action in
  do u <- gather (user_ids d) ind;
  do z <- gather (default [] (contexts d)) ind;
  do rw <- match rewards d with
           | Some m => gather m ind
           | None => Raise (TypeError "'NoneType' object is not subscriptable")
           end;
  do y <- column rw action;
  Ok (u, z, y).

(** The one-hot weights of the batch methods:
    [a_ind = tensor([(i, val) for i, val in enumerate(acts)])] and
    [weights[a_ind[:, 0], a_ind[:, 1]] = 1.0] on a zero matrix with one row
    per entry of [acts]. *)
Fixpoint one_hot_rows (num_actions : nat) (acts : list Z) : outcome (list (list R)) :=
  match acts with
  | [] => Ok []
  | a :: acts' =>
      do r <- py_setitem (zeros num_actions) a s_one;
      do rs <- one_hot_rows num_actions acts';
      Ok (r :: rs)
  end.

Definition one_hot_weights (num_actions : nat) (acts : list Z) : outcome (list (list R)) :=
  match acts with
  | [] => Raise IndexError      (* [a_ind] is 1-d when the list is empty *)
  | _ => one_hot_rows num_actions acts
  end.

(** [ContextualDataset.get_data_with_weights]: the [return] expression
    reads the name [ind], which the function never binds. *)
Definition get_data_with_weights (d : ContextualDataset R)
    : outcome (list Z * list (list R) * list (list R) * list (list R)) :=
  do n <- py_shape0 (contexts d);
  do _ <- (if forallb (fun i => (i <? n)%nat) (seq 0 (length (actions d)))
           then Ok tt else Raise IndexError);
  do weights <- one_hot_weights (_num_actions d) (actions d);
  Raise (NameError "ind").

(** Lines 416-422: the first [n_recent] drawn indices are overwritten by
    those of the newest rows. *)
Definition force_recent (n batch_size : nat) (n_recent : Z) (ind : list Z) : list Z :=
  if n_recent >? 0 then
    let n_recent := if n_recent >? Z.of_nat batch_size then Z.of_nat batch_size else n_recent in
    let n_recent := if n_recent >? Z.of_nat n then Z.of_nat n else n_recent in
    let k := Z.to_nat n_recent in
    map Z.of_nat (seq (n - k) k) ++ drop k ind
  else ind.

(** The index draw shared by the two batch methods (lines 408-414). *)
Definition draw_indices (n batch_size : nat) (d : ContextualDataset R) (g : G)
    : outcome (list Z) * G :=
  if memory_size d =? -1
  then np_random_choice g 0 (Z.of_nat n) batch_size
  else np_random_choice g (Z.max 0 (Z.of_nat n - memory_size d)) (Z.of_nat n) batch_size.

Definition subscript_rows (t : option (list (list R))) (ind : list Z)
    : outcome (list (list R)) :=
  match t with
  | Some m => gather m ind
  | None => Raise (TypeError "'NoneType' object is not subscriptable")
  end.

(** Lines 424-432, for the final index array [ind]. *)
Definition batch_of_indices (batch_size : nat) (scaled : bool) (ind : list Z)
    (d : ContextualDataset R)
    : outcome (list Z * list (list R) * list (list R) * list (list R)) :=
  do sampled_actions <- gather (actions d) ind;
  do weights <- one_hot_weights (_num_actions d) sampled_actions;
  do ctx <- subscript_rows (if scaled then scaled_contexts d else contexts d) ind;
  do u <- gather (user_ids d) ind;
  do rw <- subscript_rows (rewards d) ind;
  Ok (u, ctx, rw, weights).

(** [ContextualDataset.get_batch_with_weights_recent] *)
Definition get_batch_with_weights_recent (batch_size : nat) (n_recent : Z)
    (scaled : bool) (d : ContextualDataset R) (g : G)
    : outcome (list Z * list (list R) * list (list R) * list (list R)) * G :=
  match py_shape0 (contexts d) with
  | Raise e => (Raise e, g)
  | Ok n =>
      match draw_indices n batch_size d g with
      | (Raise e, g') => (Raise e, g')
      | (Ok ind, g') =>
          (batch_of_indices batch_size scaled (force_recent n batch_size n_recent ind) d, g')
      end
  end.

(** [ContextualDataset.get_batch_with_weights] *)
Definition get_batch_with_weights (batch_size : nat) (scaled : bool)
    (d : ContextualDataset R) (g : G)
    : outcome (list Z * list (list R) * list (list R) * list (list R)) * G :=
  match py_shape0 (contexts d) with
  | Raise e => (Raise e, g)
  | Ok n =>
      match draw_indices n batch_size d g with
      | (Raise e, g') => (Raise e, g')
      | (Ok ind, g') => (batch_of_indices batch_size scaled ind d, g')
      end
  end.
End DatasetQueries.

Section DatasetScaling.
Context {R : Type} `{Scalar R} `{Numeric R}.

(** The number of columns of the context tensor; every row that [add] and
    [_ingest_data] append has [context_dim] entries, one more with the
    intercept. *)
Definition context_width (d : ContextualDataset R) (m : list (list R)) : nat :=
  match m with
  | r :: _ => length r
  | [] => (_context_dim d + (if intercept d then 1 else 0))%nat
  end.

Definition columns (width : nat) (m : list (list R)) : list (list R) :=
  map (fun j => map (fun r => nth j r s_zero) m) (seq 0 width).

(** [t[:, col] -= means[col]; t[:, col] /= stds[col]] for every
    [col < ncols], on one row. *)
Definition scale_row (ncols : nat) (means stds : list R) (row : list R) : list R :=
  imap (fun j x =>
          if (j <? ncols)%nat
          then s_div (s_sub x (nth j means s_zero)) (nth j stds s_one)
          else x) row.

(** [ContextualDataset.scale_contexts]: the scaled copy of the stored
    contexts is kept in [scaled_contexts], and the scaled [contexts]
    argument, when given, is returned. *)
Definition scale_contexts (arg : option (list (list R)))
    : py (ContextualDataset R) (option (list (list R))) :=
  run d <- pget;
  match contexts d with
  | None => praise (AttributeError "mean")
  | Some m =>
      let width := context_width d m in
      let means := map torch_mean (columns width m) in
      let stds := map (fun c => let s := torch_std c in
                                if s_eqb s s_zero then s_one else s) (columns width m) in
      let ncols := Nat.min (_context_dim d) width in
      run_ pmodify (set_scaled_contexts (Some (map (scale_row ncols means stds) m)));
      if (width <? _context_dim d)%nat then praise IndexError
      else
        match arg with
        | None => pret None
        | Some rows =>
            if forallb (fun r => (_context_dim d <=? length r)%nat) rows
            then pret (Some (map (scale_row (_context_dim d) means stds) rows))
            else praise IndexError
        end
  end.

(** [ContextualDataset.get_contexts] *)
Definition get_contexts (scaled : bool) (d : ContextualDataset R)
    : option (list (list R)) :=
  if scaled then scaled_contexts d else contexts d.
End DatasetScaling.

(** ** Linear algebra of numpy on lists *)

Section LinearAlgebra.
Context {R : Type} `{Scalar R}.

Definition vsum (v : list R) : R := foldr s_add s_zero v.

(** [np.dot] of two 1-d arrays. *)
Definition np_dot (u v : list R) : outcome R :=
  if (length u =? length v)%nat then Ok (vsum (zip_with s_mul u v))
  else Raise (ValueError "shapes not aligned").

(** The same product where the shapes are known to agree. *)
Definition dot (u v : list R) : R := vsum (zip_with s_mul u v).

(** [m.T] of a matrix with [width] columns. *)
Definition transpose (width : nat) (m : list (list R)) : list (list R) :=
  map (fun j => map (fun r => nth j r s_zero) m) (seq 0 width).

(** [np.dot(a, b)] for 2-d [a] and [b], [b] with [width] columns. *)
Definition mat_mul (width : nat) (a b : list (list R)) : list (list R) :=
  map (fun ra => map (fun cb => dot ra cb) (transpose width b)) a.

(** [np.dot(a, v)] for 2-d [a] and 1-d [v]. *)
Definition mat_vec (a : list (list R)) (v : list R) : list R :=
  map (fun ra => dot ra v) a.

Definition np_eye (n : nat) : list (list R) :=
  map (fun i => map (fun j => if (i =? j)%nat then s_one else s_zero) (seq 0 n)) (seq 0 n).

Definition mat_scale (c : R) (m : list (list R)) : list (list R) :=
  map (map (s_mul c)) m.

Definition mat_add (a b : list (list R)) : list (list R) :=
  zip_with (zip_with s_add) a b.

Definition is_square (n : nat) (m : list (list R)) : bool :=
  (length m =? n)%nat && forallb (fun r => (length r =? n)%nat) m.

(** [(b * z).sum(axis=-1)] for 1-d [b] and [z]: the product broadcasts an
    array of length 1. *)
Definition mul_sum (b z : list R) : outcome R :=
  if (length b =? length z)%nat then Ok (vsum (zip_with s_mul b z))
  else match b, z with
       | [x], _ => Ok (vsum (map (s_mul x) z))
       | _, [y] => Ok (vsum (map (fun x => s_mul x y) b))
       | _, _ => Raise (ValueError "operands could not be broadcast together")
       end.

(** Broadcasting of numpy: two extents agree when they are equal or one
    of them is 1. *)
Definition bdim (x y : nat) : option nat :=
  if (x =? y)%nat then Some x
  else if (x =? 1)%nat then Some y
  else if (y =? 1)%nat then Some x
  else None.

Definition expand1 (n : nat) (v : list R) : list R :=
  if (length v =? n)%nat then v else replicate n (nth 0 v s_zero).

Definition shape2 (m : list (list R)) : nat * nat :=
  (length m, match m with r :: _ => length r | [] => O end).

Definition expand2 (r c : nat) (m : list (list R)) : list (list R) :=
  map (expand1 c) (if (length m =? r)%nat then m else replicate r (nth 0 m [])).

(** An elementwise operation on two 1-d arrays. *)
Definition np_binop1 (f : R -> R -> R) (u v : list R) : outcome (list R) :=
  match bdim (length u) (length v) with
  | Some n => Ok (zip_with f (expand1 n u) (expand1 n v))
  | None => Raise (ValueError "operands could not be broadcast together")
  end.

(** An elementwise operation on two 2-d arrays. *)
Definition np_binop2 (f : R -> R -> R) (x y : list (list R)) : outcome (list (list R)) :=
  match bdim (fst (shape2 x)) (fst (shape2 y)), bdim (snd (shape2 x)) (snd (shape2 y)) with
  | Some r, Some c => Ok (zip_with (zip_with f) (expand2 r c x) (expand2 r c y))
  | _, _ => Raise (ValueError "operands could not be broadcast together")
  end.

(** [np.dot(m, v)] for 2-d [m] and 1-d [v], with its shape check. *)
Definition np_mat_vec (m : list (list R)) (v : list R) : outcome (list R) :=
  if forallb (fun r => (length r =? length v)%nat) m then Ok (mat_vec m v)
  else Raise (ValueError "shapes not aligned").

(** [np.unique] of a 1-d integer array: its values, sorted, once each. *)
Fixpoint insert_unique (x : Z) (l : list Z) : list Z :=
  match l with
  | [] => [x]
  | y :: l' =>
      if x <? y then x :: l
      else if x =? y then l
      else y :: insert_unique x l'
  end.

Definition np_unique (l : list Z) : list Z := foldr insert_unique [] l.

(** [np.argmax]: the first index of the largest entry. *)
Fixpoint argmax_from (best : R) (besti i : nat) (l : list R) : nat :=
  match l with
  | [] => besti
  | x :: l' =>
      if s_ltb best x then argmax_from x i (S i) l'
      else argmax_from best besti (S i) l'
  end.

Definition np_argmax (l : list R) : outcome Z :=
  match l with
  | [] => Raise (ValueError "attempt to get argmax of an empty sequence")
  | x :: l' => Ok (Z.of_nat (argmax_from x 0 1 l'))
  end.
End LinearAlgebra.

(** ** The networks *)

(** The wide and deep torch modules, with their trainable state [N]:
    [Wide_Model.forward], the embedding that both
    [Wide_Model.forward(get_rep=True)] and [Wide_Model.get_representation]
    return, [Deep_Model.forward], the last hidden activation that
    [Deep_Model.forward(get_rep=True)] and [Deep_Model.get_representation]
    return, the two final linear layers of [Wide_and_Deep_Model], and one
    optimisation step (loss, backward pass, gradient clipping,
    [optim.step()]) under the learning rates of the optimiser's parameter
    groups. *)
Class Approximator (R N : Type) : Type := {
  Wide_Model_forward : N -> Z -> outcome (list R);
  Wide_Model_embedding : N -> Z -> outcome (list R);
  Deep_Model_forward : N -> list R -> outcome (list R);
  Deep_Model_hidden : N -> list R -> outcome (list R);
  lr_cred : N -> list R -> outcome (list R);
  lr_crep : N -> list R -> outcome (list R);
  optimizer_step :
    N -> list R -> list Z -> list (list R) -> list (list R) -> list (list R) -> N
}.

(** ** The agent *)

(** The arguments of [Wide_Deep_Bandits.__init__], which the constructor
    stores and no method reassigns. *)
Record Config (R : Type) : Type := mkConfig {
  num_actions : nat;
  num_features : nat;
  wide_embed_size : nat;
  wide_embed_dim : nat;
  deep_layer_sizes : list nat;
  wd_combine_method : string;
  update_freq_nn : Z;
  update_freq_lr : Z;
  num_epochs : nat;
  model_type : string;
  a0 : R;
  b0 : R;
  lambda_prior : R;
  initial_pulls : Z;
  initial_lr_wide : R;
  initial_lr_deep : R;
  lr_decay_rate_wide : R;
  lr_decay_rate_deep : R;
  reset_lr : bool;
  batch_size : nat;
  max_grad_norm : R;
  do_scaling : bool;
  name : string
}.
Arguments mkConfig {R}.
Arguments num_actions {R}.
Arguments num_features {R}.
Arguments wide_embed_size {R}.
Arguments wide_embed_dim {R}.
Arguments deep_layer_sizes {R}.
Arguments wd_combine_method {R}.
Arguments update_freq_nn {R}.
Arguments update_freq_lr {R}.
Arguments num_epochs {R}.
Arguments model_type {R}.
Arguments a0 {R}.
Arguments b0 {R}.
Arguments lambda_prior {R}.
Arguments initial_pulls {R}.
Arguments initial_lr_wide {R}.
Arguments initial_lr_deep {R}.
Arguments lr_decay_rate_wide {R}.
Arguments lr_decay_rate_deep {R}.
Arguments reset_lr {R}.
Arguments batch_size {R}.
Arguments max_grad_norm {R}.
Arguments do_scaling {R}.
Arguments name {R}.

(** The attributes of a [Wide_Deep_Bandits] object.  A parameter-group dict
    [{'params': ..., 'lr': ...}] is an object of the store [objects], known
    by its address; the store keeps the ['lr'] entry of each.  [param_dict],
    [initial_param_dict] and [optim_param_groups] (the list
    [self.optim.param_groups]) are lists of such addresses. *)
Record Wide_Deep_Bandits (R N : Type) : Type := mkAgent {
  config : Config R;
  latent_dim : nat;
  param_dict : list nat;
  initial_param_dict : list nat;
  optim_param_groups : list nat;
  objects : gmap nat R;
  lr_wide : R;
  lr_deep : R;
  net : N;
  t : Z;
  mu : list (list R);
  cov : list (list (list R));
  precision : list (list (list R));
  a : list R;
  b : list R;
  data_h : ContextualDataset R;
  latent_h : ContextualDataset R;
  user_dict : gmap Z Z;
  current_user_size : Z
}.
Arguments mkAgent {R N}.
Arguments config {R N}.
Arguments latent_dim {R N}.
Arguments param_dict {R N}.
Arguments initial_param_dict {R N}.
Arguments optim_param_groups {R N}.
Arguments objects {R N}.
Arguments lr_wide {R N}.
Arguments lr_deep {R N}.
Arguments net {R N}.
Arguments t {R N}.
Arguments mu {R N}.
Arguments cov {R N}.
Arguments precision {R N}.
Arguments a {R N}.
Arguments b {R N}.
Arguments data_h {R N}.
Arguments latent_h {R N}.
Arguments user_dict {R N}.
Arguments current_user_size {R N}.

Section AgentSetters.
Context {R N : Type}.
Implicit Type s : Wide_Deep_Bandits R N.

Definition set_objects (v : gmap nat R) s :=
  mkAgent (config s) (latent_dim s) (param_dict s) (initial_param_dict s)
    (optim_param_groups s) v (lr_wide s) (lr_deep s) (net s) (t s) (mu s) (cov s)
    (precision s) (a s) (b s) (data_h s) (latent_h s) (user_dict s) (current_user_size s).
Definition set_lr_wide (v : R) s :=
  mkAgent (config s) (latent_dim s) (param_dict s) (initial_param_dict s)
    (optim_param_groups s) (objects s) v (lr_deep s) (net s) (t s) (mu s) (cov s)
    (precision s) (a s) (b s) (data_h s) (latent_h s) (user_dict s) (current_user_size s).
Definition set_lr_deep (v : R) s :=
  mkAgent (config s) (latent_dim s) (param_dict s) (initial_param_dict s)
    (optim_param_groups s) (objects s) (lr_wide s) v (net s) (t s) (mu s) (cov s)
    (precision s) (a s) (b s) (data_h s) (latent_h s) (user_dict s) (current_user_size s).
Definition set_net (v : N) s :=
  mkAgent (config s) (latent_dim s) (param_dict s) (initial_param_dict s)
    (optim_param_groups s) (objects s) (lr_wide s) (lr_deep s) v (t s) (mu s) (cov s)
    (precision s) (a s) (b s) (data_h s) (latent_h s) (user_dict s) (current_user_size s).
Definition set_t (v : Z) s :=
  mkAgent (config s) (latent_dim s) (param_dict s) (initial_param_dict s)
    (optim_param_groups s) (objects s) (lr_wide s) (lr_deep s) (net s) v (mu s) (cov s)
    (precision s) (a s) (b s) (data_h s) (latent_h s) (user_dict s) (current_user_size s).
Definition set_mu (v : list (list R)) s :=
  mkAgent (config s) (latent_dim s) (param_dict s) (initial_param_dict s)
    (optim_param_groups s) (objects s) (lr_wide s) (lr_deep s) (net s) (t s) v (cov s)
    (precision s) (a s) (b s) (data_h s) (latent_h s) (user_dict s) (current_user_size s).
Definition set_cov (v : list (list (list R))) s :=
  mkAgent (config s) (latent_dim s) (param_dict s) (initial_param_dict s)
    (optim_param_groups s) (objects s) (lr_wide s) (lr_deep s) (net s) (t s) (mu s) v
    (precision s) (a s) (b s) (data_h s) (latent_h s) (user_dict s) (current_user_size s).
Definition set_precision (v : list (list (list R))) s :=
  mkAgent (config s) (latent_dim s) (param_dict s) (initial_param_dict s)
    (optim_param_groups s) (objects s) (lr_wide s) (lr_deep s) (net s) (t s) (mu s) (cov s)
    v (a s) (b s) (data_h s) (latent_h s) (user_dict s) (current_user_size s).
Definition set_a (v : list R) s :=
  mkAgent (config s) (latent_dim s) (param_dict s) (initial_param_dict s)
    (optim_param_groups s) (objects s) (lr_wide s) (lr_deep s) (net s) (t s) (mu s) (cov s)
    (precision s) v (b s) (data_h s) (latent_h s) (user_dict s) (current_user_size s).
Definition set_b (v : list R) s :=
  mkAgent (config s) (latent_dim s) (param_dict s) (initial_param_dict s)
    (optim_param_groups s) (objects s) (lr_wide s) (lr_deep s) (net s) (t s) (mu s) (cov s)
    (precision s) (a s) v (data_h s) (latent_h s) (user_dict s) (current_user_size s).
Definition set_data_h (v : ContextualDataset R) s :=
  mkAgent (config s) (latent_dim s) (param_dict s) (initial_param_dict s)
    (optim_param_groups s) (objects s) (lr_wide s) (lr_deep s) (net s) (t s) (mu s) (cov s)
    (precision s) (a s) (b s) v (latent_h s) (user_dict s) (current_user_size s).
Definition set_latent_h (v : ContextualDataset R) s :=
  mkAgent (config s) (latent_dim s) (param_dict s) (initial_param_dict s)
    (optim_param_groups s) (objects s) (lr_wide s) (lr_deep s) (net s) (t s) (mu s) (cov s)
    (precision s) (a s) (b s) (data_h s) v (user_dict s) (current_user_size s).
Definition set_user_dict (v : gmap Z Z) s :=
  mkAgent (config s) (latent_dim s) (param_dict s) (initial_param_dict s)
    (optim_param_groups s) (objects s) (lr_wide s) (lr_deep s) (net s) (t s) (mu s) (cov s)
    (precision s) (a s) (b s) (data_h s) (latent_h s) v (current_user_size s).
Definition set_current_user_size (v : Z) s :=
  mkAgent (config s) (latent_dim s) (param_dict s) (initial_param_dict s)
    (optim_param_groups s) (objects s) (lr_wide s) (lr_deep s) (net s) (t s) (mu s) (cov s)
    (precision s) (a s) (b s) (data_h s) (latent_h s) (user_dict s) v.
End AgentSetters.

(** A user id as the methods receive it, after [torch.tensor(user_id)]: a
    0-d tensor (from a bare number) or a 1-d tensor. *)
Inductive id_tensor : Type :=
| Tensor0 (v : Z)
| Tensor1 (l : list Z).

(** [user_id.tolist()[0]] *)
Definition tolist_0 (user_id : id_tensor) : outcome Z :=
  match user_id with
  | Tensor0 _ => Raise (TypeError "'int' object is not subscriptable")
  | Tensor1 [] => Raise IndexError
  | Tensor1 (v :: _) => Ok v
  end.

Definition in_list (x : string) (l : list string) : bool := existsb (String.eqb x) l.

Definition possible_models : list string := ["deep"; "wide"; "wide_deep"].
Definition possible_combine_methods : list string :=
  ["add"; "concat_reward"; "concat_reward_llr"; "concat_representation_llr"].

Fixpoint for_each {S A : Type} (l : list A) (body : A -> py S unit) : py S unit :=
  match l with
  | [] => pret tt
  | x :: l' => run_ body x; for_each l' body
  end.

Fixpoint map_outcome {A B : Type} (f : A -> outcome B) (l : list A) : outcome (list B) :=
  match l with
  | [] => Ok []
  | x :: l' =>
      do y <- f x;
      do ys <- map_outcome f l';
      Ok (y :: ys)
  end.

Section Agent.
Context {R N G : Type} `{Scalar R} `{Numeric R} `{Random G R} `{Approximator R N}
        `{Globals}.

Abbreviation Agent := (Wide_Deep_Bandits R N).

Definition on_agent {A : Type} (m : py Agent A) : py (Agent * G) A :=
  fun sg => let '(o, s') := m (fst sg) in (o, (s', snd sg)).
Definition on_data_h {A : Type} (m : py (ContextualDataset R) A) : py Agent A :=
  fun s => let '(o, d') := m (data_h s) in (o, set_data_h d' s).
Definition on_latent_h {A : Type} (m : py (ContextualDataset R) A) : py Agent A :=
  fun s => let '(o, d') := m (latent_h s) in (o, set_latent_h d' s).

(** [self.deep_layer_sizes[-1]] *)
Definition last_layer_size (cfg : Config R) : outcome nat :=
  match last (deep_layer_sizes cfg) with
  | Some n => Ok n
  | None => Raise IndexError
  end.

(** The parameter-group dicts that [__init__] creates for a model type,
    as the list of their ['lr'] entries, and the latent dimension. *)
Definition initial_groups (cfg : Config R) : outcome (list R * nat) :=
  if String.eqb (model_type cfg) "deep" then
    do n <- last_layer_size cfg;
    Ok ([initial_lr_deep cfg], n)
  else if String.eqb (model_type cfg) "wide" then
    Ok ([initial_lr_wide cfg], wide_embed_dim cfg)
  else
    do n <- last_layer_size cfg;
    Ok ([initial_lr_wide cfg; initial_lr_deep cfg; s_lit (1 # 100); s_lit (1 # 100)],
        (n + wide_embed_dim cfg)%nat).

(** [torch.optim.RMSprop(self.param_dict)]: the optimiser keeps the dicts
    it is given as its parameter groups (it completes them with its
    defaults and appends the same objects to [param_groups]). *)
Definition select_optimizer (param_dict : list nat) : list nat := param_dict.

(** [Wide_Deep_Bandits.__init__]; [net0] is the state of the freshly
    initialised networks. *)
Definition Wide_Deep_Bandits_init (cfg : Config R) (net0 : N) : outcome Agent :=
  if negb (in_list (model_type cfg) possible_models)
  then Raise (NameError "model_type must be 'deep', 'wide', or 'wide_deep'")
  else if negb (in_list (wd_combine_method cfg) possible_combine_methods)
  then Raise (NameError "wd_combine_method must be one of the combine methods")
  else
    do (lrs, latent) <- initial_groups cfg;
    let groups := seq 0 (length lrs) in
    let param_dict := groups in
    do _ <- (if s_eqb (lambda_prior cfg) s_zero then Raise ZeroDivisionError else Ok tt);
    let n := num_actions cfg in
    Ok (mkAgent cfg latent
          param_dict param_dict (select_optimizer param_dict)
          (list_to_map (zip groups lrs))
          (initial_lr_wide cfg) (initial_lr_deep cfg)
          net0
          0
          (replicate n (zeros latent))
          (replicate n (mat_scale (s_div (s_lit 1) (lambda_prior cfg)) (np_eye latent)))
          (replicate n (mat_scale (lambda_prior cfg) (np_eye latent)))
          (replicate n (a0 cfg))
          (replicate n (b0 cfg))
          (ContextualDataset_init (num_features cfg) n (-1) false)
          (ContextualDataset_init latent n (-1) false)
          {[ 0 := 0 ]}
          1).

(** One iteration of the loops of [assign_lr]:
    [self.optim.param_groups[i]['lr'] = src[i]['lr']]. *)
Definition assign_one (src : list nat) (i : nat) : py Agent unit :=
  fun s =>
    match src !! i with
    | None => (Raise IndexError, s)
    | Some p =>
        match objects s !! p with
        | None => (Raise KeyError, s)
        | Some lr =>
            match optim_param_groups s !! i with
            | None => (Raise IndexError, s)
            | Some q => (Ok tt, set_objects (<[q := lr]> (objects s)) s)
            end
        end
    end.

(** [Wide_Deep_Bandits.assign_lr] *)
Definition assign_lr (reset : bool) : py Agent unit :=
  fun s =>
    let src := if reset then initial_param_dict s else param_dict s in
    for_each (seq 0 (length src)) (assign_one src) s.

(** The learning rate of the [i]-th parameter group of the optimiser. *)
Definition optim_lr (s : Agent) (i : nat) : option R :=
  q ← optim_param_groups s !! i; objects s !! q.

(** [Wide_Deep_Bandits.lookup_one_user_idx] *)
Definition lookup_one_user_idx (user_id : id_tensor) (s : Agent) : outcome Z :=
  do user_id <- tolist_0 user_id;
  match user_dict s !! user_id with
  | None => Ok 0
  | Some user_index => Ok user_index
  end.

(** [Wide_Deep_Bandits.lookup_user_idxs] *)
Definition lookup_user_idxs (ids : list Z) (s : Agent) : outcome (list Z) :=
  map_outcome (fun u => match user_dict s !! u with
                        | Some i => Ok i
                        | None => Raise KeyError
                        end) ids.

(** [Wide_Deep_Bandits.update_user_dict] *)
Definition update_user_dict (user_id : id_tensor) : py Agent unit :=
  run user_id <- plift (tolist_0 user_id);
  run s <- pget;
  match user_dict s !! user_id with
  | Some _ => pret tt
  | None =>
      run_ pmodify (set_user_dict (<[user_id := current_user_size s]> (user_dict s)));
      pmodify (fun s' => set_current_user_size (current_user_size s' + 1) s')
  end.

(** [Wide_Deep_Bandits.get_representation] for one user index and one
    context; [Wide_and_Deep_Model.get_representation] concatenates the two
    representations. *)
Definition get_representation (user_idx : Z) (context : list R) (s : Agent)
    : outcome (list R) :=
  let cfg := config s in
  if String.eqb (model_type cfg) "deep" then Deep_Model_hidden (net s) context
  else if String.eqb (model_type cfg) "wide" then Wide_Model_embedding (net s) user_idx
  else if String.eqb (model_type cfg) "wide_deep" then
    do wide_rep <- Wide_Model_embedding (net s) user_idx;
    do deep_rep <- Deep_Model_hidden (net s) context;
    Ok (wide_rep ++ deep_rep)
  else Raise (NameError "z").

(** [Wide_and_Deep_Model.forward] for one user index and one context. *)
Definition Wide_and_Deep_Model_forward (wide_input : Z) (deep_input : list R)
    (combine_method : string) (n : N) : outcome (list R) :=
  if negb (in_list combine_method possible_combine_methods)
  then Raise (NameError "combine_method must be one of the combine methods")
  else if String.eqb combine_method "add" then
    do x_wide <- Wide_Model_forward n wide_input;
    do x_deep <- Deep_Model_forward n deep_input;
    if (length x_wide =? length x_deep)%nat then Ok (zip_with s_add x_wide x_deep)
    else Raise (RuntimeError "the sizes of the tensors must match")
  else if String.eqb combine_method "concat_reward" then
    do x_wide <- Wide_Model_forward n wide_input;
    do x_deep <- Deep_Model_forward n deep_input;
    Ok (x_wide ++ x_deep)
  else if String.eqb combine_method "concat_reward_llr" then
    do x_wide <- Wide_Model_forward n wide_input;
    do x_deep <- Deep_Model_forward n deep_input;
    lr_cred n (x_wide ++ x_deep)
  else
    do wide_rep <- Wide_Model_embedding n wide_input;
    do deep_rep <- Deep_Model_hidden n deep_input;
    lr_crep n (wide_rep ++ deep_rep).

(** [context.reshape(-1, self.context_dim)] followed by
    [self.data_h.scale_contexts(contexts=context)[0]]. *)
Definition scale_one (context : list R) : py Agent (list R) :=
  run s <- pget;
  run rows <- plift (reshape_rows context (num_features (config s)));
  run res <- on_data_h (scale_contexts (Some rows));
  match res with
  | Some (r :: _) => pret r
  | _ => praise IndexError
  end.

(** [Wide_Deep_Bandits.expected_values] *)
Definition expected_values (user_id : id_tensor) (context : list R) (scale : bool)
    (method : string) : py Agent (list R) :=
  if negb (in_list method ["BLR"; "forward"])
  then praise (NameError "method must be 'BLR',or 'forward'")
  else
    run context <- (if scale then scale_one context else pret context);
    run s <- pget;
    run user_idx <- plift (lookup_one_user_idx user_id s);
    if String.eqb method "BLR" then
      run z_context <- plift (get_representation user_idx context s);
      plift (map_outcome
               (fun i => do m <- py_getitem (mu s) (Z.of_nat i); np_dot m z_context)
               (seq 0 (num_actions (config s))))
    else
      let cfg := config s in
      if String.eqb (model_type cfg) "deep" then plift (Deep_Model_forward (net s) context)
      else if String.eqb (model_type cfg) "wide" then plift (Wide_Model_forward (net s) user_idx)
      else if String.eqb (model_type cfg) "wide_deep" then
        run vals <- plift (Wide_and_Deep_Model_forward user_idx context
                             (wd_combine_method cfg) (net s));
        if String.eqb (wd_combine_method cfg) "concat_reward"
        then praise (AttributeError "hparams")
        else pret vals
      else praise (NameError "vals").
End Agent.

Section Posterior.
Context {R N : Type} `{Scalar R} `{Numeric R}.

Abbreviation Agent := (Wide_Deep_Bandits R N).

(** The posterior of one action (lines 831-842 of [_update_actions]) from
    its latent vectors [z] and rewards [y]: [(mu_a, cov_a, precision_a,
    a_post, b_post)]. *)
Definition posterior_of (z : list (list R)) (y : list R) (s : Agent)
    : outcome (list R * list (list R) * list (list R) * R * R) :=
  let cfg := config s in
  let width := snd (shape2 z) in
  let zT := transpose width z in
  let s_ := mat_mul width zT z in
  do precision_a <- np_binop2 s_add s_ (mat_scale (lambda_prior cfg) (np_eye (latent_dim s)));
  do cov_a <- np_linalg_inv precision_a;
  do zTy <- np_mat_vec zT y;
  do mu_a <- np_mat_vec cov_a zTy;
  let a_post := s_add (a0 cfg) (s_div (s_of_nat (length z)) (s_lit 2)) in
  do yy <- np_dot y y;
  let b_upd := s_mul (s_lit (1 # 2)) yy in
  do pm <- np_mat_vec precision_a mu_a;
  do mpm <- np_dot mu_a pm;
  let b_upd := s_sub b_upd (s_mul (s_lit (1 # 2)) mpm) in
  let b_post := s_add (b0 cfg) b_upd in
  Ok (mu_a, cov_a, precision_a, a_post, b_post).

(** The body of the loop of [_update_actions] for one value [action_v]. *)
Definition update_action (action_v : Z) : py Agent unit :=
  run s <- pget;
  run data <- plift (get_data action_v (latent_h s));
  let '(_, z, y) := data in
  run post <- plift (posterior_of z y s);
  let '(mu_a, cov_a, precision_a, a_post, b_post) := post in
  run v <- plift (py_setitem (mu s) action_v mu_a);
  run_ pmodify (set_mu v);
  run v <- plift (py_setitem (cov s) action_v cov_a);
  run_ pmodify (set_cov v);
  run v <- plift (py_setitem (precision s) action_v precision_a);
  run_ pmodify (set_precision v);
  run v <- plift (py_setitem (a s) action_v a_post);
  run_ pmodify (set_a v);
  run v <- plift (py_setitem (b s) action_v b_post);
  pmodify (set_b v).

(** [Wide_Deep_Bandits._update_actions] *)
Definition _update_actions : py Agent unit :=
  fun s => for_each (np_unique (actions (latent_h s))) update_action s.
End Posterior.

Section Sampling.
Context {R N G : Type} `{Scalar R} `{Numeric R} `{Random G R} `{Approximator R N}.

Abbreviation Agent := (Wide_Deep_Bandits R N).

(** The arguments of the draw for action [i] (lines 987-994): the mean
    [self.mu[i]] and the covariance [self.cov[i]] scaled by [sigma2_s[i]]
    (the product with the [d] by [d] array [rep] filled with it). *)
Definition draw_arguments (s : Agent) (sigma2_s : list R) (d i : nat)
    : outcome (list R * list (list R)) :=
  do mus <- py_getitem (mu s) (Z.of_nat i);
  do s2s <- py_getitem sigma2_s (Z.of_nat i);
  do c <- py_getitem (cov s) (Z.of_nat i);
  do covs <- np_binop2 s_mul (replicate d (replicate d s2s)) c;
  Ok (mus, covs).

(** The loop of the [try] block (lines 983-999) over the actions [todo];
    [beta_s] is the list built so far, returned together with the outcome
    because the handler goes on with it. *)
Fixpoint sample_loop (s : Agent) (sigma2_s : list R) (d : nat) (parallelize : bool)
    (todo : list nat) (beta_s : list (list R)) (g : G)
    : outcome unit * list (list R) * G :=
  match todo with
  | [] => (Ok tt, beta_s, g)
  | i :: todo' =>
      match draw_arguments s sigma2_s d i with
      | Raise e => (Raise e, beta_s, g)
      | Ok (mus, covs) =>
          if parallelize then (Raise (NameError "parallelize_multivar"), beta_s, g)
          else
            match np_random_multivariate_normal g mus covs with
            | (Raise e, g') => (Raise e, beta_s, g')
            | (Ok x, g') => sample_loop s sigma2_s d parallelize todo' (beta_s ++ [x]) g'
            end
      end
  end.

(** The fallback loop of the handler (lines 1004-1006): one draw from the
    standard normal per action, appended to [beta_s]. *)
Fixpoint sample_fallback (d : nat) (todo : list nat) (beta_s : list (list R)) (g : G)
    : outcome (list (list R)) * G :=
  match todo with
  | [] => (Ok beta_s, g)
  | _ :: todo' =>
      match np_random_multivariate_normal g (zeros d) (np_eye d) with
      | (Raise e, g') => (Raise e, g')
      | (Ok x, g') => sample_fallback d todo' (beta_s ++ [x]) g'
      end
  end.

(** [e.message] in the handler: an exception object of Python 3 has no
    attribute [message]. *)
Definition exception_message (e : exn) : outcome string :=
  Raise (AttributeError "message").

(** The handler [except np.linalg.LinAlgError as e] (lines 1000-1006). *)
Definition sample_except (e : exn) (num_actions d : nat) (beta_s : list (list R)) (g : G)
    : outcome (list (list R)) * G :=
  match exception_message e with
  | Raise e' => (Raise e', g)
  | Ok _ => sample_fallback d (seq 0 num_actions) beta_s g
  end.

(** The weight vectors of [_sample] (lines 975-1007). *)
Definition sample_betas (parallelize : bool) (s : Agent) (g : G)
    : outcome (list (list R)) * G :=
  match mu s with
  | [] => (Raise IndexError, g)
  | mu0 :: _ =>
      let d := length mu0 in
      let '(rvs, g) := invgamma_rvs g (a s) in
      match np_binop1 s_mul (b s) rvs with
      | Raise e => (Raise e, g)
      | Ok sigma2_s =>
          let n := num_actions (config s) in
          match sample_loop s sigma2_s d parallelize (seq 0 n) [] g with
          | (Ok _, beta_s, g) => (Ok beta_s, g)
          | (Raise LinAlgError, beta_s, g) => sample_except LinAlgError n d beta_s g
          | (Raise e, _, g) => (Raise e, g)
          end
      end
  end.

(** [Wide_Deep_Bandits._sample]: one score per action (the entries of the
    [num_actions] by 1 array that the method returns). *)
Definition _sample (user_id : id_tensor) (context : list R) (parallelize : bool)
    : py (Agent * G) (list R) :=
  fun sg =>
    let '(s, g) := sg in
    match sample_betas parallelize s g with
    | (Raise e, g') => (Raise e, (s, g'))
    | (Ok beta_s, g') =>
        (do user_idx <- lookup_one_user_idx user_id s;
         do z_context <- get_representation user_idx context s;
         map_outcome (fun i => do beta <- py_getitem beta_s (Z.of_nat i);
                               mul_sum beta z_context)
                     (seq 0 (num_actions (config s))),
         (s, g'))
    end.

(** [Wide_Deep_Bandits.action] *)
Definition action (user_id : id_tensor) (context : list R) (method : string)
    : py (Agent * G) Z :=
  if negb (in_list method ["BLR_TS"; "BLR"; "forward"])
  then praise (NameError "method must be 'BLR_TS', 'BLR',or 'forward'")
  else
    run sg <- pget;
    let s := fst sg in
    let cfg := config s in
    if t s <? Z.of_nat (num_actions cfg) * initial_pulls cfg then
      if (num_actions cfg =? 0)%nat then praise ZeroDivisionError
      else pret (t s mod Z.of_nat (num_actions cfg))
    else
      run context <- (if do_scaling cfg then on_agent (scale_one context) else pret context);
      run vals <- (if String.eqb method "forward"
                   then on_agent (expected_values user_id context false "forward")
                   else if String.eqb method "BLR"
                   then on_agent (expected_values user_id context false "BLR")
                   else _sample user_id context false);
      plift (np_argmax vals).
End Sampling.

Section Training.
Context {R N G : Type} `{Scalar R} `{Numeric R} `{Random G R} `{Approximator R N}.

Abbreviation Agent := (Wide_Deep_Bandits R N).

(** [base_lr * (1 / (1 + (decay_rate * step)))] *)
Definition decayed_lr (base_lr decay_rate : R) (step : nat) : outcome R :=
  let denom := s_add s_one (s_mul decay_rate (s_of_nat step)) in
  if s_eqb denom s_zero then Raise ZeroDivisionError
  else Ok (s_mul base_lr (s_div s_one denom)).

(** [self.param_dict[i]['lr'] = v] *)
Definition set_group_lr (i : nat) (v : R) : py Agent unit :=
  fun s =>
    match param_dict s !! i with
    | None => (Raise IndexError, s)
    | Some p => (Ok tt, set_objects (<[p := v]> (objects s)) s)
    end.

(** [Wide_Deep_Bandits.do_step] *)
Definition do_step (u : list Z) (x y w : list (list R)) (step : nat) : py Agent unit :=
  run s <- pget;
  let cfg := config s in
  run v <- plift (decayed_lr (initial_lr_wide cfg) (lr_decay_rate_wide cfg) step);
  run_ pmodify (set_lr_wide v);
  run v <- plift (decayed_lr (initial_lr_deep cfg) (lr_decay_rate_deep cfg) step);
  run_ pmodify (set_lr_deep v);
  run_ (if String.eqb (model_type cfg) "deep"
        then run s <- pget; set_group_lr 0 (lr_deep s) else pret tt);
  run_ (if String.eqb (model_type cfg) "wide"
        then run s <- pget; set_group_lr 0 (lr_wide s) else pret tt);
  run_ (if String.eqb (model_type cfg) "wide_deep"
        then run s <- pget;
             run_ set_group_lr 0 (lr_wide s);
             set_group_lr 1 (lr_deep s)
        else pret tt);
  run_ assign_lr false;
  run s <- pget;
  let doubled := String.eqb (model_type cfg) "wide_deep"
                 && String.eqb (wd_combine_method cfg) "concat_reward" in
  let y := if doubled then map (fun r => r ++ r) y else y in
  let w := if doubled then map (fun r => r ++ r) w else w in
  run lrs <- plift (map_outcome (fun i => match optim_lr s i with
                                          | Some v => Ok v
                                          | None => Raise KeyError
                                          end)
                                (seq 0 (length (optim_param_groups s))));
  pmodify (set_net (optimizer_step (net s) lrs u x y w)).

(** [Wide_Deep_Bandits.train], on [self.data_h]. *)
Definition train (num_steps : nat) : py (Agent * G) unit :=
  run_ on_agent (on_data_h (scale_contexts None));
  for_each (seq 0 num_steps)
    (fun step =>
       run batch <- (fun sg =>
                       let '(o, g') :=
                         get_batch_with_weights_recent
                           (batch_size (config (fst sg)))
                           (update_freq_nn (config (fst sg))) true
                           (data_h (fst sg)) (snd sg) in
                       (o, (fst sg, g')));
       let '(u, x, y, w) := batch in
       run sg <- pget;
       run u <- plift (lookup_user_idxs u (fst sg));
       if t (fst sg) =? 1 then pret tt
       else on_agent (do_step u x y w step)).

(** [get_representation] on a batch: a tensor of user indices and the
    rows of a context tensor. *)
Definition get_representation_batch (user_idx : list Z) (ctx : list (list R))
    (s : Agent) : outcome (list (list R)) :=
  let cfg := config s in
  if String.eqb (model_type cfg) "deep"
  then map_outcome (Deep_Model_hidden (net s)) ctx
  else if String.eqb (model_type cfg) "wide"
  then map_outcome (Wide_Model_embedding (net s)) user_idx
  else if String.eqb (model_type cfg) "wide_deep" then
    do wide_rep <- map_outcome (Wide_Model_embedding (net s)) user_idx;
    do deep_rep <- map_outcome (Deep_Model_hidden (net s)) ctx;
    if (length wide_rep =? length deep_rep)%nat
    then Ok (zip_with app wide_rep deep_rep)
    else Raise (RuntimeError "sizes of tensors must match except in dimension 1")
  else Raise (NameError "z").

(** [Wide_Deep_Bandits._replace_latent_h] *)
Definition _replace_latent_h : py Agent unit :=
  run s <- pget;
  run_ (if do_scaling (config s)
        then run_ on_data_h (scale_contexts None); pret tt
        else pret tt);
  run s <- pget;
  match get_contexts (do_scaling (config s)) (data_h s) with
  | None => praise (RuntimeError "could not infer dtype of NoneType")
  | Some ctx =>
      let user_idx := user_ids (latent_h s) in
      run new_z <- plift (get_representation_batch user_idx ctx s);
      pmodify (fun s' => set_latent_h (_replace_data None (Some new_z) None None (latent_h s')) s')
  end.

(** [Wide_Deep_Bandits._retrain_nn] *)
Definition _retrain_nn : py (Agent * G) unit :=
  run sg <- pget;
  run_ (if reset_lr (config (fst sg)) then on_agent (assign_lr true) else pret tt);
  run_ train (num_epochs (config (fst sg)));
  on_agent _replace_latent_h.
End Training.

(** ** Instances that run the model

    Rational scalars, with deterministic stand-ins for the primitives of
    torch, numpy and scipy (the standard deviation, which is not rational,
    is replaced by the sum of the squared deviations).  They serve to
    evaluate the definitions on examples; the theorems hold for every
    instance. *)

Definition Q_mean (v : list Q) : Q := (vsum v / inject_Z (Z.of_nat (length v)))%Q.

(** The inverse of a 1 by 1 or 2 by 2 rational matrix. *)
Definition Q_inv (m : list (list Q)) : outcome (list (list Q)) :=
  match m with
  | [[x]] => if Qeq_bool x 0 then Raise LinAlgError else Ok [[(1 / x)%Q]]
  | [[p; q]; [r; u]] =>
      let det := (p * u - q * r)%Q in
      if Qeq_bool det 0 then Raise LinAlgError
      else Ok [[(u / det)%Q; (- q / det)%Q]; [(- r / det)%Q; (p / det)%Q]]
  | _ => Raise LinAlgError
  end.

#[export] Instance Numeric_Q : Numeric Q := {
  torch_mean := Q_mean;
  torch_std := fun v => vsum (map (fun x => ((x - Q_mean v) * (x - Q_mean v))%Q) v);
  np_linalg_inv := Q_inv
}.

(** A generator whose state counts the draws: [choice] walks through the
    population, the inverse-gamma draw is 1, and the normal draw returns its
    mean, or raises [LinAlgError] when the covariance has a negative entry on
    its diagonal. *)
#[export] Instance Random_counter : Random nat Q := {
  np_random_choice := fun g lo hi size =>
    if (hi <=? lo) && negb (size =? 0)%nat
    then (Raise (ValueError "a cannot be empty unless no samples are taken"), g)
    else (Ok (map (fun i => lo + (Z.of_nat (g + i)) mod (hi - lo)) (seq 0 size)), S g);
  invgamma_rvs := fun g shape => (map (fun _ => 1%Q) shape, S g);
  np_random_multivariate_normal := fun g mean cov =>
    if existsb (fun i => negb (Qle_bool 0 (nth i (nth i cov []) 0%Q))) (seq 0 (length cov))
    then (Raise LinAlgError, S g)
    else (Ok mean, S g)
}.

(** Networks without trainable state: the embedding of a user index is the
    index, the hidden representation of a context is the context. *)
#[export] Instance Approximator_id : Approximator Q unit := {
  Wide_Model_forward := fun _ i => Ok [inject_Z i];
  Wide_Model_embedding := fun _ i => Ok [inject_Z i];
  Deep_Model_forward := fun _ c => Ok c;
  Deep_Model_hidden := fun _ c => Ok c;
  lr_cred := fun _ v => Ok v;
  lr_crep := fun _ v => Ok v;
  optimizer_step := fun n _ _ _ _ _ => n
}.

(** The module as the file has it: [pd] is not bound. *)
Definition globals_of_file : Globals := {| pd_bound := false |}.
(** The module with pandas imported as [pd]. *)
Definition globals_with_pandas : Globals := {| pd_bound := true |}.

(** The defaults of the keyword arguments of [Wide_Deep_Bandits.__init__]. *)
Definition default_config (num_actions num_features : nat) : Config Q :=
  mkConfig num_actions num_features 100 64 [50%nat] "concat_representation_llr"
    1 1 1 "wide_deep" 6%Q 6%Q (1 # 4)%Q 100 (1 # 100)%Q (1 # 100)%Q 0%Q 0%Q
    true 512 5%Q true "wide_deep_bandits".

(** * Specification predicates *)

(** ** The buffer: [add] *)

Section AddProperties.
Context {R : Type} `{Scalar R}.

Definition rows_of (t : option (list (list R))) : nat := length (default [] t).


(** A call [add(user_id, context, action, reward)] within the documented
    domain: the context has [context_dim] entries and the action is
    between 0 and [num_actions - 1]. *)
Definition valid_add (d : ContextualDataset R) (ev : Z * list R * Z * R) : Prop :=
  let '(_, context, action, _) := ev in
  length context = _context_dim d /\ 0 <= action < Z.of_nat (_num_actions d).

Definition add_event (ev : Z * list R * Z * R) : py (ContextualDataset R) unit :=
  let '(user_id, context, action, reward) := ev in add user_id context action reward.

Fixpoint add_all (evs : list (Z * list R * Z * R)) : py (ContextualDataset R) unit :=
  match evs with
  | [] => pret tt
  | ev :: evs' => run_ add_event ev; add_all evs'
  end.

(** The state of a buffer between two calls of [add]. *)
Definition buffer_inv (d : ContextualDataset R) : Prop :=
  Forall (fun k => - Z.of_nat (_num_actions d) <= k < Z.of_nat (_num_actions d))
         (actions d)
  /\ match contexts d, rewards d with
     | None, None => actions d = [] /\ user_ids d = []
     | Some c, Some r =>
         length c = length r /\ length (actions d) = length r
         /\ length (user_ids d) = length r
         /\ Forall (fun row => length row =
                      (_context_dim d + (if intercept d then 1 else 0))%nat) c
         /\ Forall (fun row => length row = _num_actions d) r
     | _, _ => False
     end.
End AddProperties.

Section AddResult.
Context {R : Type} `{Scalar R}.

(** The buffer after the four appends of [add] (lines 258-275), for the
    context row [c] and the reward row [row]. *)
Definition appended (user_id : Z) (c : list R) (action : Z) (row : list R)
    (d : ContextualDataset R) : ContextualDataset R :=
  set_user_ids (user_ids d ++ [user_id])
    (set_actions (actions d ++ [action])
       (set_rewards (Some (default [] (rewards d) ++ [row]))
          (set_contexts (Some (default [] (contexts d) ++ [c])) d))).

(** The capacity rule of [add] (lines 278-283). *)
Definition evicted (d : ContextualDataset R) : ContextualDataset R :=
  if memory_size d =? -1 then d
  else if Z.of_nat (rows_of (contexts d)) >? memory_size d then drop_oldest d
  else d.
End AddResult.

(** A buffer of three rows and two actions, as three calls of [add] leave
    it. *)
Definition example_buffer : ContextualDataset Q :=
  mkContextualDataset 2 2
    (Some [[1%Q; 0%Q]; [0%Q; 1%Q]; [1%Q; 1%Q]]) None
    (Some [[5%Q; 0%Q]; [0%Q; 3%Q]; [2%Q; 0%Q]])
    [7; 8; 7] [0; 1; 0] (-1) false.

Section RegistrySpec.
Context {R N : Type}.
Implicit Type s : Wide_Deep_Bandits R N.

(** The registry as [__init__] leaves it (lines 664-665). *)
Definition fresh_registry s : Prop :=
  user_dict s = {[ 0 := 0 ]} /\ current_user_size s = 1.

(** The effect of registering the id [v]. *)
Definition registered (v : Z) s : Wide_Deep_Bandits R N :=
  match user_dict s !! v with
  | Some _ => s
  | None =>
      set_current_user_size (current_user_size s + 1)
        (set_user_dict (<[v := current_user_size s]> (user_dict s)) s)
  end.

(** The registry between two calls: the dummy user holds index 0, and
    the indices are the numbers below [current_user_size], each given to
    one id. *)
Definition registry_inv s : Prop :=
  user_dict s !! 0 = Some 0
  /\ current_user_size s = Z.of_nat (size (user_dict s))
  /\ (forall v i, user_dict s !! v = Some i -> 0 <= i < current_user_size s)
  /\ (forall v w i, user_dict s !! v = Some i -> user_dict s !! w = Some i -> v = w).

(** The calls [update_user_dict(torch.tensor([v]))] for the ids of a
    list, in order. *)
Definition register_all (ids : list Z) : py (Wide_Deep_Bandits R N) unit :=
  for_each (map (fun v => Tensor1 [v]) ids) update_user_dict.
End RegistrySpec.

(** A small agent: the wide model alone, two actions, one warm-up pull per
    action, learning rates 0.01 that decay with rate 1, two training steps
    per retrain. *)
Definition small_config : Config Q :=
  mkConfig 2 1 100 1 [1%nat] "concat_representation_llr"
    1 1 2 "wide" 6%Q 6%Q (1 # 4)%Q 1 (1 # 100)%Q (1 # 100)%Q 1%Q 1%Q
    true 4 5%Q false "wide_deep_bandits".

Definition small_agent : Wide_Deep_Bandits Q unit :=
  match Wide_Deep_Bandits_init small_config tt with
  | Ok s => s
  | Raise _ =>
      mkAgent small_config 0 [] [] [] ∅ 0%Q 0%Q tt 0 [] [] [] [] []
        (ContextualDataset_init 0 0 (-1) false) (ContextualDataset_init 0 0 (-1) false) ∅ 0
  end.

(** ** The closed form of the posterior *)

Section PosteriorSpec.
Context {R N : Type} `{Scalar R} `{Numeric R}.

(** The entries of [l] at the rows whose action is [action]. *)
Fixpoint rows_where {A : Type} (l : list A) (acts : list Z) (action : Z) : list A :=
  match l, acts with
  | x :: l', k :: acts' =>
      if k =? action then x :: rows_where l' acts' action
      else rows_where l' acts' action
  | _, _ => []
  end.

(** The design matrix [Z] of an action: the latent vectors of its rows. *)
Definition design (d : ContextualDataset R) (action : Z) : list (list R) :=
  rows_where (default [] (contexts d)) (actions d) action.

(** The targets [y] of an action: the rewards observed in its rows. *)
Definition targets (d : ContextualDataset R) (action : Z) : list R :=
  map (fun row => nth (Z.to_nat action) row s_zero)
      (rows_where (default [] (rewards d)) (actions d) action).

(** [Zt Z + lambda_prior I] *)
Definition closed_precision (s : Wide_Deep_Bandits R N) (action : Z) : list (list R) :=
  let z := design (latent_h s) action in
  let zT := transpose (latent_dim s) z in
  mat_add (mat_mul (latent_dim s) zT z)
          (mat_scale (lambda_prior (config s)) (np_eye (latent_dim s))).

(** [cov Zt y] for a covariance [c]. *)
Definition closed_mu (s : Wide_Deep_Bandits R N) (action : Z) (c : list (list R)) : list R :=
  mat_vec c (mat_vec (transpose (latent_dim s) (design (latent_h s) action))
                     (targets (latent_h s) action)).

(** [a0 + rows(Z) / 2] *)
Definition closed_a (s : Wide_Deep_Bandits R N) (action : Z) : R :=
  s_add (a0 (config s))
        (s_div (s_of_nat (length (design (latent_h s) action))) (s_lit 2)).

(** [b0 + (0.5 yt y - 0.5 mut precision mu)] *)
Definition closed_b (s : Wide_Deep_Bandits R N) (action : Z) (m : list R) : R :=
  let y := targets (latent_h s) action in
  s_add (b0 (config s))
        (s_sub (s_mul (s_lit (1 # 2)) (dot y y))
               (s_mul (s_lit (1 # 2)) (dot m (mat_vec (closed_precision s action) m)))).

(** The agent's posterior bank has one entry per action, and its latent
    buffer is a buffer of latent vectors of the agent's latent dimension for
    the agent's actions, all of them between 0 and [num_actions - 1]. *)
Definition posterior_wf (s : Wide_Deep_Bandits R N) : Prop :=
  let n := num_actions (config s) in
  length (mu s) = n /\ length (cov s) = n /\ length (precision s) = n
  /\ length (a s) = n /\ length (b s) = n
  /\ buffer_inv (latent_h s)
  /\ _context_dim (latent_h s) = latent_dim s
  /\ intercept (latent_h s) = false
  /\ _num_actions (latent_h s) = n
  /\ Forall (fun k => 0 <= k < Z.of_nat n) (actions (latent_h s)).

(** [np.linalg.inv] succeeds on the precision of an action, with a result
    of the shape of its argument. *)
Definition invertible_for (s : Wide_Deep_Bandits R N) (action : Z) : Prop :=
  exists c, np_linalg_inv (closed_precision s action) = Ok c
            /\ is_square (latent_dim s) c = true.
End PosteriorSpec.

Section PosteriorFields.
Context {R N : Type}.

(** The five posterior fields of the action at position [k]. *)
Definition posterior_at (s : Wide_Deep_Bandits R N) (k : nat)
    : option (list R) * option (list (list R)) * option (list (list R))
      * option R * option R :=
  (mu s !! k, cov s !! k, precision s !! k, a s !! k, b s !! k).

(** What the refresh reads: the latent buffer and the hyperparameters. *)
Definition same_inputs (s s' : Wide_Deep_Bandits R N) : Prop :=
  latent_h s' = latent_h s /\ config s' = config s /\ latent_dim s' = latent_dim s.

(** The assignments of lines 845-849 for the action at position [k]. *)
Definition stored (k : nat) (mu_a : list R) (cov_a precision_a : list (list R))
    (a_post b_post : R) (s : Wide_Deep_Bandits R N) : Wide_Deep_Bandits R N :=
  set_b (<[k := b_post]> (b s))
    (set_a (<[k := a_post]> (a s))
       (set_precision (<[k := precision_a]> (precision s))
          (set_cov (<[k := cov_a]> (cov s))
             (set_mu (<[k := mu_a]> (mu s)) s)))).
End PosteriorFields.

(** The small agent with a latent buffer of two rows, both of action 0. *)
Definition refresh_agent : Wide_Deep_Bandits Q unit :=
  set_latent_h
    (mkContextualDataset 1 2 (Some [[2%Q]; [1%Q]]) None (Some [[3%Q; 0%Q]; [1%Q; 0%Q]])
       [0; 0] [0; 0] (-1) false)
    small_agent.



Section SamplingSpec.
Context {R N G : Type} `{Scalar R} `{Random G R}.

(** [x] was drawn for action [i] from that action's own posterior: with
    mean [mu[i]] and covariance [sigma2_s[i] * cov[i]]. *)
Definition own_draw (s : Wide_Deep_Bandits R N) (sigma2_s : list R) (d i : nat)
    (x : list R) : Prop :=
  exists (g g' : G) (mus : list R) (s2s : R) (c covs : list (list R)),
    mu s !! i = Some mus /\ sigma2_s !! i = Some s2s /\ cov s !! i = Some c
    /\ np_binop2 s_mul (replicate d (replicate d s2s)) c = Ok covs
    /\ np_random_multivariate_normal g mus covs = (Ok x, g').


End SamplingSpec.

Section LearningRateSpec.
Context {R N : Type}.

(** The three lists of parameter groups name the same dict objects, all of
    them in the store. *)
Definition aliased (s : Wide_Deep_Bandits R N) : Prop :=
  param_dict s = optim_param_groups s
  /\ initial_param_dict s = optim_param_groups s
  /\ Forall (fun p => is_Some (objects s !! p)) (optim_param_groups s).
End LearningRateSpec.

(** The small agent at [t = 2], with two events in its data buffer and
    their users registered. *)
Definition trained_input : Wide_Deep_Bandits Q unit :=
  set_t 2
    (set_data_h
       (mkContextualDataset 1 2 (Some [[1%Q]; [2%Q]]) None (Some [[1%Q; 0%Q]; [0%Q; 1%Q]])
          [5; 7] [0; 1] (-1) false)
       (snd (register_all [5; 7] small_agent))).

(** A method keeps a property of the state of its object, whether it
    returns or raises. *)
Definition preserves {S A : Type} (P : S -> Prop) (m : py S A) : Prop :=
  forall st, P st -> P (snd (m st)).

(** * Further parts of the program *)

Section DatasetBatch.
Context {R : Type} `{Scalar R} {G : Type} `{Random G R}.

(** [ContextualDataset.get_batch] *)
Definition get_batch (batch_size : nat) (d : ContextualDataset R) (g : G)
    : outcome (list Z * list (list R) * list (list R) * list Z) * G :=
  match py_shape0 (contexts d) with
  | Raise e => (Raise e, g)
  | Ok n =>
      match np_random_choice g 0 (Z.of_nat n) batch_size with
      | (Raise e, g') => (Raise e, g')
      | (Ok ind, g') =>
          (do u <- gather (user_ids d) ind;
           do ctx <- subscript_rows (contexts d) ind;
           do rw <- subscript_rows (rewards d) ind;
           do acts <- gather (actions d) ind;
           Ok (u, ctx, rw, acts),
           g')
      end
  end.

(** [ContextualDataset.num_points] without a function argument. *)
Definition num_points (d : ContextualDataset R) : outcome nat := py_shape0 (contexts d).

(** [ContextualDataset.__len__] *)
Definition dataset_len (d : ContextualDataset R) : nat := length (actions d).
End DatasetBatch.

Section Update.
Context {R N G : Type} `{Scalar R} `{Numeric R} `{Random G R} `{Approximator R N}.

(** [x % m == 0] for Python ints. *)
Definition py_divides (m x : Z) : outcome bool :=
  if m =? 0 then Raise ZeroDivisionError else Ok (x mod m =? 0).

(** [context.reshape((1, self.context_dim))] followed by
    [self.data_h.scale_contexts(contexts=context)[0]] (lines 804-805). *)
Definition scale_event (context : list R) : py (Wide_Deep_Bandits R N) (list R) :=
  run s <- pget;
  run row <- plift (reshape_row context (num_features (config s)));
  run res <- on_data_h (scale_contexts (Some [row]));
  match res with
  | Some (r :: _) => pret r
  | _ => praise IndexError
  end.

(** [Wide_Deep_Bandits.update] for the user id [torch.tensor([v])]: the
    buffers keep the id [v] and the dense index that the tensors carry. *)
Definition update (v : Z) (context : list R) (action : Z) (reward : R)
    : py (Wide_Deep_Bandits R N * G) unit :=
  run_ on_agent (pmodify (fun s => set_t (t s + 1) s));
  run_ on_agent (on_data_h (add v context action reward));
  run_ on_agent (update_user_dict (Tensor1 [v]));
  run sg <- pget;
  run retrain <- plift (py_divides (update_freq_nn (config (fst sg))) (t (fst sg)));
  run_ (if retrain then train (num_epochs (config (fst sg))) else pret tt);
  run sg <- pget;
  run refresh <- plift (py_divides (update_freq_lr (config (fst sg))) (t (fst sg)));
  run_ (if refresh then on_agent _update_actions else pret tt);
  run sg <- pget;
  run context <- (if t (fst sg) >? 1 then on_agent (scale_event context) else pret context);
  run sg <- pget;
  run user_idx <- plift (lookup_one_user_idx (Tensor1 [v]) (fst sg));
  run z_context <- plift (get_representation user_idx context (fst sg));
  run_ on_agent (on_latent_h (add user_idx z_context action reward));
  run sg <- pget;
  run retrain <- plift (py_divides (update_freq_nn (config (fst sg))) (t (fst sg)));
  if retrain then on_agent _replace_latent_h else pret tt.
End Update.

Section AddSpec.
Context {R : Type} `{Scalar R}.

(** The context row that [add] stores for a context. *)
Definition stored_context (d : ContextualDataset R) (context : list R) : list R :=
  if intercept d then context ++ [s_lit 1] else context.

(** The rows that a list of [add] calls appends to the four stores. *)
Definition event_ids (evs : list (Z * list R * Z * R)) : list Z :=
  map (fun ev => fst (fst (fst ev))) evs.
Definition event_contexts (d : ContextualDataset R) (evs : list (Z * list R * Z * R))
    : list (list R) :=
  map (fun ev => stored_context d (snd (fst (fst ev)))) evs.
Definition event_actions (evs : list (Z * list R * Z * R)) : list Z :=
  map (fun ev => snd (fst ev)) evs.
Definition event_rewards (d : ContextualDataset R) (evs : list (Z * list R * Z * R))
    : list (list R) :=
  map (fun ev => <[Z.to_nat (snd (fst ev)) := snd ev]> (zeros (_num_actions d))) evs.
Definition event_reward_values (evs : list (Z * list R * Z * R)) : list R :=
  map (fun ev => snd ev) evs.
Definition event_raw_contexts (evs : list (Z * list R * Z * R)) : list (list R) :=
  map (fun ev => snd (fst (fst ev))) evs.
End AddSpec.

(** A buffer of one feature and two actions with two rows. *)
Definition example_buffer_1 : ContextualDataset Q :=
  mkContextualDataset 1 2 (Some [[1%Q]; [2%Q]]) None (Some [[1%Q; 0%Q]; [0%Q; 1%Q]])
    [5; 7] [0; 1] (-1) false.

Section IngestSpec.
Context {R : Type} `{Scalar R}.

(** The buffer after the rows of a list of events have been appended to
    its four stores. *)
Definition bulk_appended (evs : list (Z * list R * Z * R)) (d : ContextualDataset R)
    : ContextualDataset R :=
  set_user_ids (user_ids d ++ event_ids evs)
    (set_actions (actions d ++ event_actions evs)
       (set_rewards (Some (default [] (rewards d) ++ event_rewards d evs))
          (set_contexts (Some (default [] (contexts d) ++ event_contexts d evs)) d))).
End IngestSpec.

Section AgentFrames.
Context {R N : Type}.

(** The attributes of the agent other than the five lists of the
    posterior bank. *)
Definition outside_posterior (s : Wide_Deep_Bandits R N) :=
  (config s, latent_dim s, param_dict s, initial_param_dict s, optim_param_groups s,
   objects s, lr_wide s, lr_deep s, net s, t s, data_h s, latent_h s, user_dict s,
   current_user_size s).

(** The attributes of the agent other than its data buffer. *)
Definition outside_data_h (s : Wide_Deep_Bandits R N) :=
  (config s, latent_dim s, param_dict s, initial_param_dict s, optim_param_groups s,
   objects s, lr_wide s, lr_deep s, net s, t s, mu s, cov s, precision s, a s, b s,
   latent_h s, user_dict s, current_user_size s).

(** The attributes of a buffer other than the cache of scaled contexts. *)
Definition outside_scaling (d : ContextualDataset R) :=
  (_context_dim d, _num_actions d, contexts d, rewards d, user_ids d, actions d,
   memory_size d, intercept d).

(** [s'] is [s] up to the cache of scaled contexts of its data buffer. *)
Definition only_scaling (s s' : Wide_Deep_Bandits R N) : Prop :=
  outside_data_h s' = outside_data_h s
  /\ outside_scaling (data_h s') = outside_scaling (data_h s).
End AgentFrames.

(** An agent with the wide and deep model combined by ['concat_reward'],
    two actions, past its warm-up. *)
Definition concat_reward_agent : Wide_Deep_Bandits Q unit :=
  let cfg := mkConfig 2 1 100 1 [1%nat] "concat_reward"
               1 1 2 "wide_deep" 6%Q 6%Q (1 # 4)%Q 1 (1 # 100)%Q (1 # 100)%Q 1%Q 1%Q
               true 4 5%Q false "wide_deep_bandits" in
  match Wide_Deep_Bandits_init cfg tt with
  | Ok s => set_t 5 s
  | Raise _ => small_agent
  end.

Section UpdateFrames.
Context {R N : Type}.

(** The labels of the rows of a buffer, and its shape: everything but the
    context tensor and its scaled copy. *)
Definition labels (d : ContextualDataset R) :=
  (user_ids d, actions d, rewards d, memory_size d, _context_dim d, _num_actions d,
   intercept d).

(** The bookkeeping of the agent: the counter, the configuration, the
    registry and the labels of both buffers. *)
Definition ledger (s : Wide_Deep_Bandits R N) :=
  (t s, config s, user_dict s, current_user_size s, labels (data_h s), labels (latent_h s)).
End UpdateFrames.

(** * Theorems *)

Section AddTheorems.
Context {R : Type} `{Scalar R}.
Implicit Type d : ContextualDataset R.

Lemma py_index_in_range (n : nat) (i : Z) :
  0 <= i < Z.of_nat n -> py_index n i = Ok (Z.to_nat i).
Proof.
  intros Hi. unfold py_index.
  destruct (Z.leb_spec 0 i); [|lia].
  destruct (Z.ltb_spec i (Z.of_nat n)); [|lia].
  reflexivity.
Qed.

Lemma reward_row_in_range (n : nat) (k : Z) (r : R) :
  0 <= k < Z.of_nat n ->
  reward_row n k r = Ok (<[Z.to_nat k := r]> (zeros n)).
Proof.
  intros Hk. unfold reward_row, py_setitem, zeros.
  rewrite length_replicate, (py_index_in_range _ _ Hk). reflexivity.
Qed.
End AddTheorems.


Section AddRun.
Context {R : Type} `{Scalar R}.
Implicit Type d : ContextualDataset R.

Lemma torch_cat_row (m : list (list R)) (c : list R) :
  Forall (fun row => length row = length c) m -> torch_cat m [c] = Ok (m ++ [c]).
Proof.
  intros Hm. unfold torch_cat. destruct m as [|r m']; [reflexivity|].
  inversion Hm as [|? ? Hr _]; subst. rewrite Hr, Nat.eqb_refl. reflexivity.
Qed.

Lemma append_rows_row (t : option (list (list R))) (c : list R) :
  Forall (fun row => length row = length c) (default [] t) ->
  append_rows t [c] = Ok (default [] t ++ [c]).
Proof.
  destruct t as [m|]; simpl; [apply torch_cat_row | reflexivity].
Qed.

(** What the invariant says of the stores, whether or not they are still
    [None]. *)
Lemma buffer_inv_stores d :
  buffer_inv d ->
  length (default [] (contexts d)) = length (default [] (rewards d))
  /\ length (actions d) = length (default [] (rewards d))
  /\ length (user_ids d) = length (default [] (rewards d))
  /\ Forall (fun row => length row =
               (_context_dim d + (if intercept d then 1 else 0))%nat)
            (default [] (contexts d))
  /\ Forall (fun row => length row = _num_actions d) (default [] (rewards d)).
Proof.
  unfold buffer_inv. intros [_ Hinv]. revert Hinv.
  destruct (contexts d) as [c|], (rewards d) as [r|]; simpl; try tauto.
  intros [-> ->]. repeat split; constructor.
Qed.

Lemma buffer_inv_actions d :
  buffer_inv d ->
  Forall (fun k => - Z.of_nat (_num_actions d) <= k < Z.of_nat (_num_actions d))
         (actions d).
Proof. intros [Ha _]. exact Ha. Qed.

Lemma add_run d (user_id : Z) (context : list R) (action : Z) (reward : R) :
  buffer_inv d ->
  length context = _context_dim d ->
  0 <= action < Z.of_nat (_num_actions d) ->
  add user_id context action reward d =
    (Ok tt,
     evicted (appended user_id (if intercept d then context ++ [s_lit 1] else context)
                action (<[Z.to_nat action := reward]> (zeros (_num_actions d))) d)).
Proof.
  intros Hinv Hc Hk.
  destruct (buffer_inv_stores d Hinv) as (L1 & L2 & L3 & Wc & Wr).
  unfold add, pbind, pget, plift, pmodify, pret.
  destruct d as [cd na cs scs rs us acts ms ic]; simpl in *.
  assert (Hresh : (if ic then reshape_row (context ++ [s_lit 1]) (cd + 1)
                   else reshape_row context cd)
                  = Ok (if ic then context ++ [s_lit 1] else context)).
  { destruct ic; unfold reshape_row.
    - rewrite length_app, Hc. simpl. rewrite Nat.eqb_refl. reflexivity.
    - rewrite Hc, Nat.eqb_refl. reflexivity. }
  rewrite Hresh. clear Hresh.
  set (c := if ic then context ++ [s_lit 1] else context).
  assert (Hlc : length c = (cd + (if ic then 1 else 0))%nat).
  { subst c. destruct ic; [rewrite length_app; simpl|]; lia. }
  rewrite <- Hlc in Wc.
  rewrite (append_rows_row _ _ Wc). simpl.
  rewrite (reward_row_in_range _ _ _ Hk).
  set (row := <[Z.to_nat action := reward]> (zeros na)).
  assert (Hrow : Forall (fun r => length r = length row) (default [] rs)).
  { subst row. unfold zeros. rewrite length_insert, length_replicate. exact Wr. }
  rewrite (append_rows_row _ _ Hrow). simpl.
  unfold evicted, appended, rows_of. simpl.
  destruct (ms =? -1); [reflexivity|].
  destruct (Z.of_nat (length (default [] cs ++ [c])) >? ms); simpl;
    unfold py_assert;
    rewrite ?length_drop, ?length_app; simpl;
    rewrite L1, L2, L3, Z.eqb_refl, Nat.eqb_refl; reflexivity.
Qed.

Lemma Forall_drop_1 {A : Type} (P : A -> Prop) (l : list A) :
  Forall P l -> Forall P (drop 1 l).
Proof. intros Hl. destruct l; [exact Hl | inversion Hl; assumption]. Qed.

Lemma add_result_inv d (user_id : Z) (c : list R) (action : Z) (row : list R) :
  buffer_inv d ->
  length c = (_context_dim d + (if intercept d then 1 else 0))%nat ->
  length row = _num_actions d ->
  - Z.of_nat (_num_actions d) <= action < Z.of_nat (_num_actions d) ->
  buffer_inv (evicted (appended user_id c action row d)).
Proof.
  intros Hinv Hc Hrow Hact.
  destruct (buffer_inv_stores d Hinv) as (L1 & L2 & L3 & Wc & Wr).
  pose proof (buffer_inv_actions d Hinv) as Ha.
  assert (Happ : buffer_inv (appended user_id c action row d)).
  { unfold buffer_inv, appended. simpl. split.
    - apply Forall_app. split; [exact Ha | constructor; [exact Hact | constructor]].
    - rewrite !length_app, L1, L2, L3. simpl. repeat split.
      + apply Forall_app. split; [exact Wc | constructor; [exact Hc | constructor]].
      + apply Forall_app. split; [exact Wr | constructor; [exact Hrow | constructor]]. }
  unfold evicted.
  destruct (memory_size _ =? -1); [exact Happ|].
  destruct (_ >? _); [|exact Happ].
  revert Happ. generalize (appended user_id c action row d). intros d1.
  unfold buffer_inv, drop_oldest. simpl. intros [Ha1 Hst]. split.
  - apply Forall_drop_1. exact Ha1.
  - revert Hst.
    destruct (contexts d1) as [m|], (rewards d1) as [m'|]; simpl; try tauto.
    + rewrite !length_drop. intros (E1 & E2 & E3 & F1 & F2).
      rewrite E1, E2, E3. repeat split; apply Forall_drop_1; assumption.
    + intros [-> ->]. split; reflexivity.
Qed.

Lemma evicted_dims d :
  _context_dim (evicted d) = _context_dim d
  /\ _num_actions (evicted d) = _num_actions d
  /\ intercept (evicted d) = intercept d.
Proof.
  unfold evicted. destruct (_ =? _); [auto|]. destruct (_ >? _); auto.
Qed.


End AddRun.

Section AddClaim.
Context {R : Type} `{Scalar R}.
Implicit Type d : ContextualDataset R.


End AddClaim.



(** ** The buffer: bulk ingestion and the full read *)

Section IngestTheorems.
Context {R : Type} `{Scalar R}.
Implicit Type d : ContextualDataset R.

(** On a buffer that already stores rows, with [pd] bound, an ingestion
    over the capacity raises the capacity error before any store is
    written. *)
Lemma ingest_over_capacity_stored (E : Globals) d (m : list (list R))
    (us : list Z) (cs : list (list R)) (acts : list Z) (rs : list R) :
  pd_bound = true ->
  rewards d = Some m ->
  memory_size d <> -1 ->
  Z.of_nat (length rs) + Z.of_nat (length m) > memory_size d ->
  _ingest_data us cs acts rs d =
    (Raise (Exception "Too many examples for specified memory_size."), d).
Proof.
  intros Hpd Hm Hms Hover.
  unfold _ingest_data, pbind, plift, pget, praise, pret.
  rewrite Hpd, Hm. simpl.
  destruct (Z.eqb_spec (memory_size d) (-1)) as [|_]; [contradiction|].
  destruct (Z.gtb_spec (Z.of_nat (length rs) + Z.of_nat (length m)) (memory_size d));
    [reflexivity | lia].
Qed.

(** On a fresh buffer of finite capacity every ingestion fails before the
    capacity is compared: [pd] is unbound, or [len(self.rewards)] is taken
    of [None]. *)
Lemma ingest_fresh_bounded (E : Globals) (cd na : nat) (ms : Z) (ic : bool)
    (us : list Z) (cs : list (list R)) (acts : list Z) (rs : list R) :
  ms <> -1 ->
  _ingest_data us cs acts rs (ContextualDataset_init cd na ms ic) =
    (Raise (if pd_bound then TypeError "object of type 'NoneType' has no len()"
            else NameError "pd"),
     ContextualDataset_init cd na ms ic).
Proof.
  intros Hms.
  unfold _ingest_data, pbind, plift, pget, praise, pret.
  destruct pd_bound; [|reflexivity]. simpl.
  destruct (Z.eqb_spec ms (-1)) as [|_]; [contradiction | reflexivity].
Qed.

Lemma one_hot_rows_in_range (n : nat) (acts : list Z) :
  Forall (fun k => - Z.of_nat n <= k < Z.of_nat n) acts ->
  exists w, one_hot_rows n acts = Ok w.
Proof.
  induction 1 as [|k acts Hk _ [w IH]]; [exists []; reflexivity|].
  simpl. unfold py_setitem, py_index, zeros. rewrite length_replicate.
  destruct ((0 <=? k) && (k <? Z.of_nat n)) eqn:E1; simpl.
  - rewrite IH. simpl. eauto.
  - destruct ((- Z.of_nat n <=? k) && (k <? 0)) eqn:E2; simpl.
    + rewrite IH. simpl. eauto.
    + exfalso.
      destruct (Z.leb_spec 0 k), (Z.ltb_spec k (Z.of_nat n)),
        (Z.leb_spec (- Z.of_nat n) k), (Z.ltb_spec k 0);
        simpl in *; try discriminate; lia.
Qed.

(** [get_data_with_weights] returns for no buffer at all. *)
Lemma get_data_with_weights_never_returns d v : get_data_with_weights d <> Ok v.
Proof.
  unfold get_data_with_weights.
  destruct (py_shape0 (contexts d)) as [n|]; simpl; [|discriminate].
  destruct (forallb _ _); simpl; [|discriminate].
  destruct (one_hot_weights _ _); simpl; discriminate.
Qed.

(** C9.  On every buffer that stores at least one row,
    [get_data_with_weights] raises the error of the unbound name [ind];
    it never returns the tuple that it documents. *)
Theorem get_data_with_weights_unbound_ind d :
  buffer_inv d ->
  actions d <> [] ->
  get_data_with_weights d = Raise (NameError "ind").
Proof.
  intros Hinv Hne.
  pose proof (buffer_inv_actions d Hinv) as Ha.
  destruct Hinv as [_ Hst].
  unfold get_data_with_weights.
  destruct (contexts d) as [c|], (rewards d) as [r|]; simpl in *; try tauto.
  destruct Hst as (E1 & E2 & _).
  assert (Hall : forallb (fun i => (i <? length c)%nat)
                   (seq 0 (length (actions d))) = true).
  { apply forallb_forall. intros i Hi. apply in_seq in Hi.
    apply Nat.ltb_lt. lia. }
  rewrite Hall. simpl.
  destruct (one_hot_rows_in_range _ _ Ha) as [w Hw].
  unfold one_hot_weights. destruct (actions d); [congruence|].
  rewrite Hw. reflexivity.
Qed.
End IngestTheorems.

(** C9 on the buffer left by one [add]. *)
Lemma get_data_with_weights_unbound_ind_witness :
  get_data_with_weights
    (mkContextualDataset 3 2 (Some [[1%Q; 2%Q; 3%Q]]) None (Some [[5%Q; 0%Q]])
       [7] [0] (-1) false)
  = Raise (NameError "ind").
Proof.
  apply (get_data_with_weights_unbound_ind (R := Q)).
  - unfold buffer_inv. simpl. repeat split; repeat constructor; lia.
  - discriminate.
Defined.

(** C5 at a fresh buffer of capacity 1 that is asked to ingest two rows:
    whether or not [pd] is bound, the call raises an error other than the
    capacity error (and leaves the buffer as it was). *)
Theorem ingest_over_capacity_fresh_buffer (E : Globals) :
  exists e,
    _ingest_data (R := Q) [1; 2] [[0%Q]; [0%Q]] [0; 0] [1%Q; 1%Q]
      (ContextualDataset_init 1 1 1 false)
    = (Raise e, ContextualDataset_init 1 1 1 false)
    /\ e <> Exception "Too many examples for specified memory_size.".
Proof.
  rewrite (ingest_fresh_bounded (R := Q) E) by discriminate.
  eexists. split; [reflexivity|]. destruct pd_bound; discriminate.
Qed.

(** ** The buffer: the recency-biased batch *)

Section BatchTheorems.
Context {R : Type} `{Scalar R} {G : Type} `{Random G R}.
Implicit Type d : ContextualDataset R.

Lemma force_recent_indices (n s : nat) (n_recent : Z) (ind : list Z) :
  0 < n_recent ->
  force_recent n s n_recent ind =
    map Z.of_nat (seq (n - Z.to_nat (Z.min n_recent (Z.min (Z.of_nat s) (Z.of_nat n))))
                      (Z.to_nat (Z.min n_recent (Z.min (Z.of_nat s) (Z.of_nat n)))))
    ++ drop (Z.to_nat (Z.min n_recent (Z.min (Z.of_nat s) (Z.of_nat n)))) ind.
Proof.
  intros Hpos. unfold force_recent.
  destruct (Z.gtb_spec n_recent 0) as [_|]; [|lia].
  destruct (Z.gtb_spec n_recent (Z.of_nat s)) as [Hs|Hs].
  - destruct (Z.gtb_spec (Z.of_nat s) (Z.of_nat n)) as [Hn|Hn].
    + replace (Z.min n_recent (Z.min (Z.of_nat s) (Z.of_nat n))) with (Z.of_nat n) by lia.
      reflexivity.
    + replace (Z.min n_recent (Z.min (Z.of_nat s) (Z.of_nat n))) with (Z.of_nat s) by lia.
      reflexivity.
  - destruct (Z.gtb_spec n_recent (Z.of_nat n)) as [Hn|Hn].
    + replace (Z.min n_recent (Z.min (Z.of_nat s) (Z.of_nat n))) with (Z.of_nat n) by lia.
      reflexivity.
    + replace (Z.min n_recent (Z.min (Z.of_nat s) (Z.of_nat n))) with n_recent by lia.
      reflexivity.
Qed.

Lemma gather_in_range {A : Type} (l : list A) (idx : list Z) :
  Forall (fun i => 0 <= i < Z.of_nat (length l)) idx ->
  exists xs, gather l idx = Ok xs /\ length xs = length idx
             /\ forall j i, idx !! j = Some i -> xs !! j = l !! Z.to_nat i.
Proof.
  induction 1 as [|i idx Hi _ (xs & IH & Hlen & Hnth)].
  - exists []. repeat split. intros j i Hj. rewrite lookup_nil in Hj. discriminate.
  - simpl. unfold py_getitem. rewrite (py_index_in_range _ _ Hi). simpl.
    destruct (l !! Z.to_nat i) as [x|] eqn:Hx.
    + rewrite IH. simpl. exists (x :: xs). repeat split; [simpl; lia|].
      intros [|j] i' Hj; simpl in *; [injection Hj as <-; congruence | eauto].
    + apply lookup_ge_None in Hx. lia.
Qed.

Lemma one_hot_weights_in_range (n : nat) (acts : list Z) :
  acts <> [] ->
  Forall (fun k => - Z.of_nat n <= k < Z.of_nat n) acts ->
  exists w, one_hot_weights (R := R) n acts = Ok w /\ length w = length acts.
Proof.
  intros Hne Ha. unfold one_hot_weights.
  assert (Hrows : exists w, one_hot_rows (R := R) n acts = Ok w /\ length w = length acts).
  { clear Hne. induction Ha as [|k acts Hk _ (w & IH & Hlen)]; [exists []; split; reflexivity|].
    destruct (one_hot_rows_in_range n [k]) as [w1 Hw1]; [repeat constructor; lia|].
    simpl in *. destruct (py_setitem (zeros n) k s_one) as [r|]; simpl in *; [|discriminate].
    rewrite IH. simpl. exists (r :: w). split; [reflexivity | simpl; lia]. }
  destruct acts; [congruence | exact Hrows].
Qed.

(** C8.  On a buffer of [n >= 1] rows, a call of
    [get_batch_with_weights_recent] with batch size [s >= 1] and
    [n_recent > 0] returns, for every outcome [ind] of the index draw, the
    rows of an index array [idx] of length [s] whose first
    [k = min(n_recent, s, n)] entries are [n - k, ..., n - 1], the indices
    of the [k] most recently appended rows, and whose other entries are
    those of the draw. *)
Theorem recent_rows_lead_the_batch d (g g' : G) (s : nat) (n_recent : Z)
    (scaled : bool) (ind : list Z) (c : list (list R)) :
  buffer_inv d ->
  contexts d = Some c ->
  c <> [] ->
  (scaled = true -> exists sc, scaled_contexts d = Some sc /\ length sc = length c) ->
  (0 < s)%nat ->
  0 < n_recent ->
  draw_indices (length c) s d g = (Ok ind, g') ->
  length ind = s ->
  Forall (fun i => 0 <= i < Z.of_nat (length c)) ind ->
  exists idx u ctx rw sampled_actions w,
    get_batch_with_weights_recent s n_recent scaled d g = (Ok (u, ctx, rw, w), g')
    /\ length idx = s
    /\ (forall j, (j < Z.to_nat (Z.min n_recent (Z.min (Z.of_nat s) (Z.of_nat (length c)))))%nat ->
          idx !! j = Some (Z.of_nat (length c
                             - Z.to_nat (Z.min n_recent (Z.min (Z.of_nat s) (Z.of_nat (length c))))
                             + j)))
    /\ (forall j, (Z.to_nat (Z.min n_recent (Z.min (Z.of_nat s) (Z.of_nat (length c)))) <= j)%nat ->
          idx !! j = ind !! j)
    /\ gather (user_ids d) idx = Ok u
    /\ subscript_rows (if scaled then scaled_contexts d else contexts d) idx = Ok ctx
    /\ subscript_rows (rewards d) idx = Ok rw
    /\ gather (actions d) idx = Ok sampled_actions
    /\ one_hot_weights (_num_actions d) sampled_actions = Ok w.
Proof.
  intros Hinv Hc Hne Hsc Hs Hrec Hdraw Hlen Hind.
  destruct (buffer_inv_stores d Hinv) as (L1 & L2 & L3 & _ & _).
  pose proof (buffer_inv_actions d Hinv) as Hacts.
  rewrite Hc in L1. simpl in L1.
  set (n := length c) in *.
  set (k := Z.to_nat (Z.min n_recent (Z.min (Z.of_nat s) (Z.of_nat n)))).
  assert (Hn : (0 < n)%nat) by (subst n; destruct c; [congruence | simpl; lia]).
  assert (Hk : (k <= s /\ k <= n)%nat) by (subst k; lia).
  unfold get_batch_with_weights_recent. rewrite Hc. simpl. fold n. rewrite Hdraw.
  rewrite (force_recent_indices n s n_recent ind Hrec). fold k.
  set (idx := map Z.of_nat (seq (n - k) k) ++ drop k ind).
  assert (Hidx_len : length idx = s).
  { subst idx. rewrite length_app, length_map, length_seq, length_drop. lia. }
  assert (Hidx : Forall (fun i => 0 <= i < Z.of_nat n) idx).
  { subst idx. apply Forall_app. split.
    - apply Forall_forall. intros i Hi. apply list_elem_of_In, in_map_iff in Hi.
      destruct Hi as (j & <- & Hj). apply in_seq in Hj. lia.
    - apply Forall_drop. exact Hind. }
  assert (Hfirst : forall j, (j < k)%nat -> idx !! j = Some (Z.of_nat (n - k + j))).
  { intros j Hj. subst idx. rewrite lookup_app_l by (rewrite length_map, length_seq; lia).
    rewrite list_lookup_fmap, lookup_seq_lt by lia. reflexivity. }
  assert (Hrest : forall j, (k <= j)%nat -> idx !! j = ind !! j).
  { intros j Hj. subst idx.
    rewrite lookup_app_r by (rewrite length_map, length_seq; lia).
    rewrite length_map, length_seq, lookup_drop. f_equal. lia. }
  unfold batch_of_indices.
  destruct (gather_in_range (actions d) idx) as (sa & Hsa & Hsal & Hsan);
    [rewrite L2, <- L1; exact Hidx|].
  rewrite Hsa. simpl.
  assert (Hsa_range : Forall (fun a => - Z.of_nat (_num_actions d) <= a
                                       < Z.of_nat (_num_actions d)) sa).
  { apply Forall_lookup. intros j a Hj.
    destruct (idx !! j) as [i|] eqn:Hi.
    - rewrite (Hsan j i Hi) in Hj.
      eapply Forall_lookup_1 in Hacts; [exact Hacts | exact Hj].
    - apply lookup_ge_None in Hi. apply lookup_lt_Some in Hj. lia. }
  destruct (one_hot_weights_in_range (_num_actions d) sa) as (w & Hw & _);
    [destruct sa; [simpl in Hsal; lia | discriminate] | exact Hsa_range |].
  rewrite Hw. simpl.
  assert (Hctx : exists ctx, subscript_rows (if scaled then scaled_contexts d else contexts d) idx
                             = Ok ctx).
  { destruct scaled.
    - destruct (Hsc eq_refl) as (sc & -> & Hscl). simpl.
      destruct (gather_in_range sc idx) as (x & Hx & _); [rewrite Hscl; exact Hidx|].
      eauto.
    - rewrite Hc. simpl.
      destruct (gather_in_range c idx) as (x & Hx & _); [exact Hidx|]. eauto. }
  destruct Hctx as [ctx Hctx]. rewrite Hctx. simpl.
  destruct (gather_in_range (user_ids d) idx) as (u & Hu & _);
    [rewrite L3, <- L1; exact Hidx|].
  rewrite Hu. simpl.
  assert (Hrw : exists rw, subscript_rows (rewards d) idx = Ok rw).
  { destruct (rewards d) as [r|] eqn:Er; simpl in *.
    - destruct (gather_in_range r idx) as (x & Hx & _); [rewrite <- L1; exact Hidx|]. eauto.
    - lia. }
  destruct Hrw as [rw Hrw]. rewrite Hrw. simpl.
  exists idx, u, ctx, rw, sa, w.
  split; [reflexivity|]. split; [exact Hidx_len|].
  split; [exact Hfirst|]. split; [exact Hrest|].
  split; [exact Hu|]. split; [rewrite <- Hc; exact Hctx|]. split; [exact Hrw|].
  split; [exact Hsa | exact Hw].
Qed.
End BatchTheorems.

(** C8 on a buffer of three rows: a batch of four with the two newest rows
    forced, for the draw [0; 1; 2; 0]. *)
Lemma recent_rows_lead_the_batch_witness :
  exists idx u ctx rw sampled_actions w,
    get_batch_with_weights_recent 4 2 false example_buffer 0%nat = (Ok (u, ctx, rw, w), 1%nat)
    /\ length idx = 4%nat
    /\ (forall j, (j < 2)%nat -> idx !! j = Some (Z.of_nat (3 - 2 + j)))
    /\ (forall j, (2 <= j)%nat -> idx !! j = [0; 1; 2; 0] !! j)
    /\ gather (user_ids example_buffer) idx = Ok u
    /\ subscript_rows (contexts example_buffer) idx = Ok ctx
    /\ subscript_rows (rewards example_buffer) idx = Ok rw
    /\ gather (actions example_buffer) idx = Ok sampled_actions
    /\ one_hot_weights (_num_actions example_buffer) sampled_actions = Ok w.
Proof.
  apply (recent_rows_lead_the_batch (R := Q) (G := nat) example_buffer 0%nat 1%nat 4 2 false
           [0; 1; 2; 0] [[1%Q; 0%Q]; [0%Q; 1%Q]; [1%Q; 1%Q]]).
  - unfold buffer_inv. simpl. repeat split; repeat constructor; lia.
  - reflexivity.
  - discriminate.
  - discriminate.
  - lia.
  - lia.
  - reflexivity.
  - reflexivity.
  - repeat constructor; simpl; lia.
Defined.

(** ** The user registry *)

Section RegistryTheorems.
Context {R N : Type}.
Implicit Type s : Wide_Deep_Bandits R N.

Lemma update_user_dict_run s (v : Z) (rest : list Z) :
  update_user_dict (Tensor1 (v :: rest)) s = (Ok tt, registered v s).
Proof.
  unfold update_user_dict, registered, pbind, plift, pget, pmodify, pret. simpl.
  destruct (user_dict s !! v); reflexivity.
Qed.

Lemma lookup_one_user_idx_run s (v : Z) (rest : list Z) :
  lookup_one_user_idx (Tensor1 (v :: rest)) s = Ok (default 0 (user_dict s !! v)).
Proof.
  unfold lookup_one_user_idx. simpl. destruct (user_dict s !! v); reflexivity.
Qed.

Lemma fresh_registry_inv s : fresh_registry s -> registry_inv s.
Proof.
  intros [Hd Hn]. unfold registry_inv. rewrite Hd, Hn.
  split; [apply lookup_singleton_eq|].
  split; [rewrite map_size_singleton; reflexivity|].
  split.
  - intros v i Hv. apply lookup_singleton_Some in Hv. lia.
  - intros v w i Hv Hw.
    apply lookup_singleton_Some in Hv. apply lookup_singleton_Some in Hw. lia.
Qed.

Lemma registered_inv s (v : Z) : registry_inv s -> registry_inv (registered v s).
Proof.
  intros Hinv. pose proof Hinv as (H0 & Hn & Hrange & Hinj). unfold registered.
  destruct (user_dict s !! v) as [i|] eqn:Hv; [exact Hinv|].
  unfold registry_inv. simpl.
  assert (Hv0 : v <> 0) by congruence.
  split; [rewrite lookup_insert_ne by exact Hv0; exact H0|].
  split; [rewrite map_size_insert_None by exact Hv; lia|].
  split.
  - intros u i Hu. destruct (decide (v = u)) as [<-|Hne].
    + rewrite lookup_insert_eq in Hu. injection Hu as <-. lia.
    + rewrite lookup_insert_ne in Hu by exact Hne. apply Hrange in Hu. lia.
  - intros u w i Hu Hw.
    destruct (decide (v = u)) as [<-|Hu'], (decide (v = w)) as [<-|Hw'].
    + reflexivity.
    + rewrite lookup_insert_eq in Hu. injection Hu as <-.
      rewrite lookup_insert_ne in Hw by exact Hw'. apply Hrange in Hw. lia.
    + rewrite lookup_insert_eq in Hw. injection Hw as <-.
      rewrite lookup_insert_ne in Hu by exact Hu'. apply Hrange in Hu. lia.
    + rewrite lookup_insert_ne in Hu by exact Hu'.
      rewrite lookup_insert_ne in Hw by exact Hw'. eauto.
Qed.

(** Registering keeps every mapping that exists. *)
Lemma registered_keeps s (v u i : Z) :
  user_dict s !! u = Some i -> user_dict (registered v s) !! u = Some i.
Proof.
  intros Hu. unfold registered.
  destruct (user_dict s !! v) as [j|] eqn:Hv; [exact Hu|]. simpl.
  rewrite lookup_insert_ne by congruence. exact Hu.
Qed.

(** Registering maps no id other than the one registered. *)
Lemma registered_other s (v u : Z) :
  u <> v -> user_dict (registered v s) !! u = user_dict s !! u.
Proof.
  intros Hne. unfold registered.
  destruct (user_dict s !! v) as [j|] eqn:Hv; [reflexivity|]. simpl.
  apply lookup_insert_ne. congruence.
Qed.

Lemma register_all_run (ids : list Z) s :
  registry_inv s ->
  exists s', register_all ids s = (Ok tt, s')
             /\ registry_inv s'
             /\ (forall u i, user_dict s !! u = Some i -> user_dict s' !! u = Some i)
             /\ (forall u, u ∉ ids -> user_dict s' !! u = user_dict s !! u).
Proof.
  unfold register_all. revert s. induction ids as [|v ids IH]; intros s Hinv.
  - exists s. simpl. split; [reflexivity|]. split; [exact Hinv|]. split; auto.
  - simpl. unfold pbind. rewrite update_user_dict_run.
    destruct (IH (registered v s) (registered_inv s v Hinv)) as (s' & Hrun & Hinv' & Hkeep & Hout).
    exists s'. split; [exact Hrun|]. split; [exact Hinv'|]. split.
    + intros u i Hu. apply Hkeep, registered_keeps, Hu.
    + intros u Hu. rewrite Hout by (intros Hin; apply Hu; right; exact Hin).
      apply registered_other. intros ->. apply Hu. left.
Qed.
End RegistryTheorems.

Example small_agent_is_constructed : Wide_Deep_Bandits_init small_config tt = Ok small_agent.
Proof. reflexivity. Qed.

Section RegistryClaims.
Context {R N : Type}.
Implicit Type s : Wide_Deep_Bandits R N.

(** C6.  After any sequence of registrations on the registry of a new
    agent: the lookup of an id that was never registered returns 0, and no
    lookup raises; a lookup does not change the registry, and every id
    keeps its index through any later registration, so repeated lookups
    agree; registering a known id changes nothing; a new id receives
    [current_user_size], the number of ids in the registry, which no id
    holds yet; and the registry only grows. *)
Theorem registry_lookup_and_register (s0 : Wide_Deep_Bandits R N) (ids : list Z) :
  fresh_registry s0 ->
  exists s,
    register_all ids s0 = (Ok tt, s)
    /\ (forall v, v ∉ ids -> lookup_one_user_idx (Tensor1 [v]) s = Ok 0)
    /\ (forall v, exists i, lookup_one_user_idx (Tensor1 [v]) s = Ok i)
    /\ (forall w, exists s',
          update_user_dict (Tensor1 [w]) s = (Ok tt, s')
          /\ (forall v i, user_dict s !! v = Some i ->
                user_dict s' !! v = Some i
                /\ lookup_one_user_idx (Tensor1 [v]) s' = lookup_one_user_idx (Tensor1 [v]) s)
          /\ (is_Some (user_dict s !! w) -> s' = s)
          /\ (user_dict s !! w = None ->
                user_dict s' !! w = Some (Z.of_nat (size (user_dict s)))
                /\ (forall v i, user_dict s !! v = Some i ->
                      0 <= i < Z.of_nat (size (user_dict s)))
                /\ size (user_dict s') = S (size (user_dict s)))
          /\ dom (user_dict s) ⊆ dom (user_dict s')).
Proof.
  intros Hfresh.
  destruct (register_all_run ids s0 (fresh_registry_inv s0 Hfresh))
    as (s & Hrun & Hinv & Hkeep & Hout).
  exists s. split; [exact Hrun|]. split; [|split].
  - intros v Hv. rewrite lookup_one_user_idx_run, (Hout v Hv).
    destruct Hfresh as [-> _].
    destruct (decide (v = 0)) as [->|Hne].
    + rewrite lookup_singleton_eq. reflexivity.
    + rewrite lookup_singleton_ne by congruence. reflexivity.
  - intros v. rewrite lookup_one_user_idx_run. eauto.
  - intros w. exists (registered w s).
    destruct Hinv as (H0 & Hn & Hrange & Hinj).
    split; [apply update_user_dict_run|]. split; [|split; [|split]].
    + intros v i Hv. split; [apply registered_keeps; exact Hv|].
      rewrite !lookup_one_user_idx_run, (registered_keeps s w v i Hv), Hv. reflexivity.
    + intros [i Hw]. unfold registered. rewrite Hw. reflexivity.
    + intros Hw. unfold registered. rewrite Hw. simpl.
      rewrite lookup_insert_eq, Hn. split; [reflexivity|]. split.
      * intros v i Hv. rewrite <- Hn. eapply Hrange, Hv.
      * apply map_size_insert_None, Hw.
    + intros v Hv. apply elem_of_dom in Hv. destruct Hv as [i Hv].
      apply elem_of_dom. exists i. apply registered_keeps, Hv.
Qed.

Lemma register_zero_run (n : nat) s :
  user_dict s !! 0 = Some 0 ->
  for_each (replicate n (Tensor1 [0])) update_user_dict s = (Ok tt, s).
Proof.
  intros H0. induction n as [|n IH]; [reflexivity|].
  simpl. unfold pbind. rewrite update_user_dict_run.
  unfold registered. rewrite H0. exact IH.
Qed.

(** C10.  After any sequence of registrations on the registry of a new
    agent, the raw id 0 is mapped to index 0, the index that every id
    missing from the registry resolves to; registering id 0, any number of
    times, leaves the agent as it is; and no other registered id holds
    index 0. *)
Theorem user_zero_shares_unknown_slot (s0 : Wide_Deep_Bandits R N) (ids : list Z) :
  fresh_registry s0 ->
  exists s,
    register_all ids s0 = (Ok tt, s)
    /\ user_dict s !! 0 = Some 0
    /\ lookup_one_user_idx (Tensor1 [0]) s = Ok 0
    /\ (forall n, for_each (replicate n (Tensor1 [0])) update_user_dict s = (Ok tt, s))
    /\ (forall v, user_dict s !! v = None ->
          lookup_one_user_idx (Tensor1 [v]) s = lookup_one_user_idx (Tensor1 [0]) s)
    /\ (forall v i, v <> 0 -> user_dict s !! v = Some i -> i <> 0).
Proof.
  intros Hfresh.
  destruct (register_all_run ids s0 (fresh_registry_inv s0 Hfresh))
    as (s & Hrun & (H0 & Hn & Hrange & Hinj) & _ & _).
  exists s. split; [exact Hrun|]. split; [exact H0|].
  split; [rewrite lookup_one_user_idx_run, H0; reflexivity|].
  split; [intros n; apply register_zero_run, H0|]. split.
  - intros v Hv. rewrite !lookup_one_user_idx_run, Hv, H0. reflexivity.
  - intros v i Hne Hv ->. apply Hne. eapply Hinj; [exact Hv | exact H0].
Qed.
End RegistryClaims.

(** C6 on the small agent, after the ids 5, 7 and again 5. *)
Lemma registry_lookup_and_register_witness :
  exists s,
    register_all [5; 7; 5] small_agent = (Ok tt, s)
    /\ (forall v, v ∉ [5; 7; 5] -> lookup_one_user_idx (Tensor1 [v]) s = Ok 0)
    /\ (forall v, exists i, lookup_one_user_idx (Tensor1 [v]) s = Ok i)
    /\ (forall w, exists s',
          update_user_dict (Tensor1 [w]) s = (Ok tt, s')
          /\ (forall v i, user_dict s !! v = Some i ->
                user_dict s' !! v = Some i
                /\ lookup_one_user_idx (Tensor1 [v]) s' = lookup_one_user_idx (Tensor1 [v]) s)
          /\ (is_Some (user_dict s !! w) -> s' = s)
          /\ (user_dict s !! w = None ->
                user_dict s' !! w = Some (Z.of_nat (size (user_dict s)))
                /\ (forall v i, user_dict s !! v = Some i ->
                      0 <= i < Z.of_nat (size (user_dict s)))
                /\ size (user_dict s') = S (size (user_dict s)))
          /\ dom (user_dict s) ⊆ dom (user_dict s')).
Proof.
  apply (registry_lookup_and_register small_agent [5; 7; 5]).
  split; reflexivity.
Defined.

(** C10 on the small agent, after the ids 5, 0 and 7. *)
Lemma user_zero_shares_unknown_slot_witness :
  exists s,
    register_all [5; 0; 7] small_agent = (Ok tt, s)
    /\ user_dict s !! 0 = Some 0
    /\ lookup_one_user_idx (Tensor1 [0]) s = Ok 0
    /\ (forall n, for_each (replicate n (Tensor1 [0])) update_user_dict s = (Ok tt, s))
    /\ (forall v, user_dict s !! v = None ->
          lookup_one_user_idx (Tensor1 [v]) s = lookup_one_user_idx (Tensor1 [0]) s)
    /\ (forall v i, v <> 0 -> user_dict s !! v = Some i -> i <> 0).
Proof.
  apply (user_zero_shares_unknown_slot small_agent [5; 0; 7]).
  split; reflexivity.
Defined.

(** ** The posterior refresh *)

Section GetData.
Context {R : Type} `{Scalar R}.
Implicit Type d : ContextualDataset R.

Lemma py_getitem_app_head {A : Type} (pre l : list A) (x : A) :
  py_getitem (pre ++ x :: l) (Z.of_nat (length pre)) = Ok x.
Proof.
  unfold py_getitem. rewrite py_index_in_range by (rewrite length_app; simpl; lia).
  simpl. rewrite Nat2Z.id, list_lookup_middle by reflexivity. reflexivity.
Qed.

Lemma gather_argwhere {A : Type} (pre l : list A) (acts : list Z) (action : Z) :
  length l = length acts ->
  gather (pre ++ l) (argwhere_from (length pre) acts action)
  = Ok (rows_where l acts action).
Proof.
  revert pre l. induction acts as [|k acts IH]; intros pre l Hlen.
  - destruct l; [reflexivity | discriminate].
  - destruct l as [|x l]; [discriminate|]. simpl in Hlen. simpl.
    assert (Hnext : gather (pre ++ x :: l) (argwhere_from (S (length pre)) acts action)
                    = Ok (rows_where l acts action)).
    { specialize (IH (pre ++ [x]) l). rewrite length_app, <- app_assoc in IH.
      simpl in IH. rewrite Nat.add_1_r in IH. apply IH. lia. }
    destruct (k =? action); [|exact Hnext].
    simpl. rewrite py_getitem_app_head. simpl. rewrite Hnext. reflexivity.
Qed.

Lemma rows_where_Forall {A : Type} (P : A -> Prop) (l : list A) (acts : list Z) (action : Z) :
  Forall P l -> Forall P (rows_where l acts action).
Proof.
  intros Hl. revert acts. induction Hl as [|x l Hx _ IH]; intros [|k acts]; simpl;
    try constructor.
  destruct (k =? action); [constructor; [exact Hx | apply IH] | apply IH].
Qed.

Lemma rows_where_length {A B : Type} (l : list A) (l' : list B) (acts : list Z) (action : Z) :
  length l = length acts -> length l' = length acts ->
  length (rows_where l acts action) = length (rows_where l' acts action).
Proof.
  revert l l'. induction acts as [|k acts IH]; intros [|x l] [|x' l'] Hl Hl';
    try discriminate; [reflexivity|].
  simpl in *. destruct (k =? action); simpl; [f_equal|]; apply IH; lia.
Qed.

Lemma rows_where_nonempty {A : Type} (l : list A) (acts : list Z) (action : Z) :
  length l = length acts -> action ∈ acts -> rows_where l acts action <> [].
Proof.
  revert l. induction acts as [|k acts IH]; intros [|x l] Hl Hin; try discriminate.
  - apply elem_of_nil in Hin. contradiction.
  - simpl. destruct (Z.eqb_spec k action) as [->|Hne]; [discriminate|].
    apply IH; [simpl in Hl; lia|].
    apply elem_of_cons in Hin. destruct Hin as [->|Hin]; [contradiction | exact Hin].
Qed.

Lemma rows_where_absent {A : Type} (l : list A) (acts : list Z) (action : Z) :
  action ∉ acts -> rows_where l acts action = [].
Proof.
  revert l. induction acts as [|k acts IH]; intros [|x l] Hin; try reflexivity.
  simpl. destruct (Z.eqb_spec k action) as [->|Hne].
  - exfalso. apply Hin. left.
  - apply IH. intros Hin'. apply Hin. right. exact Hin'.
Qed.

Lemma column_in_range (m : list (list R)) (n : nat) (k : Z) :
  Forall (fun row => length row = n) m ->
  0 <= k < Z.of_nat n ->
  column m k = Ok (map (fun row => nth (Z.to_nat k) row s_zero) m).
Proof.
  intros Hm Hk. induction Hm as [|row m Hrow _ IH]; [reflexivity|].
  simpl. unfold py_getitem. rewrite Hrow, (py_index_in_range _ _ Hk). simpl.
  destruct (row !! Z.to_nat k) as [x|] eqn:Hx.
  - rewrite IH. simpl. f_equal. f_equal.
    symmetry. apply nth_lookup_Some with (d := s_zero) in Hx. exact Hx.
  - apply lookup_ge_None in Hx. lia.
Qed.

(** [get_data] returns the design matrix and the targets of the action. *)
Lemma get_data_run d (action : Z) :
  buffer_inv d ->
  0 <= action < Z.of_nat (_num_actions d) ->
  action ∈ actions d ->
  get_data action d =
    Ok (rows_where (user_ids d) (actions d) action, design d action, targets d action).
Proof.
  intros Hinv Hk Hin.
  destruct (buffer_inv_stores d Hinv) as (L1 & L2 & L3 & Wc & Wr).
  destruct Hinv as [_ Hst].
  unfold get_data, design, targets, argwhere_eq.
  destruct (contexts d) as [c|], (rewards d) as [r|]; simpl in *; try tauto.
  - rewrite (gather_argwhere [] (user_ids d)) by lia. simpl.
    rewrite (gather_argwhere [] c) by lia. simpl.
    rewrite (gather_argwhere [] r) by lia. simpl.
    rewrite (column_in_range _ (_num_actions d)); [reflexivity | | exact Hk].
    apply rows_where_Forall. exact Wr.
  - destruct Hst as [Hnil _]. rewrite Hnil in Hin. apply elem_of_nil in Hin. contradiction.
Qed.
End GetData.

Section PosteriorRun.
Context {R N : Type} `{Scalar R} `{Numeric R}.
Implicit Type s : Wide_Deep_Bandits R N.

Lemma expand1_same (n : nat) (v : list R) : length v = n -> expand1 n v = v.
Proof. intros Hv. unfold expand1. rewrite Hv, Nat.eqb_refl. reflexivity. Qed.

Lemma bdim_same (n : nat) : bdim n n = Some n.
Proof. unfold bdim. rewrite Nat.eqb_refl. reflexivity. Qed.

Lemma map_expand1_same (c : nat) (m : list (list R)) :
  Forall (fun row => length row = c) m -> map (expand1 c) m = m.
Proof.
  induction 1 as [|row m Hrow _ IH]; [reflexivity|].
  simpl. rewrite (expand1_same _ _ Hrow), IH. reflexivity.
Qed.

(** Without broadcasting, an elementwise operation is the pointwise one. *)
Lemma np_binop2_same_shape (f : R -> R -> R) (x y : list (list R)) (r c : nat) :
  length x = r -> Forall (fun row => length row = c) x ->
  length y = r -> Forall (fun row => length row = c) y ->
  np_binop2 f x y = Ok (zip_with (zip_with f) x y).
Proof.
  intros Hx Wx Hy Wy.
  destruct x as [|rx x], y as [|ry y]; simpl in *; try congruence; [reflexivity|].
  assert (Hrx : length rx = c) by (inversion Wx; assumption).
  assert (Hry : length ry = c) by (inversion Wy; assumption).
  assert (Hxy : length x = length y) by lia.
  unfold np_binop2, shape2, expand2. cbn [fst snd length].
  rewrite Hxy, Hrx, Hry, !bdim_same, Nat.eqb_refl.
  rewrite (map_expand1_same c (rx :: x) Wx), (map_expand1_same c (ry :: y) Wy).
  reflexivity.
Qed.

Lemma np_mat_vec_aligned (m : list (list R)) (v : list R) :
  Forall (fun row => length row = length v) m -> np_mat_vec m v = Ok (mat_vec m v).
Proof.
  intros Hm. unfold np_mat_vec.
  assert (Hall : forallb (fun r => (length r =? length v)%nat) m = true).
  { apply forallb_forall. intros r Hr. apply Nat.eqb_eq.
    eapply Forall_forall in Hm; [exact Hm|]. apply list_elem_of_In. exact Hr. }
  rewrite Hall. reflexivity.
Qed.

Lemma np_dot_aligned (u v : list R) : length u = length v -> np_dot u v = Ok (dot u v).
Proof. intros Huv. unfold np_dot. rewrite Huv, Nat.eqb_refl. reflexivity. Qed.

Lemma transpose_shape (width : nat) (m : list (list R)) :
  length (transpose width m) = width
  /\ Forall (fun row => length row = length m) (transpose width m).
Proof.
  unfold transpose. split; [rewrite length_map, length_seq; reflexivity|].
  apply Forall_forall. intros row Hrow. apply list_elem_of_In, in_map_iff in Hrow.
  destruct Hrow as (j & <- & _). apply length_map.
Qed.

Lemma is_square_shape (n : nat) (m : list (list R)) :
  is_square n m = true -> length m = n /\ Forall (fun row => length row = n) m.
Proof.
  unfold is_square. intros Hm. apply andb_true_iff in Hm. destruct Hm as [Hl Hr].
  apply Nat.eqb_eq in Hl. split; [exact Hl|].
  apply Forall_forall. intros row Hrow. apply Nat.eqb_eq.
  eapply forallb_forall in Hr; [exact Hr|]. apply list_elem_of_In. exact Hrow.
Qed.

(** Lines 831-842 compute the closed form. *)
Lemma posterior_of_run s (action : Z) (c : list (list R)) :
  posterior_wf s ->
  action ∈ actions (latent_h s) ->
  np_linalg_inv (closed_precision s action) = Ok c ->
  is_square (latent_dim s) c = true ->
  posterior_of (design (latent_h s) action) (targets (latent_h s) action) s
  = Ok (closed_mu s action c, c, closed_precision s action, closed_a s action,
        closed_b s action (closed_mu s action c)).
Proof.
  intros (_ & _ & _ & _ & _ & Hinv & Hdim & Hic & Hna & Hacts) Hin Hc Hsq.
  destruct (buffer_inv_stores _ Hinv) as (L1 & L2 & L3 & Wc & Wr).
  rewrite Hdim, Hic, Nat.add_0_r in Wc.
  set (z := design (latent_h s) action).
  set (y := targets (latent_h s) action).
  set (dim := latent_dim s) in *.
  assert (Wz : Forall (fun row => length row = dim) z)
    by (apply rows_where_Forall; exact Wc).
  assert (Hz : z <> []) by (apply rows_where_nonempty; [lia | exact Hin]).
  assert (Hy : length y = length z).
  { subst y z. unfold targets, design. rewrite length_map.
    apply rows_where_length; lia. }
  assert (Hwidth : snd (shape2 z) = dim).
  { destruct z as [|r0 z']; [congruence|]. simpl. inversion Wz; assumption. }
  unfold posterior_of. fold z y. rewrite Hwidth. fold dim.
  destruct (transpose_shape dim z) as [TL TW].
  assert (Hprec : np_binop2 s_add (mat_mul dim (transpose dim z) z)
                    (mat_scale (lambda_prior (config s)) (np_eye dim))
                  = Ok (closed_precision s action)).
  { apply (np_binop2_same_shape _ _ _ dim dim).
    - unfold mat_mul. rewrite length_map. exact TL.
    - unfold mat_mul. apply Forall_forall. intros row Hrow.
      apply list_elem_of_In, in_map_iff in Hrow. destruct Hrow as (ra & <- & _).
      rewrite length_map. apply transpose_shape.
    - unfold mat_scale, np_eye. rewrite !length_map, length_seq. reflexivity.
    - unfold mat_scale, np_eye. apply Forall_forall. intros row Hrow.
      apply list_elem_of_In, in_map_iff in Hrow. destruct Hrow as (r1 & <- & Hr1).
      apply in_map_iff in Hr1. destruct Hr1 as (i & <- & _).
      rewrite !length_map, length_seq. reflexivity. }
  rewrite Hprec. simpl. rewrite Hc. simpl.
  rewrite np_mat_vec_aligned by (rewrite Hy; exact TW). simpl.
  destruct (is_square_shape _ _ Hsq) as [CL CW].
  rewrite np_mat_vec_aligned
    by (unfold mat_vec; rewrite length_map, TL; exact CW).
  simpl. rewrite np_dot_aligned by reflexivity. simpl.
  change (mat_vec c (mat_vec (transpose dim z) y)) with (closed_mu s action c).
  assert (Hmu : length (closed_mu s action c) = dim)
    by (unfold closed_mu, mat_vec; rewrite length_map; exact CL).
  assert (PL : length (closed_precision s action) = dim).
  { unfold closed_precision, mat_add, mat_mul, mat_scale, np_eye, transpose.
    rewrite length_zip_with, !length_map, !length_seq. fold dim. lia. }
  assert (PW : Forall (fun row => length row = dim) (closed_precision s action)).
  { unfold closed_precision, mat_add. fold z dim.
    apply Forall_lookup. intros i row Hrow.
    apply lookup_zip_with_Some in Hrow. destruct Hrow as (r1 & r2 & -> & Hr1 & Hr2).
    rewrite length_zip_with.
    assert (length r1 = dim).
    { unfold mat_mul in Hr1. apply list_lookup_fmap_Some in Hr1.
      destruct Hr1 as (ra & -> & _). rewrite length_map. apply transpose_shape. }
    assert (length r2 = dim).
    { unfold mat_scale, np_eye in Hr2. apply list_lookup_fmap_Some in Hr2.
      destruct Hr2 as (r3 & -> & Hr3). apply list_lookup_fmap_Some in Hr3.
      destruct Hr3 as (j & -> & _). rewrite !length_map, length_seq. reflexivity. }
    lia. }
  rewrite np_mat_vec_aligned by (rewrite Hmu; exact PW). simpl.
  assert (Hpm : length (closed_mu s action c)
                = length (mat_vec (closed_precision s action) (closed_mu s action c)))
    by (unfold mat_vec at 1; rewrite length_map, PL; exact Hmu).
  rewrite (np_dot_aligned _ _ Hpm).
  simpl. reflexivity.
Qed.
End PosteriorRun.

Section RefreshLoop.
Context {R N : Type} `{Scalar R} `{Numeric R}.
Implicit Type s : Wide_Deep_Bandits R N.

Lemma insert_unique_elem (x y : Z) (l : list Z) :
  y ∈ insert_unique x l <-> y = x \/ y ∈ l.
Proof.
  induction l as [|z l IH]; simpl.
  - rewrite list_elem_of_singleton, elem_of_nil. tauto.
  - destruct (Z.ltb_spec x z).
    + rewrite elem_of_cons. tauto.
    + destruct (Z.eqb_spec x z) as [->|Hne].
      * rewrite elem_of_cons. tauto.
      * rewrite !elem_of_cons, IH. tauto.
Qed.

Lemma np_unique_elem (y : Z) (l : list Z) : y ∈ np_unique l <-> y ∈ l.
Proof.
  unfold np_unique. induction l as [|x l IH]; simpl; [tauto|].
  rewrite insert_unique_elem, IH, elem_of_cons. tauto.
Qed.

Lemma closed_same_inputs s s' (k : Z) :
  same_inputs s s' ->
  closed_precision s' k = closed_precision s k
  /\ (forall c, closed_mu s' k c = closed_mu s k c)
  /\ closed_a s' k = closed_a s k
  /\ (forall m, closed_b s' k m = closed_b s k m).
Proof.
  intros (Hl & Hc & Hd).
  unfold closed_precision, closed_mu, closed_a, closed_b, closed_precision.
  rewrite Hl, Hc, Hd. repeat split.
Qed.

(** One iteration of the loop of [_update_actions]. *)
Lemma update_action_run s (action : Z) (c : list (list R)) :
  posterior_wf s ->
  action ∈ actions (latent_h s) ->
  np_linalg_inv (closed_precision s action) = Ok c ->
  is_square (latent_dim s) c = true ->
  update_action action s =
    (Ok tt, stored (Z.to_nat action) (closed_mu s action c) c (closed_precision s action)
              (closed_a s action) (closed_b s action (closed_mu s action c)) s).
Proof.
  intros Hwf Hin Hc Hsq.
  pose proof Hwf as (Lm & Lc & Lp & La & Lb & Hinv & Hdim & Hic & Hna & Hacts).
  assert (Hk : 0 <= action < Z.of_nat (num_actions (config s))).
  { eapply Forall_forall in Hacts; [exact Hacts | exact Hin]. }
  unfold update_action, pbind, pget, plift, pmodify.
  rewrite get_data_run by (try rewrite Hna; assumption).
  rewrite (posterior_of_run s action c Hwf Hin Hc Hsq).
  unfold py_setitem.
  rewrite Lm, Lc, Lp, La, Lb, (py_index_in_range _ _ Hk). reflexivity.
Qed.

Lemma stored_wf s (k : nat) mu_a cov_a precision_a a_post b_post :
  posterior_wf s -> posterior_wf (stored k mu_a cov_a precision_a a_post b_post s).
Proof.
  intros (Lm & Lc & Lp & La & Lb & Hrest). unfold posterior_wf, stored. simpl.
  rewrite !length_insert. repeat split; try assumption; apply Hrest.
Qed.

Lemma stored_same_inputs s (k : nat) mu_a cov_a precision_a a_post b_post :
  same_inputs s (stored k mu_a cov_a precision_a a_post b_post s).
Proof. repeat split. Qed.

Lemma stored_other s (k j : nat) mu_a cov_a precision_a a_post b_post :
  j <> k ->
  posterior_at (stored k mu_a cov_a precision_a a_post b_post s) j = posterior_at s j.
Proof.
  intros Hne. unfold posterior_at, stored. simpl.
  rewrite !list_lookup_insert_ne by congruence. reflexivity.
Qed.

Lemma stored_here s (k : nat) mu_a cov_a precision_a a_post b_post :
  posterior_wf s -> (k < num_actions (config s))%nat ->
  posterior_at (stored k mu_a cov_a precision_a a_post b_post s) k
  = (Some mu_a, Some cov_a, Some precision_a, Some a_post, Some b_post).
Proof.
  intros (Lm & Lc & Lp & La & Lb & _) Hk. unfold posterior_at, stored. simpl.
  rewrite !list_lookup_insert_eq by lia. reflexivity.
Qed.

(** The loop over a list of actions that are present in the buffer. *)
Lemma refresh_loop s (todo : list Z) :
  Forall (fun k => k ∈ actions (latent_h s) /\ invertible_for s k) todo ->
  forall s1, same_inputs s s1 -> posterior_wf s1 ->
  exists s',
    for_each todo update_action s1 = (Ok tt, s')
    /\ same_inputs s s' /\ posterior_wf s'
    /\ forall k : nat, (k < num_actions (config s))%nat ->
         (Z.of_nat k ∈ todo ->
            exists c, np_linalg_inv (closed_precision s (Z.of_nat k)) = Ok c
              /\ posterior_at s' k =
                   (Some (closed_mu s (Z.of_nat k) c), Some c,
                    Some (closed_precision s (Z.of_nat k)),
                    Some (closed_a s (Z.of_nat k)),
                    Some (closed_b s (Z.of_nat k) (closed_mu s (Z.of_nat k) c))))
         /\ (Z.of_nat k ∉ todo -> posterior_at s' k = posterior_at s1 k).
Proof.
  induction 1 as [|k0 todo [Hin (c0 & Hc0 & Hsq0)] _ IH]; intros s1 Hsame Hwf.
  - exists s1. split; [reflexivity|]. split; [exact Hsame|]. split; [exact Hwf|].
    intros k Hk. split; [intros Hk'; apply elem_of_nil in Hk'; contradiction | reflexivity].
  - pose proof Hsame as (Hl & Hcfg & Hd).
    destruct (closed_same_inputs s s1 k0 Hsame) as (E1 & E2 & E3 & E4).
    assert (Hin1 : k0 ∈ actions (latent_h s1)) by (rewrite Hl; exact Hin).
    assert (Hc1 : np_linalg_inv (closed_precision s1 k0) = Ok c0) by (rewrite E1; exact Hc0).
    assert (Hsq1 : is_square (latent_dim s1) c0 = true) by (rewrite Hd; exact Hsq0).
    simpl. unfold pbind. rewrite (update_action_run s1 k0 c0 Hwf Hin1 Hc1 Hsq1).
    rewrite E1, E2, E3, E4.
    set (s2 := stored _ _ _ _ _ _ s1).
    assert (Hsame2 : same_inputs s s2).
    { destruct (stored_same_inputs s1 (Z.to_nat k0) (closed_mu s k0 c0) c0
                  (closed_precision s k0) (closed_a s k0)
                  (closed_b s k0 (closed_mu s k0 c0))) as (A1 & A2 & A3).
      fold s2 in A1, A2, A3. repeat split; congruence. }
    assert (Hwf2 : posterior_wf s2) by (apply stored_wf; exact Hwf).
    destruct (IH s2 Hsame2 Hwf2) as (s' & Hrun & Hsame' & Hwf' & Hfields).
    exists s'. split; [exact Hrun|]. split; [exact Hsame'|]. split; [exact Hwf'|].
    intros k Hk. destruct (Hfields k Hk) as [Hdone Hkeep].
    assert (Hk0 : 0 <= k0 < Z.of_nat (num_actions (config s1))).
    { destruct Hwf as (_ & _ & _ & _ & _ & _ & _ & _ & _ & Hacts).
      eapply Forall_forall in Hacts; [exact Hacts | exact Hin1]. }
    split.
    + intros Hk'. destruct (decide (Z.of_nat k ∈ todo)) as [Hrest|Hrest];
        [exact (Hdone Hrest)|].
      apply elem_of_cons in Hk'. destruct Hk' as [Hk'|Hk']; [|contradiction].
      exists c0. rewrite Hk'. split; [exact Hc0|].
      rewrite (Hkeep Hrest). subst s2. rewrite <- Hk', Nat2Z.id.
      apply stored_here; [exact Hwf | rewrite Hcfg; exact Hk].
    + intros Hk'. rewrite not_elem_of_cons in Hk'. destruct Hk' as [Hne Hrest].
      rewrite (Hkeep Hrest). subst s2. apply stored_other. lia.
Qed.
End RefreshLoop.

Section RefreshClaim.
Context {R N : Type} `{Scalar R} `{Numeric R}.
Implicit Type s : Wide_Deep_Bandits R N.

Lemma design_rows s (k : Z) :
  posterior_wf s ->
  (design (latent_h s) k <> [] <-> k ∈ actions (latent_h s)).
Proof.
  intros (_ & _ & _ & _ & _ & Hinv & _).
  destruct (buffer_inv_stores _ Hinv) as (L1 & L2 & _).
  unfold design. split.
  - intros Hne. destruct (decide (k ∈ actions (latent_h s))) as [Hin|Hout]; [exact Hin|].
    exfalso. apply Hne. apply rows_where_absent. exact Hout.
  - intros Hin. apply rows_where_nonempty; [lia | exact Hin].
Qed.

(** C1.  On an agent whose posterior bank has one entry per action and
    whose latent buffer holds latent vectors of dimension [latent_dim] for
    actions between 0 and [num_actions - 1], and when [np.linalg.inv]
    inverts the precision of every action of the buffer, [_update_actions]
    returns normally and, for every action [k]:
    - if [k] has at least one row, it leaves
      [precision[k] = Zt Z + lambda_prior I], [cov[k] = inv(precision[k])],
      [mu[k] = cov[k] (Zt y)], [a[k] = a0 + rows(Z) / 2] and
      [b[k] = b0 + (0.5 yt y - 0.5 mut (precision[k] mu))], where [Z] stacks
      the latent vectors and [y] the rewards of the rows of action [k];
    - if [k] has no row, it leaves the five fields of [k] as they were. *)
Theorem update_actions_closed_form s :
  posterior_wf s ->
  Forall (invertible_for s) (actions (latent_h s)) ->
  exists s',
    _update_actions s = (Ok tt, s')
    /\ forall k : nat, (k < num_actions (config s))%nat ->
         (design (latent_h s) (Z.of_nat k) <> [] ->
            exists c,
              np_linalg_inv (closed_precision s (Z.of_nat k)) = Ok c
              /\ precision s' !! k = Some (closed_precision s (Z.of_nat k))
              /\ cov s' !! k = Some c
              /\ mu s' !! k = Some (closed_mu s (Z.of_nat k) c)
              /\ a s' !! k = Some (closed_a s (Z.of_nat k))
              /\ b s' !! k = Some (closed_b s (Z.of_nat k) (closed_mu s (Z.of_nat k) c)))
         /\ (design (latent_h s) (Z.of_nat k) = [] ->
               mu s' !! k = mu s !! k /\ cov s' !! k = cov s !! k
               /\ precision s' !! k = precision s !! k
               /\ a s' !! k = a s !! k /\ b s' !! k = b s !! k).
Proof.
  intros Hwf Hinvert.
  assert (Htodo : Forall (fun k => k ∈ actions (latent_h s) /\ invertible_for s k)
                    (np_unique (actions (latent_h s)))).
  { apply Forall_forall. intros k Hk. apply (proj1 (np_unique_elem _ _)) in Hk.
    split; [exact Hk|]. eapply Forall_forall in Hinvert; [exact Hinvert | exact Hk]. }
  destruct (refresh_loop s _ Htodo s) as (s' & Hrun & _ & _ & Hfields);
    [repeat split | exact Hwf |].
  exists s'. split; [exact Hrun|].
  intros k Hk. destruct (Hfields k Hk) as [Hdone Hkeep]. split.
  - intros Hrows. apply (proj1 (design_rows s _ Hwf)) in Hrows.
    apply (proj2 (np_unique_elem _ _)) in Hrows.
    destruct (Hdone Hrows) as (c & Hc & Hat). unfold posterior_at in Hat.
    exists c. split; [exact Hc|].
    injection Hat as -> -> -> -> ->. repeat split; reflexivity.
  - intros Hrows.
    assert (Hout : Z.of_nat k ∉ np_unique (actions (latent_h s))).
    { intros Hin. apply (proj1 (np_unique_elem _ _)) in Hin.
      apply (proj2 (design_rows s _ Hwf)) in Hin. contradiction. }
    specialize (Hkeep Hout). unfold posterior_at in Hkeep.
    injection Hkeep as -> -> -> -> ->. repeat split; reflexivity.
Qed.
End RefreshClaim.

(** C1 on an agent with two actions whose latent buffer has two rows of
    action 0 and none of action 1. *)
Lemma update_actions_closed_form_witness :
  exists s',
    _update_actions refresh_agent = (Ok tt, s')
    /\ forall k : nat, (k < num_actions (config refresh_agent))%nat ->
         (design (latent_h refresh_agent) (Z.of_nat k) <> [] ->
            exists c,
              np_linalg_inv (closed_precision refresh_agent (Z.of_nat k)) = Ok c
              /\ precision s' !! k = Some (closed_precision refresh_agent (Z.of_nat k))
              /\ cov s' !! k = Some c
              /\ mu s' !! k = Some (closed_mu refresh_agent (Z.of_nat k) c)
              /\ a s' !! k = Some (closed_a refresh_agent (Z.of_nat k))
              /\ b s' !! k = Some (closed_b refresh_agent (Z.of_nat k)
                                     (closed_mu refresh_agent (Z.of_nat k) c)))
         /\ (design (latent_h refresh_agent) (Z.of_nat k) = [] ->
               mu s' !! k = mu refresh_agent !! k /\ cov s' !! k = cov refresh_agent !! k
               /\ precision s' !! k = precision refresh_agent !! k
               /\ a s' !! k = a refresh_agent !! k /\ b s' !! k = b refresh_agent !! k).
Proof.
  apply (update_actions_closed_form (R := Q) (N := unit) refresh_agent).
  - unfold posterior_wf, buffer_inv. simpl.
    repeat split; repeat constructor; lia.
  - repeat constructor; (eexists; split; [vm_compute; reflexivity | reflexivity]).
Defined.

(** The refresh of the example, evaluated: with [Z = [[2]; [1]]],
    [y = [3; 1]] and [lambda_prior = 1/4], action 0 receives precision 21/4,
    covariance 4/21, mean 4/3, shape 7 and scale 19/3; action 1 keeps the
    prior. *)
Example update_actions_example :
  exists s',
    _update_actions refresh_agent = (Ok tt, s')
    /\ mu s' = [[(28 # 21)%Q]; [0%Q]]
    /\ cov s' = [[[(4 # 21)%Q]]; [[4%Q]]]
    /\ precision s' = [[[(21 # 4)%Q]]; [[(1 # 4)%Q]]]
    /\ a s' = [(14 # 2)%Q; 6%Q]
    /\ b s' = [(44688 # 7056)%Q; 6%Q].
Proof.
  eexists. split; [vm_compute; reflexivity|]. repeat split.
Qed.

(** ** Action selection *)

Section ActionClaims.
Context {R N G : Type} `{Scalar R} `{Numeric R} `{Random G R} `{Approximator R N}.
Implicit Type s : Wide_Deep_Bandits R N.

(** C2.  While the event counter [t] (which starts at 0 and is only
    incremented) is below [num_actions * initial_pulls], the call
    [action(user_id, context, method)] with a valid method returns
    [t mod num_actions], whatever the user id, the context, the buffers and
    the posterior bank are, and changes neither the agent nor the random
    generator. *)
Theorem action_warm_up_round_robin s (g : G) (user_id : id_tensor) (context : list R)
    (method : string) :
  in_list method ["BLR_TS"; "BLR"; "forward"] = true ->
  0 <= t s ->
  t s < Z.of_nat (num_actions (config s)) * initial_pulls (config s) ->
  action user_id context method (s, g)
  = (Ok (t s mod Z.of_nat (num_actions (config s))), (s, g)).
Proof.
  intros Hmethod Ht Hwarm. unfold action. rewrite Hmethod. simpl.
  unfold pbind, pget. simpl.
  destruct (Z.ltb_spec (t s) (Z.of_nat (num_actions (config s)) * initial_pulls (config s)));
    [|lia].
  destruct (Nat.eqb_spec (num_actions (config s)) 0) as [Hz|_]; [|reflexivity].
  rewrite Hz in Hwarm. simpl in Hwarm. lia.
Qed.
End ActionClaims.

(** C2 on the new small agent ([t = 0], two actions, one pull each). *)
Lemma action_warm_up_round_robin_witness :
  action (Tensor1 [7]) [1%Q] "BLR_TS" (small_agent, 0%nat)
  = (Ok (t small_agent mod Z.of_nat (num_actions (config small_agent))), (small_agent, 0%nat)).
Proof.
  apply (action_warm_up_round_robin (R := Q) (N := unit) (G := nat) small_agent 0%nat).
  - reflexivity.
  - vm_compute. discriminate.
  - reflexivity.
Defined.

(** Scenario A of the specification: with two actions and one initial pull,
    the first two decisions are 0 and 1. *)
Example action_scenario_A :
  fst (action (Tensor1 [7]) [1%Q] "BLR_TS" (small_agent, 0%nat)) = Ok 0
  /\ fst (action (Tensor1 [9]) [5%Q] "forward" (set_t 1 small_agent, 0%nat)) = Ok 1.
Proof. split; reflexivity. Qed.


Section SamplingClaims.
Context {R N G : Type} `{Scalar R} `{Numeric R} `{Random G R} `{Approximator R N}.
Implicit Type s : Wide_Deep_Bandits R N.

Lemma py_getitem_nat {A : Type} (l : list A) (i : nat) (x : A) :
  py_getitem l (Z.of_nat i) = Ok x -> l !! i = Some x.
Proof.
  unfold py_getitem, py_index.
  destruct (Z.leb_spec 0 (Z.of_nat i)); [|lia]. simpl.
  destruct (Z.ltb_spec (Z.of_nat i) (Z.of_nat (length l))); simpl.
  - rewrite Nat2Z.id. destruct (l !! i); [congruence | discriminate].
  - destruct (Z.leb_spec (- Z.of_nat (length l)) (Z.of_nat i)),
      (Z.ltb_spec (Z.of_nat i) 0); simpl; try discriminate; lia.
Qed.

Lemma draw_arguments_own s (sigma2_s : list R) (d i : nat) (mus : list R)
    (covs : list (list R)) :
  draw_arguments s sigma2_s d i = Ok (mus, covs) ->
  exists (s2s : R) (c : list (list R)),
    mu s !! i = Some mus /\ sigma2_s !! i = Some s2s /\ cov s !! i = Some c
    /\ np_binop2 s_mul (replicate d (replicate d s2s)) c = Ok covs.
Proof.
  unfold draw_arguments. intros Hargs.
  destruct (py_getitem (mu s) (Z.of_nat i)) as [m|] eqn:Hm; simpl in Hargs; [|discriminate].
  destruct (py_getitem sigma2_s (Z.of_nat i)) as [s2|] eqn:Hs; simpl in Hargs; [|discriminate].
  destruct (py_getitem (cov s) (Z.of_nat i)) as [c|] eqn:Hc; simpl in Hargs; [|discriminate].
  destruct (np_binop2 s_mul _ c) as [cv|] eqn:Hcv; simpl in Hargs; [|discriminate].
  injection Hargs as <- <-. exists s2, c.
  auto using py_getitem_nat.
Qed.





End SamplingClaims.



(** ** Learning rates *)

Section LearningRates.
Context {R N : Type} `{Scalar R}.
Implicit Type s : Wide_Deep_Bandits R N.

Lemma set_objects_same s : set_objects (objects s) s = s.
Proof. destruct s. reflexivity. Qed.

Lemma for_each_unchanged {S A : Type} (l : list A) (body : A -> py S unit) (st : S) :
  (forall x, x ∈ l -> body x st = (Ok tt, st)) -> for_each l body st = (Ok tt, st).
Proof.
  induction l as [|x l IH]; intros Hbody; [reflexivity|].
  simpl. unfold pbind. rewrite (Hbody x) by left.
  apply IH. intros y Hy. apply Hbody. right. exact Hy.
Qed.

(** When the optimiser's groups are the very dicts of the list that
    [assign_lr] copies from, each assignment writes back the value it has
    just read: the call changes nothing, with or without [reset]. *)
Lemma assign_lr_aliased s (reset : bool) :
  aliased s -> assign_lr reset s = (Ok tt, s).
Proof.
  intros (Hp & Hi & Hobj). unfold assign_lr.
  assert (Hsrc : (if reset then initial_param_dict s else param_dict s)
                 = optim_param_groups s) by (destruct reset; assumption).
  rewrite Hsrc. apply for_each_unchanged. intros i Hi'.
  apply list_elem_of_In, in_seq in Hi'.
  destruct (lookup_lt_is_Some_2 (optim_param_groups s) i) as [p Hpi]; [lia|].
  unfold assign_one. rewrite Hpi.
  eapply Forall_lookup_1 in Hobj; [|exact Hpi]. destruct Hobj as [lr Hlr].
  rewrite Hlr, insert_id by exact Hlr. rewrite set_objects_same. reflexivity.
Qed.

Lemma list_to_map_zip_seq (lrs : list R) (p : nat) :
  (p < length lrs)%nat ->
  is_Some ((list_to_map (zip (seq 0 (length lrs)) lrs) : gmap nat R) !! p).
Proof.
  intros Hp. destruct (lookup_lt_is_Some_2 lrs p Hp) as [lr Hlr].
  exists lr. apply elem_of_list_to_map.
  - rewrite fst_zip by (rewrite length_seq; lia). apply NoDup_seq.
  - apply list_elem_of_lookup. exists p. apply lookup_zip_with_Some.
    exists p, lr. split; [reflexivity|]. split; [|exact Hlr].
    apply lookup_seq. lia.
Qed.

(** [__init__] builds an agent whose three lists of parameter groups are
    aliases of one another. *)
Lemma init_aliased `{Numeric R} (cfg : Config R) (net0 : N) s :
  Wide_Deep_Bandits_init cfg net0 = Ok s -> aliased s.
Proof.
  unfold Wide_Deep_Bandits_init.
  destruct (negb (in_list (model_type cfg) possible_models)); [discriminate|].
  destruct (negb (in_list (wd_combine_method cfg) possible_combine_methods)); [discriminate|].
  destruct (initial_groups cfg) as [[lrs latent]|]; simpl; [|discriminate].
  destruct (s_eqb (lambda_prior cfg) s_zero); simpl; [discriminate|].
  intros [= <-]. unfold aliased, select_optimizer. simpl.
  split; [reflexivity|]. split; [reflexivity|].
  apply Forall_forall. intros p Hp. apply list_elem_of_In, in_seq in Hp.
  apply list_to_map_zip_seq. lia.
Qed.
End LearningRates.

Section Preservation.
Context {S : Type} (P : S -> Prop).

Lemma preserves_pret {A : Type} (x : A) : preserves P (pret x).
Proof. intros st Hst. exact Hst. Qed.

Lemma preserves_praise {A : Type} (e : exn) : preserves P (praise (A := A) e).
Proof. intros st Hst. exact Hst. Qed.

Lemma preserves_plift {A : Type} (o : outcome A) : preserves P (plift o).
Proof. intros st Hst. exact Hst. Qed.

Lemma preserves_pget : preserves P pget.
Proof. intros st Hst. exact Hst. Qed.

Lemma preserves_pmodify (f : S -> S) :
  (forall st, P st -> P (f st)) -> preserves P (pmodify f).
Proof. intros Hf st Hst. apply Hf, Hst. Qed.

Lemma preserves_pbind {A B : Type} (m : py S A) (k : A -> py S B) :
  preserves P m -> (forall x, preserves P (k x)) -> preserves P (pbind m k).
Proof.
  intros Hm Hk st Hst. unfold pbind. specialize (Hm st Hst).
  destruct (m st) as [[x|e] st']; simpl in *; [apply Hk, Hm | exact Hm].
Qed.

Lemma preserves_for_each {A : Type} (l : list A) (body : A -> py S unit) :
  (forall x, preserves P (body x)) -> preserves P (for_each l body).
Proof.
  intros Hbody. induction l as [|x l IH]; simpl;
    [apply preserves_pret | apply preserves_pbind; [apply Hbody | intros _; exact IH]].
Qed.
End Preservation.

Section LearningRateSteps.
Context {R N : Type} `{Scalar R} `{Approximator R N}.
Implicit Type s : Wide_Deep_Bandits R N.

Lemma set_group_lr_aliased (i : nat) (v : R) : preserves aliased (set_group_lr (N := N) i v).
Proof.
  intros s (Hp & Hi & Hobj). unfold set_group_lr.
  destruct (param_dict s !! i) as [p|]; simpl; [|repeat split; assumption].
  split; [exact Hp|]. split; [exact Hi|].
  eapply Forall_impl; [exact Hobj|]. intros q Hq. simpl in *.
  apply lookup_insert_is_Some. destruct (decide (p = q)); auto.
Qed.

Lemma assign_lr_preserves_aliased (reset : bool) :
  preserves aliased (assign_lr (R := R) (N := N) reset).
Proof. intros s Hs. rewrite (assign_lr_aliased s reset Hs). exact Hs. Qed.

(** A training step keeps the aliasing. *)
Lemma do_step_aliased (u : list Z) (x y w : list (list R)) (step : nat) :
  preserves aliased (do_step (N := N) u x y w step).
Proof.
  unfold do_step.
  apply preserves_pbind; [apply preserves_pget | intros s0].
  apply preserves_pbind; [apply preserves_plift | intros v1].
  apply preserves_pbind; [apply preserves_pmodify; intros st Hst; exact Hst | intros _].
  apply preserves_pbind; [apply preserves_plift | intros v2].
  apply preserves_pbind; [apply preserves_pmodify; intros st Hst; exact Hst | intros _].
  apply preserves_pbind.
  { destruct (String.eqb _ _); [|apply preserves_pret].
    apply preserves_pbind; [apply preserves_pget | intros; apply set_group_lr_aliased]. }
  intros _. apply preserves_pbind.
  { destruct (String.eqb _ _); [|apply preserves_pret].
    apply preserves_pbind; [apply preserves_pget | intros; apply set_group_lr_aliased]. }
  intros _. apply preserves_pbind.
  { destruct (String.eqb _ _); [|apply preserves_pret].
    apply preserves_pbind; [apply preserves_pget | intros].
    apply preserves_pbind; [apply set_group_lr_aliased | intros; apply set_group_lr_aliased]. }
  intros _. apply preserves_pbind; [apply assign_lr_preserves_aliased | intros _].
  apply preserves_pbind; [apply preserves_pget | intros s1].
  apply preserves_pbind; [apply preserves_plift | intros lrs].
  apply preserves_pmodify. intros st Hst. exact Hst.
Qed.

(** After any training steps on a constructed agent, the reset of
    [assign_lr] leaves every learning rate as the last step set it. *)
Lemma reset_after_steps_changes_nothing `{Numeric R} (cfg : Config R) (net0 : N) s0
    (steps : list (list Z * list (list R) * list (list R) * list (list R) * nat)) :
  Wide_Deep_Bandits_init cfg net0 = Ok s0 ->
  let s := snd (for_each steps (fun '(u, x, y, w, step) => do_step u x y w step) s0) in
  assign_lr true s = (Ok tt, s).
Proof.
  intros Hinit s. apply assign_lr_aliased. subst s.
  apply preserves_for_each; [|eapply init_aliased; exact Hinit].
  intros [[[[u x] y] w] step]. apply do_step_aliased.
Qed.
End LearningRateSteps.

(** C7 at an agent of the wide model with base rate 0.01 and decay rate 1:
    a training run of two steps leaves the optimiser's rate at 0.005; the
    reset that [_retrain_nn] starts with ([reset_lr] is set) then returns
    with the rate still at 0.005, not at the initial 0.01. *)
Theorem retrain_reset_keeps_decayed_lr :
  exists s1 g1 s2,
    train 2 (trained_input, 0%nat) = (Ok tt, (s1, g1))
    /\ reset_lr (config s1) = true
    /\ initial_lr_wide (config s1) = (1 # 100)%Q
    /\ optim_lr s1 0 = Some (1 # 200)%Q
    /\ assign_lr true s1 = (Ok tt, s2)
    /\ optim_lr s2 0 = Some (1 # 200)%Q
    /\ ~ ((1 # 200) == initial_lr_wide (config s2))%Q.
Proof.
  eexists. eexists. eexists.
  split; [vm_compute; reflexivity|].
  split; [reflexivity|]. split; [reflexivity|]. split; [reflexivity|].
  split; [vm_compute; reflexivity|]. split; [reflexivity|].
  vm_compute. discriminate.
Qed.

(** ** The scenarios of the specification, run on the model *)

(** Scenario B: after the one event [(7, [1, 2, 3], 0, 5.0)], the rows of
    action 0 are exactly that event and action 1 has none. *)
Example get_data_scenario_B :
  exists d,
    add 7 [1%Q; 2%Q; 3%Q] 0 5%Q (ContextualDataset_init 3 2 (-1) false) = (Ok tt, d)
    /\ get_data 0 d = Ok ([7], [[1%Q; 2%Q; 3%Q]], [5%Q])
    /\ get_data 1 d = Ok ([], [], []).
Proof. eexists. repeat split. Qed.

(** Scenario C: before any refresh the expected value of every action is 0. *)
Example expected_values_scenario_C :
  fst (expected_values (Tensor1 [7]) [3%Q] false "BLR" small_agent) = Ok [0%Q; 0%Q].
Proof. reflexivity. Qed.

(** The constructor with its default arguments: the wide and deep model
    with a latent vector of 50 + 64 entries, four parameter groups that are
    aliases in the three lists, and the registry seeded with the dummy
    user. *)
Example default_agent_is_constructed :
  exists s,
    Wide_Deep_Bandits_init (default_config 2 3) tt = Ok s
    /\ latent_dim s = 114%nat
    /\ param_dict s = [0; 1; 2; 3]%nat
    /\ initial_param_dict s = param_dict s
    /\ optim_param_groups s = param_dict s
    /\ fresh_registry s.
Proof. eexists. split; [reflexivity|]. repeat split. Qed.

(** Bulk ingestion of two rows into an unbounded buffer: it succeeds when
    [pd] is bound, and raises [NameError] in the module as the file has
    it. *)
Example ingest_two_rows :
  fst (_ingest_data (E := globals_with_pandas) [1; 2] [[0%Q]; [0%Q]] [0; 1] [1%Q; 1%Q]
         (ContextualDataset_init 1 2 (-1) false)) = Ok tt
  /\ fst (_ingest_data (E := globals_of_file) [1; 2] [[0%Q]; [0%Q]] [0; 1] [1%Q; 1%Q]
            (ContextualDataset_init 1 2 (-1) false)) = Raise (NameError "pd").
Proof. split; reflexivity. Qed.

(** * Further properties *)

(** ** The registry: dense indices and the bulk lookup *)

Section RegistryMore.
Context {R N : Type}.
Implicit Type s : Wide_Deep_Bandits R N.

Lemma registered_dom s (v : Z) :
  dom (user_dict (registered v s)) = {[ v ]} ∪ dom (user_dict s).
Proof.
  unfold registered. destruct (user_dict s !! v) as [i|] eqn:Hv; simpl.
  - assert (v ∈ dom (user_dict s)) by (apply elem_of_dom; eauto). set_solver.
  - apply dom_insert_L.
Qed.

Lemma registered_dense s (v : Z) :
  registry_inv s ->
  (forall i, 0 <= i < current_user_size s -> exists u, user_dict s !! u = Some i) ->
  forall i, 0 <= i < current_user_size (registered v s) ->
            exists u, user_dict (registered v s) !! u = Some i.
Proof.
  intros (_ & Hn & _) Hdense i Hi. unfold registered in *.
  destruct (user_dict s !! v) as [j|] eqn:Hv; [apply Hdense, Hi|]. simpl in *.
  destruct (decide (i = current_user_size s)) as [->|Hne].
  - exists v. apply lookup_insert_eq.
  - destruct (Hdense i) as [u Hu]; [lia|].
    exists u. rewrite lookup_insert_ne by congruence. exact Hu.
Qed.

Lemma register_all_app (ids ids' : list Z) s :
  register_all (ids ++ ids') s =
    match register_all ids s with
    | (Ok _, s') => register_all ids' s'
    | (Raise e, s') => (Raise e, s')
    end.
Proof.
  unfold register_all. revert s. induction ids as [|v ids IH]; intros s; [reflexivity|].
  simpl. unfold pbind. destruct (update_user_dict (Tensor1 [v]) s) as [[[]|e] s1]; [apply IH | reflexivity].
Qed.

Lemma register_all_dense (ids : list Z) s :
  registry_inv s ->
  (forall i, 0 <= i < current_user_size s -> exists u, user_dict s !! u = Some i) ->
  exists s', register_all ids s = (Ok tt, s')
    /\ registry_inv s'
    /\ dom (user_dict s') = list_to_set ids ∪ dom (user_dict s)
    /\ (forall i, 0 <= i < current_user_size s' -> exists u, user_dict s' !! u = Some i)
    /\ (forall u i, user_dict s !! u = Some i -> user_dict s' !! u = Some i).
Proof.
  revert s. induction ids as [|v ids IH]; intros s Hinv Hdense.
  - exists s. split; [reflexivity|]. split; [exact Hinv|]. split; [set_solver|]. auto.
  - unfold register_all. simpl. unfold pbind. rewrite update_user_dict_run.
    destruct (IH (registered v s) (registered_inv s v Hinv) (registered_dense s v Hinv Hdense))
      as (s' & Hrun & Hinv' & Hdom & Hdense' & Hkeep).
    exists s'. split; [exact Hrun|]. split; [exact Hinv'|]. split; [|split].
    + rewrite Hdom, registered_dom. set_solver.
    + exact Hdense'.
    + intros u i Hu. apply Hkeep, registered_keeps, Hu.
Qed.

(** After any registrations on the registry of a new agent, the registered
    ids are the dummy id 0 and the ids seen; the indices in use are exactly
    the numbers below [current_user_size], the number of ids; and an id
    receives, at its first registration, the number of distinct ids (with
    the dummy) registered before it. *)
Theorem registry_indices_are_dense (s0 : Wide_Deep_Bandits R N) (ids : list Z) :
  fresh_registry s0 ->
  exists s,
    register_all ids s0 = (Ok tt, s)
    /\ dom (user_dict s) = list_to_set (0 :: ids)
    /\ current_user_size s = Z.of_nat (size (list_to_set (0 :: ids) : gset Z))
    /\ (forall i, 0 <= i < current_user_size s -> exists u, user_dict s !! u = Some i)
    /\ (forall pre v post, ids = pre ++ v :: post -> v ∉ 0 :: pre ->
          user_dict s !! v = Some (Z.of_nat (size (list_to_set (0 :: pre) : gset Z)))).
Proof.
  intros Hfresh. pose proof (fresh_registry_inv s0 Hfresh) as Hinv0.
  assert (Hdense0 : forall i, 0 <= i < current_user_size s0 ->
                      exists u, user_dict s0 !! u = Some i).
  { destruct Hfresh as [Hd Hn]. rewrite Hd, Hn. intros i Hi. exists 0.
    replace i with 0 by lia. apply lookup_singleton_eq. }
  assert (Hdom0 : dom (user_dict s0) = {[ 0 ]}).
  { destruct Hfresh as [-> _]. apply dom_singleton_L. }
  destruct (register_all_dense ids s0 Hinv0 Hdense0) as (s & Hrun & Hinv & Hdom & Hdense & _).
  assert (Hdom' : dom (user_dict s) = list_to_set (0 :: ids)).
  { rewrite Hdom, Hdom0. simpl. set_solver. }
  exists s. split; [exact Hrun|]. split; [exact Hdom'|]. split; [|split; [exact Hdense|]].
  - destruct Hinv as (_ & Hn & _). rewrite Hn, <- Hdom', size_dom. reflexivity.
  - intros pre v post -> Hv.
    destruct (register_all_dense pre s0 Hinv0 Hdense0) as (s1 & Hrun1 & Hinv1 & Hdom1 & Hdense1 & _).
    rewrite register_all_app, Hrun1 in Hrun.
    unfold register_all in Hrun. simpl in Hrun. unfold pbind in Hrun.
    rewrite update_user_dict_run in Hrun.
    assert (Hnew : user_dict s1 !! v = None).
    { apply not_elem_of_dom. rewrite Hdom1, Hdom0. simpl in Hv. set_solver. }
    assert (Hidx : user_dict (registered v s1) !! v
                   = Some (Z.of_nat (size (list_to_set (0 :: pre) : gset Z)))).
    { unfold registered. rewrite Hnew. simpl. rewrite lookup_insert_eq.
      destruct Hinv1 as (_ & Hn1 & _). rewrite Hn1, <- size_dom, Hdom1, Hdom0.
      f_equal. f_equal. f_equal. simpl. set_solver. }
    destruct (register_all_dense post (registered v s1) (registered_inv s1 v Hinv1)
                (registered_dense s1 v Hinv1 Hdense1)) as (s2 & Hrun2 & _ & _ & _ & Hkeep).
    unfold register_all in Hrun2. rewrite Hrun2 in Hrun. injection Hrun as <-.
    apply Hkeep, Hidx.
Qed.

(** The bulk lookup returns the indices of its ids when all of them are
    registered, the same indices as the single lookup returns; with an
    unregistered id among them it raises [KeyError], where the single lookup
    of that id returns 0. *)
Theorem bulk_lookup_is_strict s (ids : list Z) :
  lookup_user_idxs ids s
  = (if decide (Forall (fun v => is_Some (user_dict s !! v)) ids)
     then Ok (map (fun v => default 0 (user_dict s !! v)) ids)
     else Raise KeyError)
  /\ map_outcome (fun v => lookup_one_user_idx (Tensor1 [v]) s) ids
     = Ok (map (fun v => default 0 (user_dict s !! v)) ids).
Proof.
  unfold lookup_user_idxs. split.
  - induction ids as [|v ids IH]; [reflexivity|]. simpl.
    destruct (user_dict s !! v) as [i|] eqn:Hv; simpl.
    + rewrite IH. destruct (decide (Forall _ ids)) as [Hall|Hnot]; simpl.
      * rewrite decide_True; [reflexivity|]. constructor; [rewrite Hv; eauto | exact Hall].
      * rewrite decide_False; [reflexivity|]. intros Hall. apply Hnot.
        inversion Hall; assumption.
    + rewrite decide_False; [reflexivity|]. intros Hall.
      inversion Hall as [|? ? [i Hi] _]. congruence.
  - induction ids as [|v ids IH]; [reflexivity|]. simpl.
    rewrite lookup_one_user_idx_run. simpl. rewrite IH. reflexivity.
Qed.
End RegistryMore.

(** The dense indices on the small agent, after the ids 5, 0, 7 and 5. *)
Lemma registry_indices_are_dense_witness :
  exists s,
    register_all [5; 0; 7; 5] small_agent = (Ok tt, s)
    /\ dom (user_dict s) = list_to_set (0 :: [5; 0; 7; 5])
    /\ current_user_size s = Z.of_nat (size (list_to_set (0 :: [5; 0; 7; 5]) : gset Z))
    /\ (forall i, 0 <= i < current_user_size s -> exists u, user_dict s !! u = Some i)
    /\ (forall pre v post, [5; 0; 7; 5] = pre ++ v :: post -> v ∉ 0 :: pre ->
          user_dict s !! v = Some (Z.of_nat (size (list_to_set (0 :: pre) : gset Z)))).
Proof.
  apply (registry_indices_are_dense small_agent [5; 0; 7; 5]).
  split; reflexivity.
Defined.

(** ** The buffer: capacity, and calls outside the domain of [add] *)

Section AddMore.
Context {R : Type} `{Scalar R}.
Implicit Type d : ContextualDataset R.

Lemma add_all_app (evs evs' : list (Z * list R * Z * R)) d :
  add_all (evs ++ evs') d =
    match add_all evs d with
    | (Ok _, d') => add_all evs' d'
    | (Raise e, d') => (Raise e, d')
    end.
Proof.
  revert d. induction evs as [|ev evs IH]; intros d; [reflexivity|].
  simpl. unfold pbind. destruct (add_event ev d) as [[[]|e] d1]; [apply IH | reflexivity].
Qed.

Lemma drop_snoc_capacity {A : Type} (l : list A) (x : A) (m n : nat) :
  length l = n ->
  (if (m <? S (n - (n - m)))%nat
   then drop 1 (drop (n - m) l ++ [x])
   else drop (n - m) l ++ [x])
  = drop (S n - m) (l ++ [x]).
Proof.
  intros <-.
  destruct (Nat.ltb_spec m (S (length l - (length l - m)))) as [Hlt|Hge].
  - assert (Hm : (m <= length l)%nat) by lia.
    replace (S (length l) - m)%nat with (S (length l - m)) by lia.
    destruct (decide (m = 0%nat)) as [->|Hm0].
    + rewrite Nat.sub_0_r, drop_all. simpl.
      rewrite drop_ge by (rewrite length_app; simpl; lia). reflexivity.
    + rewrite (drop_app_le l [x] (S (length l - m))) by lia.
      rewrite (drop_app_le (drop (length l - m) l) [x] 1) by (rewrite length_drop; lia).
      rewrite drop_drop. f_equal. f_equal. lia.
  - assert (Hm : (length l < m)%nat) by lia.
    replace (length l - m)%nat with 0%nat by lia.
    replace (S (length l) - m)%nat with 0%nat by lia. reflexivity.
Qed.

Lemma evicted_memory_size d : memory_size (evicted d) = memory_size d.
Proof. unfold evicted. destruct (_ =? _); [reflexivity|]. destruct (_ >? _); reflexivity. Qed.

(** The stores after a call of [add] on a buffer of capacity [m] that
    holds the newest [m] of [n] rows. *)
Lemma add_capacity_step d (m n : nat) (u : Z) (c : list R) (k : Z) (row : list R)
    (ids acts : list Z) (ctxs rws : list (list R)) :
  memory_size d = Z.of_nat m ->
  length ids = n -> length acts = n -> length ctxs = n -> length rws = n ->
  user_ids d = drop (n - m) ids ->
  actions d = drop (n - m) acts ->
  default [] (contexts d) = drop (n - m) ctxs ->
  default [] (rewards d) = drop (n - m) rws ->
  let d' := evicted (appended u c k row d) in
  user_ids d' = drop (S n - m) (ids ++ [u])
  /\ actions d' = drop (S n - m) (acts ++ [k])
  /\ default [] (contexts d') = drop (S n - m) (ctxs ++ [c])
  /\ default [] (rewards d') = drop (S n - m) (rws ++ [row]).
Proof.
  intros Hms Li La Lc Lr Hi Ha Hc Hr d'. subst d'. unfold evicted.
  change (memory_size (appended u c k row d)) with (memory_size d). rewrite Hms.
  destruct (Z.eqb_spec (Z.of_nat m) (-1)) as [|_]; [lia|].
  assert (Hrows : rows_of (contexts (appended u c k row d)) = S (n - (n - m))).
  { unfold rows_of, appended. simpl. rewrite Hc, length_app, length_drop, Lc. simpl. lia. }
  rewrite Hrows.
  assert (Hcond : (Z.of_nat (S (n - (n - m))) >? Z.of_nat m) = (m <? S (n - (n - m)))%nat).
  { destruct (Z.gtb_spec (Z.of_nat (S (n - (n - m)))) (Z.of_nat m)),
      (Nat.ltb_spec m (S (n - (n - m)))); try reflexivity; lia. }
  rewrite Hcond.
  rewrite <- (drop_snoc_capacity ids u m n Li), <- (drop_snoc_capacity acts k m n La),
    <- (drop_snoc_capacity ctxs c m n Lc), <- (drop_snoc_capacity rws row m n Lr).
  destruct (m <? S (n - (n - m)))%nat; unfold drop_oldest, appended; simpl;
    rewrite Hi, Ha, Hc, Hr; repeat split.
Qed.

(** With a capacity [m] the buffer is a queue: after any sequence of calls
    of [add] within its domain on a new buffer, the four stores hold the rows
    of the newest [m] calls, in order (all rows when fewer were made). *)
Theorem add_keeps_the_newest (cd na m : nat) (ic : bool)
    (evs : list (Z * list R * Z * R)) :
  Forall (valid_add (ContextualDataset_init cd na (Z.of_nat m) ic)) evs ->
  exists d,
    add_all evs (ContextualDataset_init cd na (Z.of_nat m) ic) = (Ok tt, d)
    /\ user_ids d = drop (length evs - m) (event_ids evs)
    /\ actions d = drop (length evs - m) (event_actions evs)
    /\ default [] (contexts d) = drop (length evs - m) (event_contexts d evs)
    /\ default [] (rewards d) = drop (length evs - m) (event_rewards d evs)
    /\ length (actions d) = Nat.min (length evs) m.
Proof.
  set (d0 := ContextualDataset_init (R := R) cd na (Z.of_nat m) ic).
  intros Hevs.
  assert (Hgen : exists d,
    add_all evs d0 = (Ok tt, d) /\ buffer_inv d
    /\ _context_dim d = cd /\ _num_actions d = na /\ intercept d = ic
    /\ memory_size d = Z.of_nat m
    /\ user_ids d = drop (length evs - m) (event_ids evs)
    /\ actions d = drop (length evs - m) (event_actions evs)
    /\ default [] (contexts d) = drop (length evs - m) (event_contexts d0 evs)
    /\ default [] (rewards d) = drop (length evs - m) (event_rewards d0 evs)).
  { induction evs as [|[[[u c] k] r] evs IH] using rev_ind.
    - exists d0. simpl. repeat split; unfold buffer_inv; simpl; auto.
    - apply Forall_app in Hevs. destruct Hevs as [Hevs Hev].
      inversion Hev as [|? ? Hv _]; subst. destruct Hv as [Hc Hk]. simpl in Hc, Hk.
      destruct (IH Hevs) as (d & Hrun & Hinv & D1 & D2 & D3 & D4 & Si & Sa & Sc & Sr).
      rewrite add_all_app, Hrun. simpl. unfold pbind.
      rewrite (add_run d u c k r Hinv) by (rewrite ?D1, ?D2; assumption).
      rewrite D2, D3.
      set (c' := if ic then c ++ [s_lit 1] else c).
      set (row := <[Z.to_nat k := r]> (zeros na)).
      destruct (add_capacity_step d m (length evs) u c' k row
                  (event_ids evs) (event_actions evs) (event_contexts d0 evs)
                  (event_rewards d0 evs))
        as (E1 & E2 & E3 & E4);
        try assumption;
        try (unfold event_ids, event_actions, event_contexts, event_rewards;
             apply length_map).
      destruct (evicted_dims (appended u c' k row d)) as (F1 & F2 & F3).
      eexists. split; [reflexivity|].
      split.
      { apply add_result_inv; [exact Hinv | | | lia].
        - subst c'. rewrite D1, D3. destruct ic; [rewrite length_app; simpl|]; lia.
        - subst row. unfold zeros. rewrite length_insert, length_replicate. congruence. }
      split; [rewrite F1; exact D1|]. split; [rewrite F2; exact D2|].
      split; [rewrite F3; exact D3|].
      split; [rewrite evicted_memory_size; exact D4|].
      rewrite length_app. simpl.
      replace (length evs + 1 - m)%nat with (S (length evs) - m)%nat by lia.
      unfold event_ids, event_actions, event_contexts, event_rewards in *.
      rewrite !map_app. simpl.
      split; [exact E1|]. split; [exact E2|]. split; [exact E3 | exact E4]. }
  destruct Hgen as (d & Hrun & Hinv & D1 & D2 & D3 & D4 & Si & Sa & Sc & Sr).
  exists d. split; [exact Hrun|]. split; [exact Si|]. split; [exact Sa|].
  unfold event_contexts, event_rewards, stored_context in *.
  rewrite D2, D3. split; [exact Sc|]. split; [exact Sr|].
  rewrite Sa, length_drop. unfold event_actions. rewrite length_map. lia.
Qed.
End AddMore.

(** The queue of capacity 2 after three calls. *)
Lemma add_keeps_the_newest_witness :
  exists d,
    add_all [(7, [1%Q], 0, 5%Q); (8, [2%Q], 1, 0%Q); (9, [3%Q], 0, 1%Q)]
      (ContextualDataset_init 1 2 (Z.of_nat 2) false) = (Ok tt, d)
    /\ user_ids d = drop (3 - 2) [7; 8; 9]
    /\ actions d = drop (3 - 2) [0; 1; 0]
    /\ default [] (contexts d) = drop (3 - 2) [[1%Q]; [2%Q]; [3%Q]]
    /\ default [] (rewards d) = drop (3 - 2) [[5%Q; 0%Q]; [0%Q; 0%Q]; [1%Q; 0%Q]]
    /\ length (actions d) = Nat.min 3 2.
Proof.
  destruct (add_keeps_the_newest (R := Q) 1 2 2 false
              [(7, [1%Q], 0, 5%Q); (8, [2%Q], 1, 0%Q); (9, [3%Q], 0, 1%Q)])
    as (d & Hrun & H1 & H2 & H3 & H4 & H5).
  - repeat constructor; simpl; lia.
  - exists d. split; [exact Hrun|]. split; [exact H1|]. split; [exact H2|].
    pose proof Hrun as Hd. vm_compute in Hd. injection Hd as <-.
    split; [exact H3|]. split; [exact H4 | exact H5].
Defined.

Section AddOutside.
Context {R : Type} `{Scalar R}.
Implicit Type d : ContextualDataset R.

Lemma add_context_appended d (context : list R) :
  buffer_inv d ->
  length context = _context_dim d ->
  (if intercept d
   then reshape_row (context ++ [s_lit 1]) (_context_dim d + 1)
   else reshape_row context (_context_dim d)) = Ok (stored_context d context)
  /\ append_rows (contexts d) [stored_context d context]
     = Ok (default [] (contexts d) ++ [stored_context d context]).
Proof.
  intros Hinv Hc. destruct (buffer_inv_stores d Hinv) as (_ & _ & _ & Wc & _).
  unfold stored_context. split.
  - destruct (intercept d); unfold reshape_row.
    + rewrite length_app, Hc. simpl. rewrite Nat.eqb_refl. reflexivity.
    + rewrite Hc, Nat.eqb_refl. reflexivity.
  - apply append_rows_row. eapply Forall_impl; [exact Wc|].
    intros row ->. destruct (intercept d); [rewrite length_app; simpl|]; lia.
Qed.

(** A call of [add] whose action is no index of a row of [num_actions]
    entries raises [IndexError] after the context has been appended: the
    context store is left one row longer than the other three. *)
Theorem add_bad_action_misaligns d (user_id : Z) (context : list R) (action : Z)
    (reward : R) :
  buffer_inv d ->
  length context = _context_dim d ->
  ~ (- Z.of_nat (_num_actions d) <= action < Z.of_nat (_num_actions d)) ->
  add user_id context action reward d
  = (Raise IndexError,
     set_contexts (Some (default [] (contexts d) ++ [stored_context d context])) d)
  /\ rows_of (contexts (snd (add user_id context action reward d)))
     = S (length (actions (snd (add user_id context action reward d)))).
Proof.
  intros Hinv Hc Hk.
  destruct (add_context_appended d context Hinv Hc) as [Hresh Happ].
  destruct (buffer_inv_stores d Hinv) as (L1 & L2 & _).
  assert (Hrun : add user_id context action reward d
                 = (Raise IndexError,
                    set_contexts (Some (default [] (contexts d)
                                        ++ [stored_context d context])) d)).
  { unfold add, pbind, pget, plift, pmodify. rewrite Hresh, Happ.
    unfold reward_row, py_setitem, py_index, zeros. rewrite length_replicate.
    destruct (Z.leb_spec 0 action), (Z.ltb_spec action (Z.of_nat (_num_actions d))),
      (Z.leb_spec (- Z.of_nat (_num_actions d)) action), (Z.ltb_spec action 0);
      simpl; try reflexivity; lia. }
  split; [exact Hrun|]. rewrite Hrun. unfold rows_of. simpl.
  rewrite length_app. simpl. lia.
Qed.

(** A negative action [k >= -num_actions] is accepted: the reward is
    written to column [num_actions + k], as Python indexes from the end,
    while the action store keeps [k]. *)
Theorem add_negative_action_wraps d (user_id : Z) (context : list R) (action : Z)
    (reward : R) :
  buffer_inv d ->
  length context = _context_dim d ->
  - Z.of_nat (_num_actions d) <= action < 0 ->
  add user_id context action reward d
  = (Ok tt,
     evicted (appended user_id (stored_context d context) action
                (<[Z.to_nat (action + Z.of_nat (_num_actions d)) := reward]>
                   (zeros (_num_actions d))) d)).
Proof.
  intros Hinv Hc Hk.
  destruct (add_context_appended d context Hinv Hc) as [Hresh Happ].
  destruct (buffer_inv_stores d Hinv) as (L1 & L2 & L3 & _ & Wr).
  unfold add, pbind, pget, plift, pmodify, pret. rewrite Hresh, Happ.
  unfold reward_row, py_setitem, py_index, zeros. rewrite length_replicate.
  destruct (Z.leb_spec 0 action); [lia|]. simpl.
  destruct (Z.leb_spec (- Z.of_nat (_num_actions d)) action); [|lia].
  destruct (Z.ltb_spec action 0); [|lia]. simpl.
  set (row := <[_ := reward]> (replicate (_num_actions d) s_zero)).
  assert (Hrow : Forall (fun r => length r = length row) (default [] (rewards d))).
  { subst row. rewrite length_insert, length_replicate. exact Wr. }
  rewrite (append_rows_row _ _ Hrow). simpl.
  unfold evicted, appended, rows_of. simpl.
  destruct (memory_size d =? -1); [reflexivity|].
  destruct (Z.of_nat (length (default [] (contexts d) ++ [stored_context d context]))
            >? memory_size d); simpl;
    unfold py_assert;
    rewrite ?length_drop, ?length_app; simpl;
    rewrite L1, L2, L3, Z.eqb_refl, Nat.eqb_refl; reflexivity.
Qed.
End AddOutside.

(** [add] with action 5 on a buffer of two actions. *)
Lemma add_bad_action_misaligns_witness :
  add 7 [1%Q] 5 1%Q example_buffer_1
  = (Raise IndexError,
     set_contexts (Some (default [] (contexts example_buffer_1)
                         ++ [stored_context example_buffer_1 [1%Q]])) example_buffer_1)
  /\ rows_of (contexts (snd (add 7 [1%Q] 5 1%Q example_buffer_1)))
     = S (length (actions (snd (add 7 [1%Q] 5 1%Q example_buffer_1)))).
Proof.
  apply (add_bad_action_misaligns (R := Q) example_buffer_1 7 [1%Q] 5 1%Q).
  - unfold buffer_inv. simpl. repeat split; repeat constructor; lia.
  - reflexivity.
  - simpl. lia.
Defined.

(** [add] with action -1 on a buffer of two actions: the reward lands in
    column 1. *)
Lemma add_negative_action_wraps_witness :
  add 7 [1%Q] (-1) 4%Q example_buffer_1
  = (Ok tt,
     evicted (appended 7 (stored_context example_buffer_1 [1%Q]) (-1)
                (<[Z.to_nat (-1 + Z.of_nat (_num_actions example_buffer_1)) := 4%Q]>
                   (zeros (_num_actions example_buffer_1))) example_buffer_1)).
Proof.
  apply (add_negative_action_wraps (R := Q) example_buffer_1 7 [1%Q] (-1) 4%Q).
  - unfold buffer_inv. simpl. repeat split; repeat constructor; lia.
  - reflexivity.
  - simpl. lia.
Defined.

(** ** The buffer: bulk ingestion against repeated [add] *)

Section IngestMore.
Context {R : Type} `{Scalar R}.
Implicit Type d : ContextualDataset R.

Lemma chunk_concat (rows : list (list R)) (w : nat) :
  Forall (fun row => length row = w) rows ->
  chunk (length rows) w (concat rows) = rows /\ length (concat rows) = (length rows * w)%nat.
Proof.
  induction 1 as [|row rows Hrow _ [IH1 IH2]]; [split; reflexivity|].
  simpl. rewrite take_app_length' by (symmetry; exact Hrow).
  rewrite drop_app_length' by (symmetry; exact Hrow).
  rewrite IH1, length_app, IH2, Hrow. split; [reflexivity | lia].
Qed.

Lemma reshape_rows_concat (rows : list (list R)) (w : nat) :
  (0 < w)%nat ->
  Forall (fun row => length row = w) rows ->
  reshape_rows (concat rows) w = Ok rows.
Proof.
  intros Hw Hrows. destruct (chunk_concat rows w Hrows) as [Hchunk Hlen].
  unfold reshape_rows. destruct w as [|w']; [lia|].
  rewrite Hlen, Nat.Div0.mod_mul, Nat.div_mul by lia. simpl.
  rewrite Hchunk. reflexivity.
Qed.

Lemma foldr_max_bounds (a0 : Z) (l : list Z) :
  foldr Z.max a0 l ∈ a0 :: l /\ Forall (fun x => x <= foldr Z.max a0 l) (a0 :: l).
Proof.
  induction l as [|x l [IHin IHle]]; simpl.
  - split; [left | constructor; [lia | constructor]].
  - inversion IHle as [|? ? H0 Hl]; subst. split.
    + destruct (Z.max_spec x (foldr Z.max a0 l)) as [[_ ->]|[_ ->]].
      * apply elem_of_cons in IHin. destruct IHin as [->|Hin]; [left | right; right; exact Hin].
      * right. left.
    + constructor; [lia|]. constructor; [lia|].
      eapply Forall_impl; [exact Hl|]. simpl. intros y Hy. lia.
Qed.

(** The number of columns that [coo_matrix] infers is [num_actions] when
    the last action occurs among the ingested ones. *)
Lemma inferred_columns (n : nat) (a0 : Z) (l : list Z) :
  Forall (fun k => 0 <= k < Z.of_nat n) (a0 :: l) ->
  Z.of_nat n - 1 ∈ a0 :: l ->
  Z.to_nat (foldr Z.max a0 l + 1) = n.
Proof.
  intros Hrange Hlast. destruct (foldr_max_bounds a0 l) as [Hin Hle].
  eapply Forall_forall in Hrange; [|exact Hin].
  eapply Forall_forall in Hle; [|exact Hlast]. lia.
Qed.

Lemma append_rows_rows (t : option (list (list R))) (rows : list (list R)) (w : nat) :
  Forall (fun row => length row = w) (default [] t) ->
  Forall (fun row => length row = w) rows ->
  append_rows t rows = Ok (default [] t ++ rows).
Proof.
  intros Ht Hrows. destruct t as [m|]; simpl in *; [|reflexivity].
  unfold torch_cat. destruct m as [|ra m], rows as [|rb rows]; try reflexivity.
  inversion Ht; inversion Hrows; subst.
  replace (length ra =? length rb)%nat with true; [reflexivity|].
  symmetry. apply Nat.eqb_eq. congruence.
Qed.

Lemma zip_with_events {A B C : Type} (f : A -> B -> C) (g1 : Z * list R * Z * R -> A)
    (g2 : Z * list R * Z * R -> B) (evs : list (Z * list R * Z * R)) :
  zip_with f (map g1 evs) (map g2 evs) = map (fun ev => f (g1 ev) (g2 ev)) evs.
Proof. induction evs as [|ev evs IH]; simpl; [reflexivity | rewrite IH; reflexivity]. Qed.

Lemma bulk_appended_cons d (ev : Z * list R * Z * R) (evs : list (Z * list R * Z * R)) :
  bulk_appended evs
    (appended (fst (fst (fst ev))) (stored_context d (snd (fst (fst ev)))) (snd (fst ev))
       (<[Z.to_nat (snd (fst ev)) := snd ev]> (zeros (_num_actions d))) d)
  = bulk_appended (ev :: evs) d.
Proof.
  unfold bulk_appended, appended, event_ids, event_actions, event_contexts, event_rewards,
    stored_context. simpl. rewrite <- !app_assoc. reflexivity.
Qed.

(** Repeated [add] on a buffer without capacity appends the rows of the
    events. *)
Lemma add_all_unbounded (ev : Z * list R * Z * R) (evs : list (Z * list R * Z * R)) d :
  buffer_inv d ->
  memory_size d = -1 ->
  Forall (valid_add d) (ev :: evs) ->
  add_all (ev :: evs) d = (Ok tt, bulk_appended (ev :: evs) d).
Proof.
  revert ev d. induction evs as [|ev' evs IH]; intros [[[u c] k] r] d Hinv Hms Hvalid;
    inversion Hvalid as [|? ? Hv Hrest]; subst; destruct Hv as [Hc Hk];
    simpl; unfold pbind; rewrite (add_run d u c k r Hinv Hc Hk);
    unfold evicted; change (memory_size (appended _ _ _ _ d)) with (memory_size d);
    rewrite Hms; simpl.
  - reflexivity.
  - set (d1 := appended u _ k _ d).
    assert (Hinv1 : buffer_inv d1).
    { pose proof (add_result_inv d u (if intercept d then c ++ [s_lit 1] else c) k
                    (<[Z.to_nat k := r]> (zeros (_num_actions d))) Hinv) as Hres.
      unfold evicted in Hres.
      change (memory_size (appended u (if intercept d then c ++ [s_lit 1] else c) k
                             (<[Z.to_nat k := r]> (zeros (_num_actions d))) d))
        with (memory_size d) in Hres.
      rewrite Hms in Hres. simpl in Hres. apply Hres.
      - destruct (intercept d); [rewrite length_app; simpl|]; lia.
      - unfold zeros. rewrite length_insert, length_replicate. reflexivity.
      - lia. }
    specialize (IH ev' d1 Hinv1 Hms Hrest). simpl in IH. unfold pbind in IH.
    rewrite IH. f_equal.
    apply (bulk_appended_cons d (u, c, k, r) (ev' :: evs)).
Qed.

(** With [pd] bound, on a buffer without capacity, [_ingest_data] of the
    columns of a non-empty list of events (contexts of [context_dim >= 1]
    entries, actions between 0 and [num_actions - 1], the last action among
    them) leaves the buffer that the same events leave when added one by
    one. *)
Theorem ingest_is_repeated_add (E : Globals) d (evs : list (Z * list R * Z * R)) :
  pd_bound = true ->
  s_lit 1 = s_one ->
  buffer_inv d ->
  memory_size d = -1 ->
  (0 < _context_dim d)%nat ->
  evs <> [] ->
  Forall (valid_add d) evs ->
  Z.of_nat (_num_actions d) - 1 ∈ event_actions evs ->
  _ingest_data (event_ids evs) (event_raw_contexts evs) (event_actions evs)
    (event_reward_values evs) d
  = add_all evs d.
Proof.
  intros Hpd Hone Hinv Hms Hcd Hne Hvalid Hlast.
  destruct evs as [|ev evs]; [congruence|].
  rewrite (add_all_unbounded ev evs d Hinv Hms Hvalid).
  set (all := ev :: evs) in *.
  destruct (buffer_inv_stores d Hinv) as (L1 & L2 & L3 & Wc & Wr).
  assert (Hraw : Forall (fun row => length row = _context_dim d) (event_raw_contexts all)).
  { unfold event_raw_contexts. apply Forall_forall. intros row Hrow.
    apply list_elem_of_In, in_map_iff in Hrow. destruct Hrow as ([[[u c] k] r] & <- & Hin).
    eapply Forall_forall in Hvalid; [|apply list_elem_of_In; exact Hin].
    destruct Hvalid as [Hc _]. exact Hc. }
  assert (Hacts : Forall (fun k => 0 <= k < Z.of_nat (_num_actions d)) (event_actions all)).
  { unfold event_actions. apply Forall_forall. intros a Ha.
    apply list_elem_of_In, in_map_iff in Ha. destruct Ha as ([[[u c] k] r] & <- & Hin).
    eapply Forall_forall in Hvalid; [|apply list_elem_of_In; exact Hin].
    destruct Hvalid as [_ Hk]. exact Hk. }
  unfold _ingest_data, pbind, plift, pget, pmodify, pret, praise.
  rewrite Hpd, Hms. change (-1 =? -1) with true. cbv iota.
  rewrite (reshape_rows_concat _ _ Hcd Hraw).
  assert (Hctx : (if intercept d
                  then if (length (event_raw_contexts all)
                           =? length (event_reward_values all))%nat
                       then Ok (map (fun r => r ++ [s_one]) (event_raw_contexts all))
                       else Raise (RuntimeError "sizes of tensors must match except in dimension 1")
                  else Ok (event_raw_contexts all))
                 = Ok (event_contexts d all)).
  { unfold event_raw_contexts, event_reward_values, event_contexts, stored_context.
    rewrite !length_map, Nat.eqb_refl, map_map, Hone.
    destruct (intercept d); reflexivity. }
  rewrite Hctx.
  assert (Hlens : (length (event_contexts d all) =? length (event_reward_values all))%nat
                  && (length (event_actions all) =? length (event_reward_values all))%nat
                  = true).
  { unfold event_contexts, event_reward_values, event_actions.
    rewrite !length_map, Nat.eqb_refl. reflexivity. }
  rewrite Hlens.
  rewrite (append_rows_rows (contexts d) (event_contexts d all)
             (_context_dim d + (if intercept d then 1 else 0))); [|exact Wc|].
  2:{ unfold event_contexts, stored_context. apply Forall_forall. intros row Hrow.
      apply list_elem_of_In, in_map_iff in Hrow. destruct Hrow as ([[[u c] k] r] & <- & Hin).
      eapply Forall_forall in Hvalid; [|apply list_elem_of_In; exact Hin].
      destruct Hvalid as [Hc _]. simpl.
      destruct (intercept d); [rewrite length_app; simpl|]; lia. }
  assert (Hcoo : coo_toarray (event_reward_values all) (event_actions all)
                 = Ok (event_rewards d all)).
  { unfold coo_toarray.
    replace (length (event_reward_values all) =? length (event_actions all))%nat with true
      by (unfold event_reward_values, event_actions; rewrite !length_map, Nat.eqb_refl;
          reflexivity).
    simpl negb. cbv iota.
    assert (Hneg : existsb (fun a => a <? 0) (event_actions all) = false).
    { apply not_true_is_false. intros Hex. apply existsb_exists in Hex.
      destruct Hex as (a & Ha & Hlt). apply Z.ltb_lt in Hlt.
      eapply Forall_forall in Hacts; [|apply list_elem_of_In; exact Ha]. lia. }
    destruct (event_actions all) as [|a0 acts'] eqn:Eacts; [discriminate|].
    rewrite Hneg, (inferred_columns _ a0 acts' Hacts Hlast), <- Eacts.
    unfold event_reward_values, event_actions, event_rewards.
    rewrite zip_with_events. reflexivity. }
  rewrite Hcoo.
  rewrite (append_rows_rows (rewards d) (event_rewards d all) (_num_actions d)); [|exact Wr|].
  2:{ unfold event_rewards. apply Forall_forall. intros row Hrow.
      apply list_elem_of_In, in_map_iff in Hrow. destruct Hrow as (ev0 & <- & _).
      unfold zeros. rewrite length_insert, length_replicate. reflexivity. }
  reflexivity.
Qed.
End IngestMore.

(** Two events ingested at once and added one by one. *)
Lemma ingest_is_repeated_add_witness :
  _ingest_data (E := globals_with_pandas)
    (event_ids [(1, [3%Q], 1, 2%Q); (2, [4%Q], 0, 5%Q)])
    (event_raw_contexts [(1, [3%Q], 1, 2%Q); (2, [4%Q], 0, 5%Q)])
    (event_actions [(1, [3%Q], 1, 2%Q); (2, [4%Q], 0, 5%Q)])
    (event_reward_values [(1, [3%Q], 1, 2%Q); (2, [4%Q], 0, 5%Q)]) example_buffer_1
  = add_all [(1, [3%Q], 1, 2%Q); (2, [4%Q], 0, 5%Q)] example_buffer_1.
Proof.
  apply (ingest_is_repeated_add (R := Q) globals_with_pandas example_buffer_1).
  - reflexivity.
  - reflexivity.
  - unfold buffer_inv. simpl. repeat split; repeat constructor; lia.
  - reflexivity.
  - simpl. lia.
  - discriminate.
  - repeat constructor; simpl; lia.
  - simpl. left.
Defined.

Section IngestWidth.
Context {R : Type} `{Scalar R}.
Implicit Type d : ContextualDataset R.

(** The reward matrix that [_ingest_data] builds has as many columns as the
    largest ingested action requires, not [num_actions]: when a new buffer
    without capacity ingests events whose actions all lie below some
    [m < num_actions], its reward rows are narrower than [num_actions], and
    every later [add] raises on the concatenation of its reward row, after
    its context has been appended. *)
Theorem ingest_infers_reward_width (E : Globals) (cd na m : nat) (ic : bool)
    (evs : list (Z * list R * Z * R)) :
  pd_bound = true ->
  (0 < cd)%nat ->
  (m < na)%nat ->
  evs <> [] ->
  Forall (fun ev => length (snd (fst (fst ev))) = cd) evs ->
  Forall (fun k => 0 <= k < Z.of_nat m) (event_actions evs) ->
  exists d' rws,
    _ingest_data (event_ids evs) (event_raw_contexts evs) (event_actions evs)
      (event_reward_values evs) (ContextualDataset_init cd na (-1) ic) = (Ok tt, d')
    /\ rewards d' = Some rws
    /\ length rws = length evs
    /\ Forall (fun row => (length row < na)%nat) rws
    /\ forall (u : Z) (c : list R) (k : Z) (r : R),
         length c = cd -> 0 <= k < Z.of_nat na ->
         exists d'',
           add u c k r d'
           = (Raise (RuntimeError "sizes of tensors must match except in dimension 0"), d'')
           /\ rows_of (contexts d'') = S (length evs)
           /\ length (actions d'') = length evs.
Proof.
  intros Hpd Hcd Hm Hne Hraw Hacts.
  set (d0 := ContextualDataset_init (R := R) cd na (-1) ic).
  assert (Hraw' : Forall (fun row => length row = cd) (event_raw_contexts evs)).
  { unfold event_raw_contexts. apply Forall_forall. intros row Hrow.
    apply list_elem_of_In, in_map_iff in Hrow. destruct Hrow as (ev & <- & Hin).
    eapply Forall_forall in Hraw; [exact Hraw | apply list_elem_of_In; exact Hin]. }
  destruct (event_actions evs) as [|a0 acts'] eqn:Eacts;
    [destruct evs; [congruence | discriminate]|].
  set (ncols := Z.to_nat (foldr Z.max a0 acts' + 1)).
  assert (Hncols : (ncols < na)%nat).
  { destruct (foldr_max_bounds a0 acts') as [Hin _].
    eapply Forall_forall in Hacts; [|exact Hin]. subst ncols. lia. }
  set (ctx := if ic then map (fun r => r ++ [s_one]) (event_raw_contexts evs)
              else event_raw_contexts evs).
  set (rws := zip_with (fun r a => <[Z.to_nat a := r]> (zeros ncols))
                (event_reward_values evs) (a0 :: acts')).
  assert (Hlen_acts : length (a0 :: acts') = length evs)
    by (rewrite <- Eacts; unfold event_actions; apply length_map).
  assert (Hrun : _ingest_data (event_ids evs) (event_raw_contexts evs) (a0 :: acts')
                   (event_reward_values evs) d0
                 = (Ok tt,
                    set_user_ids (event_ids evs)
                      (set_actions (a0 :: acts')
                         (set_rewards (Some rws) (set_contexts (Some ctx) d0))))).
  { unfold _ingest_data, pbind, plift, pget, pmodify, pret, praise.
    rewrite Hpd. cbn [memory_size d0 ContextualDataset_init _context_dim intercept
                      contexts rewards]. change (-1 =? -1) with true. cbv iota.
    rewrite (reshape_rows_concat _ _ Hcd Hraw').
    assert (Hl1 : length (event_raw_contexts evs) = length (event_reward_values evs))
      by (unfold event_raw_contexts, event_reward_values; rewrite !length_map; reflexivity).
    assert (Hl2 : length (a0 :: acts') = length (event_reward_values evs))
      by (rewrite Hlen_acts; unfold event_reward_values; rewrite length_map; reflexivity).
    assert (Hctx : (if ic
                    then if (length (event_raw_contexts evs)
                             =? length (event_reward_values evs))%nat
                         then Ok (map (fun r => r ++ [s_one]) (event_raw_contexts evs))
                         else Raise (RuntimeError
                                "sizes of tensors must match except in dimension 1")
                    else Ok (event_raw_contexts evs)) = Ok ctx).
    { subst ctx. rewrite Hl1, Nat.eqb_refl. destruct ic; reflexivity. }
    rewrite Hctx.
    assert (Hlc : length ctx = length (event_reward_values evs)).
    { subst ctx. destruct ic; rewrite ?length_map; exact Hl1. }
    rewrite Hlc, Hl2, Nat.eqb_refl. cbn [andb append_rows].
    unfold coo_toarray. rewrite <- Hl2, Nat.eqb_refl. cbn [negb].
    assert (Hneg : existsb (fun a => a <? 0) (a0 :: acts') = false).
    { apply not_true_is_false. intros Hex. apply existsb_exists in Hex.
      destruct Hex as (a & Ha & Hlt). apply Z.ltb_lt in Hlt.
      eapply Forall_forall in Hacts; [|apply list_elem_of_In; exact Ha]. lia. }
    rewrite Hneg. reflexivity. }
  eexists. exists rws. split; [exact Hrun|]. split; [reflexivity|].
  assert (Hrws_len : length rws = length evs).
  { subst rws. rewrite length_zip_with, Hlen_acts. unfold event_reward_values.
    rewrite length_map. lia. }
  split; [exact Hrws_len|].
  assert (Hwidth : Forall (fun row => length row = ncols) rws).
  { subst rws. apply Forall_lookup. intros i row Hrow.
    apply lookup_zip_with_Some in Hrow. destruct Hrow as (r & a & -> & _ & _).
    unfold zeros. rewrite length_insert, length_replicate. reflexivity. }
  split; [eapply Forall_impl; [exact Hwidth|]; simpl; intros; lia|].
  intros u c k r Hc Hk.
  assert (Hctxw : Forall (fun row => length row = (cd + (if ic then 1 else 0))%nat) ctx).
  { subst ctx. destruct ic.
    - apply Forall_forall. intros row Hrow. apply list_elem_of_In, in_map_iff in Hrow.
      destruct Hrow as (r0 & <- & Hin). rewrite length_app. simpl.
      eapply Forall_forall in Hraw'; [|apply list_elem_of_In; exact Hin]. lia.
    - eapply Forall_impl; [exact Hraw'|]. simpl. intros; lia. }
  unfold add, pbind, pget, plift, pmodify, pret. simpl.
  assert (Hresh : (if ic then reshape_row (c ++ [s_lit 1]) (cd + 1) else reshape_row c cd)
                  = Ok (if ic then c ++ [s_lit 1] else c)).
  { destruct ic; unfold reshape_row.
    - rewrite length_app, Hc. simpl. rewrite Nat.eqb_refl. reflexivity.
    - rewrite Hc, Nat.eqb_refl. reflexivity. }
  rewrite Hresh.
  rewrite (torch_cat_row ctx (if ic then c ++ [s_lit 1] else c)).
  2:{ eapply Forall_impl; [exact Hctxw|]. simpl. intros row ->.
      destruct ic; [rewrite length_app; simpl|]; lia. }
  rewrite (reward_row_in_range _ _ _ Hk).
  assert (Hcat : torch_cat rws [<[Z.to_nat k := r]> (zeros na)]
                 = Raise (RuntimeError "sizes of tensors must match except in dimension 0")).
  { unfold torch_cat. destruct rws as [|r0 rws'].
    - simpl in Hrws_len. destruct evs; [congruence | discriminate].
    - inversion Hwidth as [|? ? Hr0 _]; subst.
      unfold zeros. rewrite length_insert, length_replicate.
      destruct (Nat.eqb_spec (length r0) na); [lia | reflexivity]. }
  rewrite Hcat. eexists. split; [reflexivity|].
  unfold rows_of. simpl. rewrite length_app. simpl.
  assert (length ctx = length evs).
  { subst ctx. destruct ic; rewrite ?length_map; unfold event_raw_contexts;
      apply length_map. }
  split; [lia | exact Hlen_acts].
Qed.
End IngestWidth.

(** Two events of action 0 ingested into a new buffer of two actions. *)
Lemma ingest_infers_reward_width_witness :
  exists d' rws,
    _ingest_data (E := globals_with_pandas)
      (event_ids [(1, [3%Q], 0, 2%Q); (2, [4%Q], 0, 5%Q)])
      (event_raw_contexts [(1, [3%Q], 0, 2%Q); (2, [4%Q], 0, 5%Q)])
      (event_actions [(1, [3%Q], 0, 2%Q); (2, [4%Q], 0, 5%Q)])
      (event_reward_values [(1, [3%Q], 0, 2%Q); (2, [4%Q], 0, 5%Q)])
      (ContextualDataset_init 1 2 (-1) false) = (Ok tt, d')
    /\ rewards d' = Some rws
    /\ length rws = length [(1, [3%Q], 0, 2%Q); (2, [4%Q], 0, 5%Q)]
    /\ Forall (fun row => (length row < 2)%nat) rws
    /\ forall (u : Z) (c : list Q) (k : Z) (r : Q),
         length c = 1%nat -> 0 <= k < Z.of_nat 2 ->
         exists d'',
           add u c k r d'
           = (Raise (RuntimeError "sizes of tensors must match except in dimension 0"), d'')
           /\ rows_of (contexts d'') = S (length [(1, [3%Q], 0, 2%Q); (2, [4%Q], 0, 5%Q)])
           /\ length (actions d'') = length [(1, [3%Q], 0, 2%Q); (2, [4%Q], 0, 5%Q)].
Proof.
  apply (ingest_infers_reward_width (R := Q) globals_with_pandas 1 2 1 false
           [(1, [3%Q], 0, 2%Q); (2, [4%Q], 0, 5%Q)]).
  - reflexivity.
  - lia.
  - lia.
  - discriminate.
  - repeat constructor.
  - repeat constructor; simpl; lia.
Defined.

(** ** The agent: construction and the posterior refresh *)

Section InitMore.
Context {R N : Type} `{Scalar R} `{Numeric R}.
Implicit Type s : Wide_Deep_Bandits R N.

(** An agent that [__init__] returns has the configuration it was given,
    the counter at 0, empty buffers, the registry with the dummy user only,
    parameter groups that are aliases in the three lists, and the prior in
    every entry of a well-formed posterior bank: mean zero, covariance
    [(1 / lambda_prior) I], precision [lambda_prior I], shape [a0] and scale
    [b0]. *)
Theorem init_establishes_invariants (cfg : Config R) (net0 : N) s :
  Wide_Deep_Bandits_init cfg net0 = Ok s ->
  config s = cfg /\ net s = net0 /\ t s = 0
  /\ in_list (model_type cfg) possible_models = true
  /\ in_list (wd_combine_method cfg) possible_combine_methods = true
  /\ s_eqb (lambda_prior cfg) s_zero = false
  /\ data_h s = ContextualDataset_init (num_features cfg) (num_actions cfg) (-1) false
  /\ latent_h s = ContextualDataset_init (latent_dim s) (num_actions cfg) (-1) false
  /\ fresh_registry s /\ aliased s /\ posterior_wf s
  /\ mu s = replicate (num_actions cfg) (zeros (latent_dim s))
  /\ cov s = replicate (num_actions cfg)
               (mat_scale (s_div (s_lit 1) (lambda_prior cfg)) (np_eye (latent_dim s)))
  /\ precision s = replicate (num_actions cfg)
                     (mat_scale (lambda_prior cfg) (np_eye (latent_dim s)))
  /\ a s = replicate (num_actions cfg) (a0 cfg)
  /\ b s = replicate (num_actions cfg) (b0 cfg).
Proof.
  intros Hinit. pose proof (init_aliased cfg net0 s Hinit) as Halias.
  unfold Wide_Deep_Bandits_init in Hinit.
  destruct (in_list (model_type cfg) possible_models); [|discriminate].
  destruct (in_list (wd_combine_method cfg) possible_combine_methods); [|discriminate].
  simpl in Hinit.
  destruct (initial_groups cfg) as [[lrs latent]|]; simpl in Hinit; [|discriminate].
  destruct (s_eqb (lambda_prior cfg) s_zero); simpl in Hinit; [discriminate|].
  injection Hinit as <-. simpl.
  repeat (split; [reflexivity|]).
  split; [split; reflexivity|]. split; [exact Halias|].
  split; [|repeat split].
  unfold posterior_wf, buffer_inv. simpl. rewrite !length_replicate.
  repeat split; constructor.
Qed.
End InitMore.

(** The invariants on the small agent. *)
Lemma init_establishes_invariants_witness :
  config small_agent = small_config /\ net small_agent = tt /\ t small_agent = 0
  /\ in_list (model_type small_config) possible_models = true
  /\ in_list (wd_combine_method small_config) possible_combine_methods = true
  /\ s_eqb (lambda_prior small_config) s_zero = false
  /\ data_h small_agent
     = ContextualDataset_init (num_features small_config) (num_actions small_config) (-1) false
  /\ latent_h small_agent
     = ContextualDataset_init (latent_dim small_agent) (num_actions small_config) (-1) false
  /\ fresh_registry small_agent /\ aliased small_agent /\ posterior_wf small_agent
  /\ mu small_agent = replicate (num_actions small_config) (zeros (latent_dim small_agent))
  /\ cov small_agent
     = replicate (num_actions small_config)
         (mat_scale (s_div (s_lit 1) (lambda_prior small_config))
            (np_eye (latent_dim small_agent)))
  /\ precision small_agent
     = replicate (num_actions small_config)
         (mat_scale (lambda_prior small_config) (np_eye (latent_dim small_agent)))
  /\ a small_agent = replicate (num_actions small_config) (a0 small_config)
  /\ b small_agent = replicate (num_actions small_config) (b0 small_config).
Proof.
  apply (init_establishes_invariants (R := Q) (N := unit) small_config tt small_agent).
  reflexivity.
Defined.

Section RefreshMore.
Context {R N : Type} `{Scalar R} `{Numeric R}.
Implicit Type s : Wide_Deep_Bandits R N.

Lemma update_action_outside_posterior (c : _) (k : Z) :
  preserves (fun s => outside_posterior s = c) (update_action (N := N) k).
Proof.
  unfold update_action.
  apply preserves_pbind; [apply preserves_pget | intros s0].
  apply preserves_pbind; [apply preserves_plift | intros [[u z] y]].
  apply preserves_pbind; [apply preserves_plift | intros [[[[m cv] pr] ap] bp]].
  repeat (apply preserves_pbind; [apply preserves_plift | intros ?];
          apply preserves_pbind; [apply preserves_pmodify; intros st Hst; exact Hst | intros _]).
  apply preserves_pbind; [apply preserves_plift | intros ?].
  apply preserves_pmodify; intros st Hst; exact Hst.
Qed.

Lemma refresh_outside_posterior (c : _) :
  preserves (fun s => outside_posterior s = c) (_update_actions (N := N)).
Proof.
  intros s Hs. unfold _update_actions.
  apply (preserves_for_each (fun st => outside_posterior st = c)
           _ update_action (update_action_outside_posterior _)).
  exact Hs.
Qed.

(** [_update_actions] assigns to [mu], [cov], [precision], [a] and [b] and
    to nothing else: whatever the agent, and also when the refresh raises
    part way, the configuration, the counter, the networks and their
    learning rates, both buffers and the registry are as they were before. *)
Theorem update_actions_touches_only_the_posterior s :
  outside_posterior (snd (_update_actions s)) = outside_posterior s.
Proof. apply (refresh_outside_posterior (outside_posterior s)). reflexivity. Qed.

Lemma posterior_lists_eq s1 s2 :
  posterior_wf s1 -> posterior_wf s2 ->
  num_actions (config s1) = num_actions (config s2) ->
  (forall k : nat, (k < num_actions (config s1))%nat -> posterior_at s1 k = posterior_at s2 k) ->
  mu s1 = mu s2 /\ cov s1 = cov s2 /\ precision s1 = precision s2
  /\ a s1 = a s2 /\ b s1 = b s2.
Proof.
  intros (Lm & Lc & Lp & La & Lb & _) (Lm' & Lc' & Lp' & La' & Lb' & _) Hn Hat.
  assert (Hat' : forall k : nat,
            mu s1 !! k = mu s2 !! k /\ cov s1 !! k = cov s2 !! k
            /\ precision s1 !! k = precision s2 !! k
            /\ a s1 !! k = a s2 !! k /\ b s1 !! k = b s2 !! k).
  { intros k. destruct (decide (k < num_actions (config s1))%nat) as [Hk|Hk].
    - specialize (Hat k Hk). unfold posterior_at in Hat.
      injection Hat as -> -> -> -> ->. repeat split.
    - rewrite !lookup_ge_None_2 by lia. repeat split. }
  repeat split; apply list_eq; intros k; apply (Hat' k).
Qed.

Lemma agent_eq s1 s2 :
  outside_posterior s1 = outside_posterior s2 ->
  mu s1 = mu s2 -> cov s1 = cov s2 -> precision s1 = precision s2 ->
  a s1 = a s2 -> b s1 = b s2 -> s1 = s2.
Proof.
  unfold outside_posterior. destruct s1, s2. simpl.
  intros [= -> -> -> -> -> -> -> -> -> -> -> -> -> ->] -> -> -> -> ->. reflexivity.
Qed.

(** The refresh is idempotent: on an agent on which it returns (a
    well-formed posterior bank, every precision of the buffer invertible), a
    second refresh directly after the first returns too and changes
    nothing, since it recomputes the same posteriors from the same latent
    buffer. *)
Theorem update_actions_idempotent s :
  posterior_wf s ->
  Forall (invertible_for s) (actions (latent_h s)) ->
  exists s',
    _update_actions s = (Ok tt, s') /\ _update_actions s' = (Ok tt, s').
Proof.
  intros Hwf Hinvert.
  assert (Htodo : Forall (fun k => k ∈ actions (latent_h s) /\ invertible_for s k)
                    (np_unique (actions (latent_h s)))).
  { apply Forall_forall. intros k Hk. apply (proj1 (np_unique_elem _ _)) in Hk.
    split; [exact Hk|]. eapply Forall_forall in Hinvert; [exact Hinvert | exact Hk]. }
  assert (Hrefl : same_inputs s s) by (repeat split).
  destruct (refresh_loop s _ Htodo s Hrefl Hwf) as (s' & Hrun & Hsame & Hwf' & Hfields).
  destruct (refresh_loop s _ Htodo s' Hsame Hwf') as (s'' & Hrun' & Hsame' & Hwf'' & Hfields').
  pose proof Hsame as (Hl & Hcfg & Hd). pose proof Hsame' as (Hl' & Hcfg' & Hd').
  exists s'. split; [exact Hrun|].
  unfold _update_actions. rewrite Hl, Hrun'. f_equal.
  pose proof (refresh_outside_posterior (outside_posterior s') s' eq_refl) as Hframe.
  unfold _update_actions in Hframe. rewrite Hl, Hrun' in Hframe. simpl in Hframe.
  destruct (posterior_lists_eq s'' s' Hwf'' Hwf') as (E1 & E2 & E3 & E4 & E5);
    [congruence | |].
  - intros k Hk. rewrite Hcfg' in Hk.
    destruct (Hfields k Hk) as [Hdone Hkeep]. destruct (Hfields' k Hk) as [Hdone' Hkeep'].
    destruct (decide (Z.of_nat k ∈ np_unique (actions (latent_h s)))) as [Hin|Hout].
    + destruct (Hdone Hin) as (c & Hc & ->). destruct (Hdone' Hin) as (c' & Hc' & ->).
      congruence.
    + exact (Hkeep' Hout).
  - apply agent_eq; assumption.
Qed.
End RefreshMore.

(** The refresh of the example agent, run twice. *)
Lemma update_actions_idempotent_witness :
  exists s',
    _update_actions refresh_agent = (Ok tt, s') /\ _update_actions s' = (Ok tt, s').
Proof.
  apply (update_actions_idempotent (R := Q) (N := unit) refresh_agent).
  - unfold posterior_wf, buffer_inv. simpl.
    repeat split; repeat constructor; lia.
  - repeat constructor; (eexists; split; [vm_compute; reflexivity | reflexivity]).
Defined.

(** ** Choosing an action *)

Section ActionMore.
Context {R N G : Type} `{Scalar R} `{Numeric R} `{Random G R} `{Approximator R N}.
Implicit Type s : Wide_Deep_Bandits R N.

Lemma scale_contexts_outside_scaling (arg : option (list (list R))) (c : _) :
  preserves (fun d => outside_scaling d = c) (scale_contexts (R := R) arg).
Proof.
  unfold scale_contexts.
  apply preserves_pbind; [apply preserves_pget | intros d].
  destruct (contexts d) as [m|]; [|apply preserves_praise].
  apply preserves_pbind; [apply preserves_pmodify; intros st Hst; exact Hst | intros _].
  destruct (_ <? _)%nat; [apply preserves_praise|].
  destruct arg as [rows|]; [|apply preserves_pret].
  destruct (forallb _ rows); [apply preserves_pret | apply preserves_praise].
Qed.

Lemma only_scaling_refl s : only_scaling s s.
Proof. split; reflexivity. Qed.

Lemma on_data_h_only_scaling {A : Type} (m : py (ContextualDataset R) A) s0 :
  (forall c, preserves (fun d => outside_scaling d = c) m) ->
  preserves (only_scaling s0) (on_data_h (N := N) m).
Proof.
  intros Hm s [Hs Hd]. unfold on_data_h.
  specialize (Hm (outside_scaling (data_h s)) (data_h s) eq_refl).
  destruct (m (data_h s)) as [o d'].
  split; [exact Hs | etransitivity; [exact Hm | exact Hd]].
Qed.

Lemma scale_one_only_scaling (context : list R) s0 :
  preserves (only_scaling s0) (scale_one (N := N) context).
Proof.
  unfold scale_one.
  apply preserves_pbind; [apply preserves_pget | intros s].
  apply preserves_pbind; [apply preserves_plift | intros rows].
  apply preserves_pbind;
    [apply on_data_h_only_scaling; intros c; apply scale_contexts_outside_scaling | intros res].
  destruct res as [[|r rs]|]; first [apply preserves_pret | apply preserves_praise].
Qed.

Lemma expected_values_only_scaling uid (context : list R) (scale : bool) (method : string) s0 :
  preserves (only_scaling s0) (expected_values (N := N) uid context scale method).
Proof.
  unfold expected_values.
  destruct (negb _); [apply preserves_praise|].
  apply preserves_pbind;
    [destruct scale; [apply scale_one_only_scaling | apply preserves_pret] | intros ctx].
  apply preserves_pbind; [apply preserves_pget | intros s].
  apply preserves_pbind; [apply preserves_plift | intros idx].
  destruct (String.eqb method "BLR").
  - apply preserves_pbind; [apply preserves_plift | intros z]. apply preserves_plift.
  - destruct (String.eqb (model_type (config s)) "deep"); [apply preserves_plift|].
    destruct (String.eqb (model_type (config s)) "wide"); [apply preserves_plift|].
    destruct (String.eqb (model_type (config s)) "wide_deep"); [|apply preserves_praise].
    apply preserves_pbind; [apply preserves_plift | intros vals].
    destruct (String.eqb _ "concat_reward"); [apply preserves_praise | apply preserves_pret].
Qed.

Lemma on_agent_preserves {A : Type} (P : Wide_Deep_Bandits R N -> Prop) (m : py _ A) :
  preserves P m -> preserves (fun sg => P (fst sg)) (on_agent (G := G) m).
Proof.
  intros Hm [s g] Hs. unfold on_agent. simpl in *. specialize (Hm s Hs).
  destruct (m s) as [o s']. exact Hm.
Qed.

Lemma sample_keeps_agent uid (context : list R) (parallelize : bool) s (g : G) :
  fst (snd (_sample uid context parallelize (s, g))) = s.
Proof.
  unfold _sample. destruct (sample_betas parallelize s g) as [[beta_s|e] g']; reflexivity.
Qed.

Lemma action_only_scaling uid (context : list R) (method : string) s0 :
  preserves (fun sg : Wide_Deep_Bandits R N * G => only_scaling s0 (fst sg))
            (action uid context method).
Proof.
  unfold action.
  destruct (negb _); [apply preserves_praise|].
  apply preserves_pbind; [apply preserves_pget | intros sg]. cbv zeta.
  destruct (_ <? _).
  { destruct (_ =? _)%nat; [apply preserves_praise | apply preserves_pret]. }
  apply preserves_pbind.
  { destruct (do_scaling _); [|apply preserves_pret].
    apply on_agent_preserves, scale_one_only_scaling. }
  intros ctx. apply preserves_pbind; [|intros vals; apply preserves_plift].
  destruct (String.eqb method "forward");
    [apply on_agent_preserves, expected_values_only_scaling|].
  destruct (String.eqb method "BLR");
    [apply on_agent_preserves, expected_values_only_scaling|].
  intros [s g] Hs. rewrite sample_keeps_agent. exact Hs.
Qed.

(** [action] decides and learns nothing: whatever the arguments and
    whether it returns or raises, the agent after the call is the agent
    before it up to the cache [scaled_contexts] of its data buffer.  The
    counter, the posterior, the networks and their learning rates, the
    registry, the latent buffer and the stored contexts, rewards, actions
    and user ids are unchanged. *)
Theorem action_is_read_only uid (context : list R) (method : string) s (g : G) :
  only_scaling s (fst (snd (action uid context method (s, g)))).
Proof. apply (action_only_scaling uid context method s (s, g)), only_scaling_refl. Qed.

Lemma argmax_from_bound (l : list R) : forall (best : R) (besti i : nat),
  (besti < i)%nat -> (argmax_from best besti i l < i + length l)%nat.
Proof.
  induction l as [|x l IH]; intros best besti i Hi; simpl; [lia|].
  destruct (s_ltb best x).
  - specialize (IH x i (S i)). lia.
  - specialize (IH best besti (S i)). lia.
Qed.

Lemma np_argmax_bound (l : list R) (k : Z) :
  np_argmax l = Ok k -> 0 <= k < Z.of_nat (length l).
Proof.
  destruct l as [|x l]; simpl; [discriminate|]. intros [= <-].
  pose proof (argmax_from_bound l x 0%nat 1%nat). lia.
Qed.

Lemma map_outcome_length {A B : Type} (f : A -> outcome B) (l : list A) :
  forall l', map_outcome f l = Ok l' -> length l' = length l.
Proof.
  induction l as [|x l IH]; simpl; intros l'; [intros [= <-]; reflexivity|].
  destruct (f x) as [y|e]; simpl; [|discriminate].
  destruct (map_outcome f l) as [ys|e]; simpl; [|discriminate].
  intros [= <-]. simpl. f_equal. apply IH. reflexivity.
Qed.

Lemma pbind_ok {S A B : Type} (m : py S A) (k : A -> py S B) (st : S) (v : B) :
  fst (pbind m k st) = Ok v ->
  exists x st1, m st = (Ok x, st1) /\ fst (k x st1) = Ok v.
Proof.
  unfold pbind. destruct (m st) as [[x|e] st1]; simpl; [|discriminate].
  intros Hv. exists x, st1. split; [reflexivity | exact Hv].
Qed.

Lemma only_scaling_config s s' : only_scaling s s' -> config s' = config s.
Proof. intros [Hs _]. unfold outside_data_h in Hs. congruence. Qed.

Lemma expected_values_BLR_length uid (context : list R) (scale : bool) s vals :
  fst (expected_values (N := N) uid context scale "BLR" s) = Ok vals ->
  length vals = num_actions (config s).
Proof.
  unfold expected_values. simpl negb. cbv iota. intros Hv.
  apply pbind_ok in Hv as (ctx & s1 & Hctx & Hv).
  assert (Hs1 : only_scaling s s1).
  { destruct scale.
    - pose proof (scale_one_only_scaling context s s (only_scaling_refl s)) as Hframe.
      rewrite Hctx in Hframe. exact Hframe.
    - injection Hctx as _ <-. apply only_scaling_refl. }
  apply pbind_ok in Hv as (s2 & s3 & Hget & Hv). injection Hget as <- <-.
  apply pbind_ok in Hv as (idx & s4 & Hidx & Hv). injection Hidx as _ <-.
  simpl String.eqb in Hv. cbv iota in Hv.
  apply pbind_ok in Hv as (z & s5 & Hz & Hv). injection Hz as _ <-.
  unfold plift in Hv. simpl in Hv.
  apply map_outcome_length in Hv. rewrite Hv, length_seq.
  rewrite (only_scaling_config s s1 Hs1). reflexivity.
Qed.

Lemma sample_length uid (context : list R) (parallelize : bool) s (g : G) vals :
  fst (_sample uid context parallelize (s, g)) = Ok vals ->
  length vals = num_actions (config s).
Proof.
  unfold _sample. destruct (sample_betas parallelize s g) as [[beta_s|e] g']; simpl;
    [|discriminate].
  destruct (lookup_one_user_idx uid s) as [idx|e]; simpl; [|discriminate].
  destruct (get_representation idx context s) as [z|e]; simpl; [|discriminate].
  intros Hv. apply map_outcome_length in Hv. rewrite Hv, length_seq. reflexivity.
Qed.

(** The decision is an action: with the method ['BLR_TS'] or ['BLR'], in
    the warm-up and after it, a value that [action] returns lies between 0
    and [num_actions - 1]. *)
Theorem action_returns_an_action uid (context : list R) (method : string) s (g : G) (k : Z) :
  method <> "forward" ->
  fst (action uid context method (s, g)) = Ok k ->
  0 <= k < Z.of_nat (num_actions (config s)).
Proof.
  intros Hmethod. unfold action.
  destruct (negb _); [discriminate|]. intros Hk.
  apply pbind_ok in Hk as (sg & sg1 & Hget & Hk). injection Hget as <- <-.
  cbv zeta in Hk. simpl fst in Hk.
  destruct (_ <? _).
  { destruct (num_actions (config s) =? 0)%nat eqn:Hna; [discriminate|].
    apply Nat.eqb_neq in Hna. injection Hk as <-. apply Z.mod_pos_bound. lia. }
  apply pbind_ok in Hk as (ctx & [s1 g1] & Hctx & Hk).
  assert (Hs1 : only_scaling s s1).
  { destruct (do_scaling (config s)).
    - pose proof (on_agent_preserves (only_scaling s) (scale_one context)
                    (scale_one_only_scaling context s) (s, g) (only_scaling_refl s)) as Hf.
      rewrite Hctx in Hf. exact Hf.
    - injection Hctx as _ <- _. apply only_scaling_refl. }
  apply pbind_ok in Hk as (vals & sg2 & Hvals & Hk).
  unfold plift in Hk. simpl in Hk. apply np_argmax_bound in Hk.
  enough (length vals = num_actions (config s)) by lia.
  rewrite <- (only_scaling_config s s1 Hs1).
  destruct (String.eqb method "forward") eqn:Hf;
    [apply String.eqb_eq in Hf; contradiction|].
  destruct (String.eqb method "BLR").
  - unfold on_agent in Hvals. simpl in Hvals.
    destruct (expected_values uid ctx false "BLR" s1) as [o s2] eqn:Hev.
    injection Hvals as -> _.
    apply (expected_values_BLR_length uid ctx false s1). rewrite Hev. reflexivity.
  - apply (sample_length uid ctx false s1 g1). rewrite Hvals. reflexivity.
Qed.

(** With the wide and deep model combined by ['concat_reward'], the
    method ['forward'] never returns: [expected_values] reads the attribute
    [hparams], which the agent does not have, so the call ends in an
    exception whatever the networks compute; and so does [action] with
    this method once the warm-up is over. *)
Theorem forward_concat_reward_never_returns uid (context : list R) (scale : bool) s (g : G) :
  model_type (config s) = "wide_deep" ->
  wd_combine_method (config s) = "concat_reward" ->
  (forall vals, fst (expected_values uid context scale "forward" s) <> Ok vals)
  /\ (Z.of_nat (num_actions (config s)) * initial_pulls (config s) <= t s ->
      forall k, fst (action uid context "forward" (s, g)) <> Ok k).
Proof.
  intros Hmodel Hcombine.
  assert (Hev : forall ctx sc s1, only_scaling s s1 ->
            forall vals, fst (expected_values uid ctx sc "forward" s1) <> Ok vals).
  { intros ctx sc s1 Hs1 vals Hv. unfold expected_values in Hv.
    simpl negb in Hv. cbv iota in Hv.
    apply pbind_ok in Hv as (ctx' & s2 & Hctx & Hv).
    assert (Hs2 : only_scaling s s2).
    { destruct sc.
      - pose proof (scale_one_only_scaling ctx s s1 Hs1) as Hframe.
        rewrite Hctx in Hframe. exact Hframe.
      - injection Hctx as _ <-. exact Hs1. }
    apply pbind_ok in Hv as (s3 & s4 & Hget & Hv). injection Hget as <- <-.
    apply pbind_ok in Hv as (idx & s5 & Hidx & Hv). injection Hidx as _ <-.
    simpl String.eqb in Hv. cbv iota in Hv.
    rewrite (only_scaling_config s s2 Hs2), Hmodel, Hcombine in Hv. simpl in Hv.
    destruct (Wide_and_Deep_Model_forward idx ctx' "concat_reward" (net s2));
      simpl in Hv; discriminate. }
  split; [apply Hev, only_scaling_refl|].
  intros Ht k Hk. unfold action in Hk. simpl negb in Hk. cbv iota in Hk.
  apply pbind_ok in Hk as (sg & sg1 & Hget & Hk). injection Hget as <- <-.
  cbv zeta in Hk. simpl fst in Hk.
  destruct (_ <? _) eqn:Hlt; [apply Z.ltb_lt in Hlt; lia|].
  apply pbind_ok in Hk as (ctx & [s1 g1] & Hctx & Hk).
  assert (Hs1 : only_scaling s s1).
  { destruct (do_scaling (config s)).
    - pose proof (on_agent_preserves (only_scaling s) (scale_one context)
                    (scale_one_only_scaling context s) (s, g) (only_scaling_refl s)) as Hf.
      rewrite Hctx in Hf. exact Hf.
    - injection Hctx as _ <- _. apply only_scaling_refl. }
  apply pbind_ok in Hk as (vals & sg2 & Hvals & Hk).
  simpl String.eqb in Hvals. cbv iota in Hvals.
  unfold on_agent in Hvals. simpl in Hvals.
  destruct (expected_values uid ctx false "forward" s1) as [o s2] eqn:Hev1.
  injection Hvals as -> _.
  apply (Hev ctx false s1 Hs1 vals). rewrite Hev1. reflexivity.
Qed.
End ActionMore.

(** A decision of the small agent past its warm-up, by the posterior
    means. *)
Lemma action_returns_an_action_witness :
  0 <= 0 < Z.of_nat (num_actions (config (set_t 5 small_agent))).
Proof.
  apply (action_returns_an_action (R := Q) (N := unit) (G := nat)
           (Tensor1 [7]) [1%Q] "BLR" (set_t 5 small_agent) 0%nat 0).
  - discriminate.
  - reflexivity.
Defined.

(** The forward method on the agent that combines by ['concat_reward'],
    past its warm-up. *)
Lemma forward_concat_reward_never_returns_witness :
  (forall vals,
     fst (expected_values (Tensor1 [7]) [1%Q] false "forward" concat_reward_agent) <> Ok vals)
  /\ (forall k,
        fst (action (Tensor1 [7]) [1%Q] "forward" (concat_reward_agent, 0%nat)) <> Ok k).
Proof.
  destruct (forward_concat_reward_never_returns (R := Q) (N := unit) (G := nat)
              (Tensor1 [7]) [1%Q] false concat_reward_agent 0%nat) as [Hev Hact].
  - reflexivity.
  - reflexivity.
  - split; [exact Hev | apply Hact; vm_compute; discriminate].
Defined.

(** ** Thompson sampling *)

Section SampleMore.
Context {R N G : Type} `{Scalar R} `{Numeric R} `{Random G R} `{Approximator R N}.
Implicit Type s : Wide_Deep_Bandits R N.

Lemma sample_loop_completes s (sigma2_s : list R) (d m : nat) :
  forall (i0 : nat) (acc beta_s : list (list R)) (g g1 : G),
  sample_loop s sigma2_s d false (seq i0 m) acc g = (Ok tt, beta_s, g1) ->
  exists xs : list (list R),
    beta_s = acc ++ xs /\ length xs = m
    /\ (forall j x, xs !! j = Some x -> own_draw (G := G) s sigma2_s d (i0 + j) x).
Proof.
  induction m as [|m IH]; intros i0 acc beta_s g g1 Hloop; simpl in Hloop.
  - injection Hloop as <- <-. exists []. rewrite app_nil_r.
    split; [reflexivity|]. split; [reflexivity|].
    intros j x Hx. rewrite lookup_nil in Hx. discriminate.
  - destruct (draw_arguments s sigma2_s d i0) as [[mus covs]|e] eqn:Hargs; [|discriminate].
    destruct (draw_arguments_own _ _ _ _ _ _ Hargs) as (s2s & c & Hm & Hs & Hc & Hcv).
    destruct (np_random_multivariate_normal g mus covs) as [[x|e] g'] eqn:Hdraw;
      [|discriminate].
    destruct (IH (S i0) (acc ++ [x]) beta_s g' g1 Hloop) as (xs & -> & Hlen & Hown).
    exists (x :: xs). split; [rewrite <- app_assoc; reflexivity|].
    split; [simpl; lia|].
    intros [|j] y Hy; simpl in Hy.
    + injection Hy as <-. rewrite Nat.add_0_r. exists g, g', mus, s2s, c, covs. auto.
    + replace (i0 + S j)%nat with (S i0 + j)%nat by lia. apply Hown, Hy.
Qed.

Lemma map_outcome_lookup {A B : Type} (f : A -> outcome B) (l : list A) :
  forall l', map_outcome f l = Ok l' ->
  forall (i : nat) (x : A), l !! i = Some x -> exists y, f x = Ok y /\ l' !! i = Some y.
Proof.
  induction l as [|x0 l IH]; simpl; intros l' Hl' i x Hx;
    [rewrite lookup_nil in Hx; discriminate|].
  destruct (f x0) as [y0|e] eqn:Hy0; simpl in Hl'; [|discriminate].
  destruct (map_outcome f l) as [ys|e]; simpl in Hl'; [|discriminate].
  injection Hl' as <-. destruct i as [|i]; simpl in Hx.
  - injection Hx as <-. exists y0. split; [exact Hy0 | reflexivity].
  - apply (IH ys eq_refl i x Hx).
Qed.

(** Thompson sampling, when it returns: [_sample] has drawn the noise
    [sigma2_s = b * invgamma.rvs(a)] and, for every action, one weight
    vector from that action's own posterior (mean [mu[i]], covariance
    [sigma2_s[i] * cov[i]]); the result has one score per action, and the
    score of action [i] is the sum of the products of its weight vector
    with the latent representation of the user and context.  (A draw that
    raises [LinAlgError] never leads to a result, since the handler
    raises.) *)
Theorem sample_scores_come_from_own_draws uid (context : list R) s (g : G) (vals : list R) :
  fst (_sample uid context false (s, g)) = Ok vals ->
  exists (mu0 : list R) (rvs sigma2_s z : list R) (g0 : G) (user_idx : Z),
    head (mu s) = Some mu0
    /\ invgamma_rvs g (a s) = (rvs, g0)
    /\ np_binop1 s_mul (b s) rvs = Ok sigma2_s
    /\ lookup_one_user_idx uid s = Ok user_idx
    /\ get_representation user_idx context s = Ok z
    /\ length vals = num_actions (config s)
    /\ forall i : nat, (i < num_actions (config s))%nat ->
         exists (x : list R) (score : R),
           own_draw (G := G) s sigma2_s (length mu0) i x
           /\ mul_sum x z = Ok score /\ vals !! i = Some score.
Proof.
  unfold _sample, sample_betas.
  destruct (mu s) as [|mu0 mus] eqn:Hmu; [discriminate|].
  destruct (invgamma_rvs g (a s)) as [rvs g0] eqn:Hrvs.
  destruct (np_binop1 s_mul (b s) rvs) as [sigma2_s|e] eqn:Hsig; [|discriminate].
  destruct (sample_loop s sigma2_s (length mu0) false (seq 0 (num_actions (config s))) [] g0)
    as [[[[]|e] beta_s] g1] eqn:Hloop.
  2:{ destruct e; discriminate. }
  simpl.
  destruct (lookup_one_user_idx uid s) as [user_idx|e] eqn:Hidx; simpl; [|discriminate].
  destruct (get_representation user_idx context s) as [z|e] eqn:Hz; simpl; [|discriminate].
  intros Hvals.
  destruct (sample_loop_completes _ _ _ _ _ _ _ _ _ Hloop) as (xs & Hxs & Hlen & Hown).
  simpl in Hxs. subst beta_s.
  exists mu0, rvs, sigma2_s, z, g0, user_idx.
  do 5 (split; [first [reflexivity | assumption]|]).
  split; [rewrite (map_outcome_length _ _ _ Hvals), length_seq; reflexivity|].
  intros i Hi.
  destruct (map_outcome_lookup _ _ _ Hvals i i) as (score & Hscore & Hat).
  { apply lookup_seq. lia. }
  destruct (py_getitem xs (Z.of_nat i)) as [x|e] eqn:Hx; simpl in Hscore; [|discriminate].
  apply py_getitem_nat in Hx.
  exists x, score. split; [apply (Hown i x Hx) | split; [exact Hscore | exact Hat]].
Qed.

(** With [parallelize=True], [_sample] never returns on an agent that has
    an action: the loop calls [parallelize_multivar], a name that the module
    does not define, for the first action already (unless the loop raises
    before the call). *)
Theorem sample_parallelize_never_returns uid (context : list R) s (g : G) :
  (0 < num_actions (config s))%nat ->
  forall vals, fst (_sample uid context true (s, g)) <> Ok vals.
Proof.
  intros Hna vals. unfold _sample, sample_betas.
  destruct (mu s) as [|mu0 mus]; [discriminate|].
  destruct (invgamma_rvs g (a s)) as [rvs g0].
  destruct (np_binop1 s_mul (b s) rvs) as [sigma2_s|e]; [|discriminate].
  destruct (num_actions (config s)) as [|n]; [lia|]. simpl.
  destruct (draw_arguments s sigma2_s (length mu0) 0) as [[ms covs]|e]; [discriminate|].
  destruct e; discriminate.
Qed.
End SampleMore.

(** Thompson sampling on the small agent past its warm-up, with the
    generator that returns the mean. *)
Lemma sample_scores_come_from_own_draws_witness :
  exists (mu0 : list Q) (rvs sigma2_s z : list Q) (g0 : nat) (user_idx : Z),
    head (mu (set_t 5 small_agent)) = Some mu0
    /\ invgamma_rvs 0%nat (a (set_t 5 small_agent)) = (rvs, g0)
    /\ np_binop1 s_mul (b (set_t 5 small_agent)) rvs = Ok sigma2_s
    /\ lookup_one_user_idx (Tensor1 [7]) (set_t 5 small_agent) = Ok user_idx
    /\ get_representation user_idx [1%Q] (set_t 5 small_agent) = Ok z
    /\ length [0%Q; 0%Q] = num_actions (config (set_t 5 small_agent))
    /\ forall i : nat, (i < num_actions (config (set_t 5 small_agent)))%nat ->
         exists (x : list Q) (score : Q),
           own_draw (G := nat) (set_t 5 small_agent) sigma2_s (length mu0) i x
           /\ mul_sum x z = Ok score /\ [0%Q; 0%Q] !! i = Some score.
Proof.
  apply (sample_scores_come_from_own_draws (R := Q) (N := unit) (G := nat)
           (Tensor1 [7]) [1%Q] (set_t 5 small_agent) 0%nat [0%Q; 0%Q]).
  reflexivity.
Defined.

(** The parallel variant on the small agent. *)
Lemma sample_parallelize_never_returns_witness :
  forall vals, fst (_sample (Tensor1 [7]) [1%Q] true (small_agent, 0%nat)) <> Ok vals.
Proof.
  apply (sample_parallelize_never_returns (R := Q) (N := unit) (G := nat)
           (Tensor1 [7]) [1%Q] small_agent 0%nat).
  vm_compute. lia.
Defined.
